(* ===================================================================== *)
(* Oracul news aggregator: a shallow embedding of the crawler scheduler, *)
(* the API pagination check, the duplicate detector, the analytics       *)
(* category distribution, the classifier, the text utilities, the VADER  *)
(* sentiment rule and the in-memory rate limiter, with their properties. *)
(* ===================================================================== *)

From Stdlib Require Import ZArith QArith Qround Qabs Qminmax String Ascii List Bool Lia Lqa Sorted.
From stdpp Require Import base gmap strings list.

Import ListNotations.
Open Scope Z_scope.
Set Warnings "-register-all".

(* ===================================================================== *)
(* Part I. Definitions                                                   *)
(* ===================================================================== *)

(* --------------------------------------------------------------------- *)
(* Python strings.  A Python [str] is modelled as a Rocq [string]; each   *)
(* [ascii] is read as the Latin-1 code point 0..255, and the character    *)
(* classes below are those of CPython's [str] methods and [re] classes    *)
(* on that range.                                                         *)
(* --------------------------------------------------------------------- *)
Module PyStr.

Definition code (c : ascii) : Z := Z.of_nat (nat_of_ascii c).

(** [str.isspace] / regex [\s]: ASCII 9..13, 28..32, NEL and NBSP. *)
Definition is_space (c : ascii) : bool :=
  let n := code c in
  ((9 <=? n) && (n <=? 13)) || ((28 <=? n) && (n <=? 32))
  || (n =? 133) || (n =? 160).

(** regex [\d] (Unicode decimal digits): only '0'..'9' in Latin-1. *)
Definition is_decimal (c : ascii) : bool :=
  let n := code c in (48 <=? n) && (n <=? 57).

(** [str.isdigit]: decimal digits and the superscripts 1, 2, 3. *)
Definition is_digit_char (c : ascii) : bool :=
  is_decimal c || (code c =? 178) || (code c =? 179) || (code c =? 185).

(** [str.isalnum] on Latin-1. *)
Definition is_alnum (c : ascii) : bool :=
  let n := code c in
  ((48 <=? n) && (n <=? 57)) || ((65 <=? n) && (n <=? 90))
  || ((97 <=? n) && (n <=? 122))
  || (n =? 170) || (n =? 178) || (n =? 179) || (n =? 181) || (n =? 185)
  || (n =? 186) || ((188 <=? n) && (n <=? 190))
  || ((192 <=? n) && (n <=? 214)) || ((216 <=? n) && (n <=? 246))
  || ((248 <=? n) && (n <=? 255)).

(** regex [\w]: alphanumeric or underscore. *)
Definition is_word (c : ascii) : bool := is_alnum c || (code c =? 95).

(** [str.lower] on one Latin-1 character. *)
Definition lower_char (c : ascii) : ascii :=
  let n := code c in
  if ((65 <=? n) && (n <=? 90)) || ((192 <=? n) && (n <=? 214))
     || ((216 <=? n) && (n <=? 222))
  then ascii_of_nat (Z.to_nat (n + 32)) else c.

Definition chars (s : string) : list ascii := list_ascii_of_string s.
Definition of_chars (l : list ascii) : string := string_of_list_ascii l.

Definition lower (s : string) : string := of_chars (map lower_char (chars s)).

Fixpoint drop_space (l : list ascii) : list ascii :=
  match l with
  | c :: r => if is_space c then drop_space r else l
  | [] => []
  end.

(** [str.strip()] *)
Definition strip (s : string) : string :=
  of_chars (rev (drop_space (rev (drop_space (chars s))))).

(** [str.split()] with no separator: runs of whitespace separate words,
    empty words are dropped. [cur] is the word being read, reversed. *)
Fixpoint split_ws_aux (l : list ascii) (cur : list ascii) : list string :=
  match l with
  | [] => match cur with [] => [] | _ => [of_chars (rev cur)] end
  | c :: r =>
      if is_space c then
        match cur with
        | [] => split_ws_aux r []
        | _ => of_chars (rev cur) :: split_ws_aux r []
        end
      else split_ws_aux r (c :: cur)
  end.

Definition split_ws (s : string) : list string := split_ws_aux (chars s) [].

(** [str.split(sep)] for a one-character separator: empty pieces kept. *)
Fixpoint split_on_aux (sep : ascii) (l : list ascii) (cur : list ascii)
  : list string :=
  match l with
  | [] => [of_chars (rev cur)]
  | c :: r =>
      if Ascii.eqb c sep then of_chars (rev cur) :: split_on_aux sep r []
      else split_on_aux sep r (c :: cur)
  end.

Definition split_on (sep : ascii) (s : string) : list string :=
  split_on_aux sep (chars s) [].

(** [str.isdigit()]: non-empty and every character a digit. *)
Definition isdigit (s : string) : bool :=
  match chars s with
  | [] => false
  | l => forallb is_digit_char l
  end.

(** [int(s)] for a string of [isdigit] characters: [None] when [int]
    raises (a superscript digit is not accepted by [int]). *)
Fixpoint int_of_digits_aux (l : list ascii) (acc : Z) : option Z :=
  match l with
  | [] => Some acc
  | c :: r =>
      if is_decimal c then int_of_digits_aux r (acc * 10 + (code c - 48))
      else None
  end.

Definition int_of_digits (s : string) : option Z :=
  int_of_digits_aux (chars s) 0.

(** [sep.join(parts)] *)
Fixpoint join (sep : string) (parts : list string) : string :=
  match parts with
  | [] => EmptyString
  | [p] => p
  | p :: r => append p (append sep (join sep r))
  end.

Fixpoint prefixb (p l : list ascii) : bool :=
  match p, l with
  | [], _ => true
  | a :: p', b :: l' => Ascii.eqb a b && prefixb p' l'
  | _ :: _, [] => false
  end.

(** [needle in haystack] for strings. *)
Fixpoint contains_aux (p l : list ascii) : bool :=
  prefixb p l || match l with [] => false | _ :: r => contains_aux p r end.

Definition contains (needle hay : string) : bool :=
  contains_aux (chars needle) (chars hay).

(** [str.count(sub)]: non-overlapping occurrences, scanning left to right;
    an empty [sub] occurs [len + 1] times. *)
Fixpoint count_aux (fuel : nat) (p l : list ascii) : nat :=
  match fuel with
  | O => O
  | S f =>
      match p with
      | [] => S (length l)
      | _ =>
          if prefixb p l then S (count_aux f p (skipn (length p) l))
          else match l with [] => O | _ :: r => count_aux f p r end
      end
  end.

Definition count (sub s : string) : nat :=
  count_aux (S (length (chars s))) (chars sub) (chars s).

End PyStr.

(* --------------------------------------------------------------------- *)
(* Python values as they flow through the program: JSON responses,      *)
(* article dictionaries.  Dictionaries are association lists in          *)
(* insertion order with string keys (the keys [json.loads] produces).    *)
(* --------------------------------------------------------------------- *)
Module Py.

Inductive pyval : Type :=
| PNone
| PBool (b : bool)
| PInt (z : Z)
| PFloat (q : Q)
| PStr (s : string)
| PList (l : list pyval)
| PDict (d : list (string * pyval)).

(** [bool(v)] *)
Definition truthy (v : pyval) : bool :=
  match v with
  | PNone => false
  | PBool b => b
  | PInt z => negb (z =? 0)
  | PFloat q => negb (Qeq_bool q 0)
  | PStr s => negb (String.eqb s EmptyString)
  | PList l => match l with [] => false | _ => true end
  | PDict d => match d with [] => false | _ => true end
  end.

Fixpoint assoc_get (k : string) (d : list (string * pyval)) : option pyval :=
  match d with
  | [] => None
  | (k', v) :: r => if String.eqb k k' then Some v else assoc_get k r
  end.

(** [d[k] = v]: an existing key keeps its position. *)
Fixpoint assoc_set (k : string) (v : pyval) (d : list (string * pyval))
  : list (string * pyval) :=
  match d with
  | [] => [(k, v)]
  | (k', v') :: r =>
      if String.eqb k k' then (k', v) :: r else (k', v') :: assoc_set k v r
  end.

(** [d.get(k, default)] *)
Definition dict_get (d : list (string * pyval)) (k : string) (dflt : pyval)
  : pyval :=
  match assoc_get k d with Some v => v | None => dflt end.

(** Python exceptions that the modelled code can raise. *)
Inductive exn : Type :=
| AttributeError (attr : string)
| ValueError
| TypeError
| KeyError
| FetchError.

(** The outcome of a Python call: a value or a raised exception. *)
Inductive outcome (A : Type) : Type :=
| Ok (a : A)
| Raise (e : exn).
Arguments Ok {A} a.
Arguments Raise {A} e.

Definition bind {A B : Type} (m : outcome A) (k : A -> outcome B) : outcome B :=
  match m with Ok a => k a | Raise e => Raise e end.

Notation "'let!' x ':=' m 'in' k" := (bind m (fun x => k))
  (at level 200, x name, m at level 100, k at level 200).

(** A method of [str] called on a value: AttributeError unless a str. *)
Definition as_str (meth : string) (v : pyval) : outcome string :=
  match v with PStr s => Ok s | _ => Raise (AttributeError meth) end.

End Py.

(* --------------------------------------------------------------------- *)
(* src/crawler/settings/sources_config.py and src/crawler/scheduler.py   *)
(* --------------------------------------------------------------------- *)
Module Scheduler.
Import Py.

(** The [SourceConfig] dataclass. *)
Record SourceConfig : Type := {
  sc_name : string;
  sc_url : string;
  sc_type : string;
  sc_category : option string;
  sc_update_interval : Z;            (* "in minutes", default 60 *)
  sc_active : bool;
  sc_id : option Z;
  sc_rss_settings : list (string * pyval);
  sc_html_settings : list (string * pyval);
  sc_api_settings : list (string * pyval)
}.

(** Attribute access [config.<attr>] on a [SourceConfig] instance: the
    dataclass fields, and [None] (AttributeError) for any other name.
    The two methods [to_dict]/[from_dict] are not data attributes and are
    not needed here. *)
Definition source_config_getattr (c : SourceConfig) (attr : string)
  : option pyval :=
  if String.eqb attr "name" then Some (PStr (sc_name c))
  else if String.eqb attr "url" then Some (PStr (sc_url c))
  else if String.eqb attr "type" then Some (PStr (sc_type c))
  else if String.eqb attr "category" then
    Some (match sc_category c with Some s => PStr s | None => PNone end)
  else if String.eqb attr "update_interval" then
    Some (PInt (sc_update_interval c))
  else if String.eqb attr "active" then Some (PBool (sc_active c))
  else if String.eqb attr "id" then
    Some (match sc_id c with Some z => PInt z | None => PNone end)
  else if String.eqb attr "rss_settings" then Some (PDict (sc_rss_settings c))
  else if String.eqb attr "html_settings" then Some (PDict (sc_html_settings c))
  else if String.eqb attr "api_settings" then Some (PDict (sc_api_settings c))
  else None.

(** The scheduling options read in [CrawlerScheduler.__init__]. *)
Record CrawlerScheduler : Type := {
  default_interval : Z;
  min_interval : Z;
  jitter : Q
}.

(** [CrawlerScheduler(config)] with [config.get(key, default)]. *)
Definition default_scheduler : CrawlerScheduler :=
  {| default_interval := 3600; min_interval := 300; jitter := 1 # 10 |}.

(** The crawl bookkeeping of the scheduler.  Keys are [source_config.id]
    ([Optional[int]]); times are [datetime]s in whole seconds. *)
Record SchedState : Type := {
  source_instances : gmap (option Z) SourceConfig;
  last_crawl_time : gmap (option Z) Z;
  next_crawl_time : gmap (option Z) Z
}.

Definition set_last (st : SchedState) (k : option Z) (t : Z) : SchedState :=
  {| source_instances := source_instances st;
     last_crawl_time := <[k := t]> (last_crawl_time st);
     next_crawl_time := next_crawl_time st |}.

Definition set_next (st : SchedState) (k : option Z) (t : Z) : SchedState :=
  {| source_instances := source_instances st;
     last_crawl_time := last_crawl_time st;
     next_crawl_time := <[k := t]> (next_crawl_time st) |}.

(** [x or d] for an attribute value and an int default. *)
Definition py_or (v : pyval) (d : Z) : pyval := if truthy v then v else PInt d.

(** [int(x)] on a float: truncation toward zero. *)
Definition py_int (q : Q) : Z :=
  if Qle_bool 0 q then Qfloor q else - Qfloor (- q).

(** The success branch of [crawl_source], lines computing [interval]:
    [interval = source.config.interval or self.default_interval],
    [interval = max(interval, self.min_interval)], then the jitter with
    [u = random.uniform(-jitter, jitter)].  Only an int interval is
    spelled out; any other value is mapped to TypeError. *)
Definition success_interval (s : CrawlerScheduler) (cfg : SourceConfig)
  (u : Q) : outcome Z :=
  match source_config_getattr cfg "interval" with
  | None => Raise (AttributeError "interval")
  | Some v =>
      match py_or v (default_interval s) with
      | PInt i =>
          let i := Z.max i (min_interval s) in
          if negb (Qle_bool (jitter s) 0) then Ok (py_int (inject_Z i * (1 + u)))
          else Ok i
      | _ => Raise TypeError
      end
  end.

(** The except branch: [min(source.config.interval or
    self.default_interval, 600)]. *)
Definition retry_interval (s : CrawlerScheduler) (cfg : SourceConfig)
  : outcome Z :=
  match source_config_getattr cfg "interval" with
  | None => Raise (AttributeError "interval")
  | Some v =>
      match py_or v (default_interval s) with
      | PInt i => Ok (Z.min i 600)
      | _ => Raise TypeError
      end
  end.

(** [CrawlerScheduler.crawl_source].  [fetch] is the outcome of
    [await source.process()]; [now_last], [now_next] and [now_retry] are
    the readings of [datetime.now()] in the order the code takes them;
    [u] is the value drawn by [random.uniform].  The error callback only
    logs, and is left out.  An exception raised in the except branch
    leaves [crawl_source] with the state reached so far. *)
Definition crawl_source (s : CrawlerScheduler) (st : SchedState)
  (source_id : option Z) (fetch : outcome (list pyval))
  (now_last now_next now_retry : Z) (u : Q)
  : outcome (list pyval) * SchedState :=
  match source_instances st !! source_id with
  | None => (Raise ValueError, st)
  | Some cfg =>
      let tried :=
        match fetch with
        | Raise e => (Raise e, st)
        | Ok articles =>
            let st1 := set_last st source_id now_last in
            match success_interval s cfg u with
            | Raise e => (Raise e, st1)
            | Ok i => (Ok articles, set_next st1 source_id (now_next + i))
            end
        end in
      match tried with
      | (Ok articles, st') => (Ok articles, st')
      | (Raise _, st') =>
          match retry_interval s cfg with
          | Raise e => (Raise e, st')
          | Ok r => (Ok [], set_next st' source_id (now_retry + r))
          end
      end
  end.

(** One iteration of [_initialize_sources] for [source_config], with
    [delay = random.randint(5, 60)]; [datetime.min] is [dt_min]. *)
Definition initialize_source (st : SchedState) (cfg : SourceConfig)
  (dt_min now delay : Z) : SchedState :=
  if String.eqb (sc_type cfg) "rss" || String.eqb (sc_type cfg) "html"
     || String.eqb (sc_type cfg) "api"
  then {| source_instances := <[sc_id cfg := cfg]> (source_instances st);
          last_crawl_time := <[sc_id cfg := dt_min]> (last_crawl_time st);
          next_crawl_time := <[sc_id cfg := now + delay]> (next_crawl_time st) |}
  else st.

Definition empty_state : SchedState :=
  {| source_instances := ∅; last_crawl_time := ∅; next_crawl_time := ∅ |}.

(** A source as in [DEFAULT_SOURCES] (update interval 30). *)
Definition bbc_config : SourceConfig :=
  {| sc_name := "BBC News"; sc_url := "http://feeds.bbci.co.uk/news/rss.xml";
     sc_type := "rss"; sc_category := Some "general";
     sc_update_interval := 30; sc_active := true; sc_id := Some 1;
     sc_rss_settings := []; sc_html_settings := []; sc_api_settings := [] |}.

End Scheduler.

(* --------------------------------------------------------------------- *)
(* src/crawler/sources/api_source.py                                     *)
(* --------------------------------------------------------------------- *)
Module ApiSource.
Import Py.

(** The pagination settings read in [APISource.__init__] from
    [api_settings["pagination"]]; [page_size] is an int (default 10). *)
Record APISource : Type := {
  page_param : pyval;
  page_size : Z;
  total_path : pyval;
  next_page_path : pyval
}.

(** A path component after [if key.isdigit(): key = int(key)]. *)
Inductive pykey : Type := KStr (s : string) | KInt (i : Z).

(** The end of a dotted-path walk: the value found, a missing component
    (the [else] branch of the loop), or an exception from [int(key)]. *)
Inductive walk_result : Type :=
| Found (v : pyval)
| Missing
| WalkRaised.

Definition to_key (k : string) : option pykey :=
  if PyStr.isdigit k then
    match PyStr.int_of_digits k with Some i => Some (KInt i) | None => None end
  else Some (KStr k).

(** One step: [isinstance(v, dict) and key in v] /
    [isinstance(v, list) and isinstance(key, int) and key < len(v)]. *)
Definition step (v : pyval) (k : pykey) : option pyval :=
  match v, k with
  | PDict d, KStr s => assoc_get s d
  | PList l, KInt i =>
      if i <? Z.of_nat (length l) then nth_error l (Z.to_nat i) else None
  | _, _ => None
  end.

Fixpoint walk (v : pyval) (keys : list string) : walk_result :=
  match keys with
  | [] => Found v
  | k :: r =>
      match to_key k with
      | None => WalkRaised
      | Some key =>
          match step v key with
          | Some v' => walk v' r
          | None => Missing
          end
      end
  end.

Definition is_dict (v : pyval) : bool :=
  match v with PDict _ => true | _ => false end.

(** [current_page < (total + page_size - 1) // page_size] inside the
    [try]; [None] when it raises (ZeroDivisionError, TypeError). *)
Definition pages_left (total : pyval) (ps current_page : Z) : option bool :=
  let int_case t :=
    if ps =? 0 then None else Some (current_page <? Z.div (t + ps - 1) ps) in
  match total with
  | PInt t => int_case t
  | PBool b => int_case (if b then 1 else 0)
  | PFloat q =>
      if ps =? 0 then None
      else Some (current_page <? Qfloor ((q + inject_Z (ps - 1)) / inject_Z ps))
  | _ => None
  end.

(** [APISource._check_has_more_pages(response_data, current_page,
    items_count)]. *)
Definition check_has_more_pages (src : APISource) (response_data : pyval)
  (current_page items_count : Z) : bool :=
  if negb (truthy (page_param src)) then false
  else if items_count =? 0 then false
  else if items_count <? page_size src then false
  else if truthy (total_path src) && is_dict response_data then
    match total_path src with
    | PStr p =>
        match walk response_data (PyStr.split_on "." p) with
        | Found total =>
            match pages_left total (page_size src) current_page with
            | Some b => b
            | None => true
            end
        | Missing => true
        | WalkRaised => true
        end
    | _ => true   (* [.split] on a non-str raises; [except: return True] *)
    end
  else if truthy (next_page_path src) && is_dict response_data then
    match next_page_path src with
    | PStr p =>
        match walk response_data (PyStr.split_on "." p) with
        | Found next_page => truthy next_page
        | Missing => false
        | WalkRaised => false
        end
    | _ => false
    end
  else page_size src <=? items_count.

End ApiSource.

(* --------------------------------------------------------------------- *)
(* The regular-expression passes of [_clean_text] (duplicate_detector.py *)
(* and classifier.py), on Latin-1 text.                                  *)
(* --------------------------------------------------------------------- *)
Module Regex.
Import PyStr.

(** The maximal run of non-space characters at the front (greedy [\S+]). *)
Fixpoint nonspace_run (l : list ascii) : list ascii * list ascii :=
  match l with
  | c :: r =>
      if is_space c then ([], l)
      else let '(a, b) := nonspace_run r in (c :: a, b)
  | [] => ([], [])
  end.

(** [re.sub(r'https?://\S+|www\.\S+', '', text)], scanning left to right.
    At each position the first alternative is tried, then the second; a
    match needs at least one non-space character after the prefix. *)
Fixpoint remove_urls_aux (fuel : nat) (l : list ascii) : list ascii :=
  match fuel with
  | O => l
  | S f =>
      match l with
      | [] => []
      | c :: r =>
          let try_prefix (p : list ascii) :=
            if prefixb p l then
              let rest := skipn (length p) l in
              match nonspace_run rest with
              | ([], _) => None
              | (_, after) => Some after
              end
            else None in
          match try_prefix (chars "https://") with
          | Some after => remove_urls_aux f after
          | None =>
            match try_prefix (chars "http://") with
            | Some after => remove_urls_aux f after
            | None =>
              match try_prefix (chars "www.") with
              | Some after => remove_urls_aux f after
              | None => c :: remove_urls_aux f r
              end
            end
          end
      end
  end.

Definition remove_urls (l : list ascii) : list ascii :=
  remove_urls_aux (length l) l.

(** After [\S+@]: some [\S+], a dot, and some [\S+]. *)
Fixpoint dot_rest (l : list ascii) : bool :=
  match l with
  | [] => false
  | c :: r =>
      (Ascii.eqb c "." && match r with [] => false | _ => true end) || dot_rest r
  end.

Definition dot_after (l : list ascii) : bool :=
  match l with [] => false | _ :: r => dot_rest r end.

Fixpoint has_at_dot (l : list ascii) : bool :=
  match l with
  | [] => false
  | c :: r => (Ascii.eqb c "@" && dot_after r) || has_at_dot r
  end.

(** A whitespace-free token matched (from its first character, hence
    whole, as the last [\S+] is greedy) by [\S+@\S+\.\S+]. *)
Definition email_like (tok : list ascii) : bool :=
  match tok with [] => false | _ :: r => has_at_dot r end.

(** [re.sub(r'\S+@\S+\.\S+', '', text)]: a token either matches from its
    first character or nowhere, and then it is removed whole. *)
Fixpoint remove_emails_aux (l : list ascii) (tok : list ascii) : list ascii :=
  match l with
  | [] => if email_like (rev tok) then [] else rev tok
  | c :: r =>
      if is_space c then
        (if email_like (rev tok) then [] else rev tok)
          ++ c :: remove_emails_aux r []
      else remove_emails_aux r (c :: tok)
  end.

Definition remove_emails (l : list ascii) : list ascii :=
  remove_emails_aux l [].

(** [re.sub(r'[^\w\s]', ' ', text)] *)
Definition special_to_space (l : list ascii) : list ascii :=
  map (fun c => if is_word c || is_space c then c else " "%char) l.

(** [re.sub(r'\d+', '', text)] *)
Definition remove_numbers (l : list ascii) : list ascii :=
  List.filter (fun c => negb (is_decimal c)) l.

(** [re.sub(r'\s+', ' ', text)] *)
Fixpoint collapse_space (l : list ascii) (in_run : bool) : list ascii :=
  match l with
  | [] => []
  | c :: r =>
      if is_space c then
        if in_run then collapse_space r true else " "%char :: collapse_space r true
      else c :: collapse_space r false
  end.

(** [_clean_text] of DuplicateDetector and Classifier (same body). *)
Definition clean_text (text : string) : string :=
  let l := map lower_char (chars text) in
  let l := remove_urls l in
  let l := remove_emails l in
  let l := special_to_space l in
  let l := remove_numbers l in
  strip (of_chars (collapse_space l false)).

End Regex.

(* --------------------------------------------------------------------- *)
(* src/processor/deduplication/duplicate_detector.py                     *)
(* --------------------------------------------------------------------- *)
Module Dedup.
Import Py.

(** The options read in [DuplicateDetector.__init__]. *)
Record DuplicateDetector : Type := {
  similarity_threshold : Q;
  title_weight : Q;
  content_weight : Q;
  use_exact_match : bool;
  use_fuzzy_match : bool;
  use_minhash : bool;
  minhash_index_set : bool       (* [self.minhash_index] is not None *)
}.

Definition default_detector : DuplicateDetector :=
  {| similarity_threshold := 8 # 10; title_weight := 6 # 10;
     content_weight := 4 # 10; use_exact_match := true;
     use_fuzzy_match := true; use_minhash := false;
     minhash_index_set := false |}.

Definition article := list (string * pyval).

(** [a < b] on floats. *)
Definition qltb (a b : Q) : bool := negb (Qle_bool b a).

(** [candidate[k]]: KeyError when absent. *)
Definition getitem (d : article) (k : string) : outcome pyval :=
  match assoc_get k d with Some v => Ok v | None => Raise KeyError end.

Definition norm (s : string) : string := PyStr.lower (PyStr.strip s).

Definition nonempty (s : string) : bool := negb (String.eqb s EmptyString).

(** One check of the loop of [_check_exact_match]: [if value and
    candidate.get(key): if value == candidate[key].strip().lower():
    return True, candidate["id"]], for [key] "title" or "url". *)
Definition exact_field (key value : string) (cand : article)
  : outcome (option pyval) :=
  if nonempty value && truthy (dict_get cand key PNone) then
    let! cv := as_str "strip" (dict_get cand key PNone) in
    if String.eqb value (norm cv) then
      let! cid := getitem cand "id" in Ok (Some cid)
    else Ok None
  else Ok None.

(** The loop of [_check_exact_match] over the candidates. *)
Fixpoint exact_loop (title url : string) (cands : list article)
  : outcome (bool * pyval) :=
  match cands with
  | [] => Ok (false, PNone)
  | cand :: rest =>
      let! by_title := exact_field "title" title cand in
      match by_title with
      | Some cid => Ok (true, cid)
      | None =>
          let! by_url := exact_field "url" url cand in
          match by_url with
          | Some cid => Ok (true, cid)
          | None => exact_loop title url rest
          end
      end
  end.

(** [DuplicateDetector._check_exact_match(article, candidates)]. *)
Definition check_exact_match (a : article) (cands : list article)
  : outcome (bool * pyval) :=
  let! t := as_str "strip" (dict_get a "title" (PStr "")) in
  let! u := as_str "strip" (dict_get a "url" (PStr "")) in
  let title := norm t in
  let url := norm u in
  if negb (nonempty title) && negb (nonempty url) then Ok (false, PNone)
  else exact_loop title url cands.

(** Python sets of words: [set(text.split())] as a duplicate-free list. *)
Fixpoint dedup (l : list string) : list string :=
  match l with
  | [] => []
  | w :: r => if existsb (String.eqb w) r then dedup r else w :: dedup r
  end.

Definition mem (w : string) (l : list string) : bool := existsb (String.eqb w) l.

(** [_calculate_text_similarity]: Jaccard similarity of the word sets of
    the cleaned texts; 0 when either is empty. *)
Definition text_similarity (text1 text2 : string) : Q :=
  let t1 := Regex.clean_text text1 in
  let t2 := Regex.clean_text text2 in
  if negb (nonempty t1) || negb (nonempty t2) then 0%Q
  else
    let words1 := dedup (PyStr.split_ws t1) in
    let words2 := dedup (PyStr.split_ws t2) in
    match words1, words2 with
    | [], _ | _, [] => 0%Q
    | _, _ =>
        let inter := length (List.filter (fun w => mem w words2) words1) in
        let union := (length words1 + length (List.filter (fun w => negb (mem w words1)) words2))%nat in
        if (union =? 0)%nat then 0%Q
        else inject_Z (Z.of_nat inter) / inject_Z (Z.of_nat union)
    end.

(** [_calculate_text_similarity] called on two values (the titles or
    the contents): [.lower()] raises unless they are strings. *)
Definition text_similarity_v (v1 v2 : pyval) : outcome Q :=
  let! s1 := as_str "lower" v1 in
  let! s2 := as_str "lower" v2 in
  Ok (text_similarity s1 s2).

(** [_calculate_similarity(title1, content1, title2, content2)]. *)
Definition calculate_similarity (det : DuplicateDetector)
  (title1 content1 title2 content2 : pyval) : outcome Q :=
  let both_t := truthy title1 && truthy title2 in
  let both_c := truthy content1 && truthy content2 in
  let! ts := if both_t then text_similarity_v title1 title2 else Ok 0%Q in
  let! cs := if both_c then text_similarity_v content1 content2 else Ok 0%Q in
  if both_t && both_c then
    Ok (ts * title_weight det + cs * content_weight det)%Q
  else if both_t then Ok ts
  else if both_c then Ok cs
  else Ok 0%Q.

(** The loop of [_check_fuzzy_match]: [(best_similarity,
    best_candidate_id)] threaded through the candidates. *)
Fixpoint fuzzy_loop (det : DuplicateDetector) (title content : pyval)
  (cands : list article) (best : Q) (best_id : pyval) : outcome (Q * pyval) :=
  match cands with
  | [] => Ok (best, best_id)
  | cand :: rest =>
      let ct := dict_get cand "title" (PStr "") in
      let cc := dict_get cand "content" (PStr "") in
      if negb (truthy ct) && negb (truthy cc) then
        fuzzy_loop det title content rest best best_id
      else
        let! sim := calculate_similarity det title content ct cc in
        if qltb (similarity_threshold det) sim && qltb best sim then
          let! cid := getitem cand "id" in
          fuzzy_loop det title content rest sim cid
        else fuzzy_loop det title content rest best best_id
  end.

(** [DuplicateDetector._check_fuzzy_match(article, candidates)]. *)
Definition check_fuzzy_match (det : DuplicateDetector) (a : article)
  (cands : list article) : outcome (bool * pyval) :=
  let title := dict_get a "title" (PStr "") in
  let content := dict_get a "content" (PStr "") in
  if negb (truthy title) && negb (truthy content) then Ok (false, PNone)
  else
    let! r := fuzzy_loop det title content cands 0%Q PNone in
    if truthy (snd r) then Ok (true, snd r) else Ok (false, PNone).

(** [DuplicateDetector._find_duplicate(article, candidates)]; the MinHash
    strategy uses the external [datasketch] library and enters as its
    outcome [minhash]. *)
Definition find_duplicate (det : DuplicateDetector) (a : article)
  (cands : list article) (minhash : outcome (bool * pyval))
  : outcome (bool * pyval) :=
  let! ex := if use_exact_match det then check_exact_match a cands
             else Ok (false, PNone) in
  if fst ex then Ok (true, snd ex)
  else
    let! mh := if use_minhash det && minhash_index_set det then minhash
               else Ok (false, PNone) in
    if fst mh then Ok (true, snd mh)
    else
      let! fz := if use_fuzzy_match det then check_fuzzy_match det a cands
                 else Ok (false, PNone) in
      if fst fz then Ok (true, snd fz) else Ok (false, PNone).

(** A stored candidate as the repository returns it: its title and url
    are strings (or empty), and it has an id. *)
Definition str_or_falsy (v : pyval) : Prop :=
  truthy v = false \/ exists s, v = PStr s.

Definition wf_candidate (c : article) : Prop :=
  str_or_falsy (dict_get c "title" PNone) /\
  str_or_falsy (dict_get c "url" PNone) /\
  exists v, assoc_get "id" c = Some v.

(** The cleaned word sets of field [key] (read as [_check_fuzzy_match]
    reads it) of two articles are disjoint. *)
Definition disjoint_field (a c : article) (key : string) : Prop :=
  forall s1 s2, dict_get a key (PStr "") = PStr s1 ->
    dict_get c key (PStr "") = PStr s2 ->
    forall w, In w (PyStr.split_ws (Regex.clean_text s1)) ->
      ~ In w (PyStr.split_ws (Regex.clean_text s2)).

End Dedup.

(* --------------------------------------------------------------------- *)
(* src/storage/database/models.py and repository.py                      *)
(* --------------------------------------------------------------------- *)
Module Analytics.

(** The tables the query reads: [articles.id], [categories(id, name)]
    and the association table [article_category(article_id,
    category_id)], one row per link. *)
Record DB : Type := {
  articles : list Z;
  categories : list (Z * string);
  article_category : list (Z * Z)
}.

(** [FROM categories JOIN article_category JOIN articles]: one row per
    link whose category and article exist, carrying [Category.name]. *)
Definition join_rows (db : DB) : list string :=
  flat_map (fun '(cid, name) =>
    map (fun _ => name)
      (List.filter (fun '(aid, c) => (c =? cid) && existsb (Z.eqb aid) (articles db))
         (article_category db)))
    (categories db).

(** [GROUP BY Category.name] with [count(Article.id)]: counts per name. *)
Fixpoint bump (n : string) (g : list (string * nat)) : list (string * nat) :=
  match g with
  | [] => [(n, 1%nat)]
  | (m, c) :: r => if String.eqb n m then (m, S c) :: r else (m, c) :: bump n r
  end.

Definition group_count (rows : list string) : list (string * nat) :=
  fold_left (fun g n => bump n g) rows [].

(** [ORDER BY count DESC], stable on ties. *)
Fixpoint insert_desc (x : string * nat) (l : list (string * nat))
  : list (string * nat) :=
  match l with
  | [] => [x]
  | y :: r => if (snd x <=? snd y)%nat then y :: insert_desc x r else x :: l
  end.

Definition sort_desc (l : list (string * nat)) : list (string * nat) :=
  fold_left (fun acc x => insert_desc x acc) l [].

(** [round(x, 2)], computed on the exact value with ties to even. *)
Definition round_half_even (q : Q) : Z :=
  let f := Qfloor q in
  let d := (q - inject_Z f)%Q in
  if Qle_bool d (1 # 2) then
    if Qeq_bool d (1 # 2) then (if Z.even f then f else f + 1) else f
  else f + 1.

Definition py_round2 (q : Q) : Q := inject_Z (round_half_even (q * 100)) / 100.

Record Entry : Type := {
  e_category : string;
  e_count : nat;
  e_percentage : Q
}.

(** [AnalyticsRepository.get_category_distribution]. *)
Definition get_category_distribution (db : DB) : list Entry :=
  let total_count := length (articles db) in
  if (total_count =? 0)%nat then []
  else
    map (fun '(name, cnt) =>
           {| e_category := name; e_count := cnt;
              e_percentage :=
                py_round2 (inject_Z (Z.of_nat cnt) / inject_Z (Z.of_nat total_count) * 100) |})
      (sort_desc (group_count (join_rows db))).

(** Referential integrity of the schema: primary keys are unique, every
    link refers to an existing article and category. *)
Definition well_formed (db : DB) : Prop :=
  NoDup (articles db) /\ NoDup (map fst (categories db)) /\
  NoDup (article_category db) /\
  (forall aid cid, In (aid, cid) (article_category db) ->
     In aid (articles db) /\ In cid (map fst (categories db))).

Definition sum_counts (l : list Entry) : nat :=
  fold_right (fun e acc => (e_count e + acc)%nat) 0%nat l.

End Analytics.

(* --------------------------------------------------------------------- *)
(* src/processor/pipeline/classifier.py                                  *)
(* --------------------------------------------------------------------- *)
Module Classifier.
Import Py.

(** The options of [Classifier.__init__] that [process] reads;
    [override_existing] is [bool(self.config.get("override_existing",
    False))]. *)
Record Classifier : Type := {
  enabled : bool;
  min_content_length : Z;
  default_category : string;
  override_existing : bool
}.

Definition default_classifier : Classifier :=
  {| enabled := true; min_content_length := 100;
     default_category := "general"; override_existing := false |}.

Definition article := list (string * pyval).

(** [len(v)]: TypeError on values without a length. *)
Definition py_len (v : pyval) : outcome Z :=
  match v with
  | PStr s => Ok (Z.of_nat (String.length s))
  | PList l => Ok (Z.of_nat (length l))
  | PDict d => Ok (Z.of_nat (length d))
  | _ => Raise TypeError
  end.

Definition set_default (cl : Classifier) (a : article) : article :=
  assoc_set "categories" (PList [PStr (default_category cl)]) a.

(** [Classifier.process(article)]; [classified] is the outcome of
    [await self._classify_article(article)].  The article dictionary is
    mutated in place and returned; the [except] branch sets the default
    category. *)
Definition process (cl : Classifier) (a : article)
  (classified : outcome (list pyval * Q)) : article :=
  if negb (enabled cl) then a
  else if truthy (dict_get a "categories" PNone) && negb (override_existing cl)
  then a
  else if negb (truthy (dict_get a "content" PNone))
          && negb (truthy (dict_get a "title" PNone))
  then set_default cl a
  else
    let too_short :=
      if truthy (dict_get a "content" PNone) then
        let! n := py_len (dict_get a "content" PNone) in
        Ok ((n <? min_content_length cl) && negb (truthy (dict_get a "title" PNone)))
      else Ok false in
    match too_short with
    | Raise _ => set_default cl a
    | Ok true => set_default cl a
    | Ok false =>
        match classified with
        | Raise _ => set_default cl a
        | Ok (cats, confidence) =>
            if truthy (PList cats) then
              let a1 := assoc_set "categories" (PList cats) a in
              let a2 := match assoc_get "metadata" a1 with
                        | None => assoc_set "metadata" (PDict []) a1
                        | Some _ => a1
                        end in
              match assoc_get "metadata" a2 with
              | Some (PDict m) =>
                  assoc_set "metadata"
                    (PDict (assoc_set "classification_confidence" (PFloat confidence) m)) a2
              | _ => set_default cl a2
              end
            else set_default cl a
        end
    end.

End Classifier.

(* --------------------------------------------------------------------- *)
(* src/processor/utils/text_utils.py                                     *)
(* --------------------------------------------------------------------- *)
Module TextUtils.
Import PyStr.

Definition is_terminator (c : ascii) : bool :=
  Ascii.eqb c "." || Ascii.eqb c "!" || Ascii.eqb c "?".

(** [re.split(r'(?<=[.!?])\s+', text)]: a maximal run of whitespace
    preceded by '.', '!' or '?' separates two pieces.  [prev] is the
    character before the current one, [in_sep] tells that a separating
    run is being consumed, [cur] is the current piece reversed. *)
Fixpoint split_sentences_aux (l : list ascii) (prev : option ascii)
  (cur : list ascii) (in_sep : bool) : list string :=
  match l with
  | [] => [of_chars (rev cur)]
  | c :: r =>
      if is_space c then
        if in_sep then split_sentences_aux r (Some c) cur true
        else
          match prev with
          | Some p =>
              if is_terminator p then
                of_chars (rev cur) :: split_sentences_aux r (Some c) [] true
              else split_sentences_aux r (Some c) (c :: cur) false
          | None => split_sentences_aux r (Some c) (c :: cur) false
          end
      else split_sentences_aux r (Some c) (c :: cur) false
  end.

Definition nonempty (s : string) : bool := negb (String.eqb s EmptyString).

(** [extract_sentences(text)] *)
Definition extract_sentences (text : string) : list string :=
  if negb (nonempty text) then []
  else
    map strip (List.filter (fun s => nonempty (strip s))
                 (split_sentences_aux (chars text) None [] false)).

(** [remove_special_chars(text)]: [re.sub(r'[^\w\s]', '', text)]. *)
Definition remove_special_chars (text : string) : string :=
  of_chars (List.filter (fun c => is_word c || is_space c) (chars text)).

(** Word counts in first-seen order ([word_counts] dict). *)
Fixpoint bump (w : string) (g : list (string * nat)) : list (string * nat) :=
  match g with
  | [] => [(w, 1%nat)]
  | (v, c) :: r => if String.eqb w v then (v, S c) :: r else (v, c) :: bump w r
  end.

(** [sorted(..., key=..., reverse=True)]: stable, descending. *)
Fixpoint insert_desc {A : Type} (le : A -> A -> bool) (x : A) (l : list A)
  : list A :=
  match l with
  | [] => [x]
  | y :: r => if le x y then y :: insert_desc le x r else x :: l
  end.

Definition sort_desc {A : Type} (le : A -> A -> bool) (l : list A) : list A :=
  fold_left (fun acc x => insert_desc le x acc) l [].

(** [xs[:n]] *)
Definition py_take {A : Type} (n : Z) (l : list A) : list A :=
  if 0 <=? n then firstn (Z.to_nat n) l
  else firstn (Z.to_nat (Z.of_nat (length l) + n)) l.

(** [extract_keywords(text, max_keywords, min_word_length)] *)
Definition extract_keywords (text : string) (max_keywords min_word_length : Z)
  : list string :=
  if negb (nonempty text) then []
  else
    let t := remove_special_chars (lower text) in
    let words := List.filter (fun w => min_word_length <=? Z.of_nat (String.length w))
                   (split_ws t) in
    let counts := fold_left (fun g w => bump w g) words [] in
    let sorted := sort_desc (fun x y => (snd x <=? snd y)%nat) counts in
    map fst (py_take max_keywords sorted).

(** The score of one sentence in [generate_summary]. *)
Definition sentence_score (keywords : list string) (sentence : string) : Q :=
  let hits := length (List.filter (fun k => contains (lower k) (lower sentence)) keywords) in
  let nwords := length (split_ws sentence) in
  if (0 <? nwords)%nat then inject_Z (Z.of_nat hits) / inject_Z (Z.of_nat nwords)
  else inject_Z (Z.of_nat hits).

Definition mem (s : string) (l : list string) : bool := existsb (String.eqb s) l.

(** [generate_summary(text, max_sentences)] *)
Definition generate_summary (text : string) (max_sentences : Z) : string :=
  if negb (nonempty text) then EmptyString
  else
    let sentences := extract_sentences text in
    match sentences with
    | [] => EmptyString
    | _ =>
      if Z.of_nat (length sentences) <=? max_sentences then join " " sentences
      else
        let keywords := extract_keywords text 20 3 in
        let scored := map (fun s => (s, sentence_score keywords s)) sentences in
        let sorted := sort_desc (fun x y => Qle_bool (snd x) (snd y)) scored in
        let top := map fst (py_take max_sentences sorted) in
        join " " (List.filter (fun s => mem s top) sentences)
    end.

End TextUtils.

(* --------------------------------------------------------------------- *)
(* src/processor/pipeline/sentiment_analyzer.py                          *)
(* --------------------------------------------------------------------- *)
Module Sentiment.
Import Py.

(** [SentimentAnalyzer._analyze_with_vader(text)]; [polarity] is the
    outcome of [self.vader_analyzer.polarity_scores(text)["compound"]]
    (the VADER library is external).  The literal [0.05] is written
    [1 # 20]. *)
Definition analyze_with_vader (polarity : outcome Q) : string * Q :=
  match polarity with
  | Raise _ => ("neutral", 0%Q)
  | Ok compound =>
      let sentiment :=
        if Qle_bool (1 # 20) compound then "positive"
        else if Qle_bool compound (- (1 # 20)) then "negative"
        else "neutral" in
      (sentiment, Qabs compound)
  end%string.

End Sentiment.

(* --------------------------------------------------------------------- *)
(* src/api/middlewares/rate_limit.py                                     *)
(* --------------------------------------------------------------------- *)
Module RateLimit.
Import Py.

(** [RateLimiter]: [self.requests] maps an IP to its timestamps
    ([time.time()] floats, as rationals). *)
Record RateLimiter : Type := {
  rate_limit : Z;
  time_window : Z;
  requests : gmap string (list Q)
}.

Definition new_limiter (limit window : Z) : RateLimiter :=
  {| rate_limit := limit; time_window := window; requests := ∅ |}.

Definition with_requests (rl : RateLimiter) (m : gmap string (list Q))
  : RateLimiter :=
  {| rate_limit := rate_limit rl; time_window := time_window rl; requests := m |}.

(** The timestamps recorded for [ip] ([[]] when the key is absent). *)
Definition history (rl : RateLimiter) (ip : string) : list Q :=
  match requests rl !! ip with Some l => l | None => [] end.

(** [current_time - ts < self.time_window] *)
Definition recent (rl : RateLimiter) (current_time ts : Q) : bool :=
  negb (Qle_bool (inject_Z (time_window rl)) (current_time - ts)).

(** [int(x)]: truncation toward zero. *)
Definition py_int (q : Q) : Z :=
  if Qle_bool 0 q then Qfloor q else - Qfloor (- q).

(** [RateLimiter.is_rate_limited(ip)] at [current_time = time.time()]:
    the result and the limiter after the call.  [min([])] raises
    ValueError (only reachable with [rate_limit <= 0]). *)
Definition is_rate_limited (rl : RateLimiter) (ip : string) (current_time : Q)
  : outcome (bool * option Z) * RateLimiter :=
  let kept := List.filter (recent rl current_time) (history rl ip) in
  let rl1 := with_requests rl (<[ip := kept]> (requests rl)) in
  if rate_limit rl <=? Z.of_nat (length kept) then
    match kept with
    | [] => (Raise ValueError, rl1)
    | t :: r =>
        let oldest_timestamp := fold_left Qmin r t in
        let retry_after :=
          py_int (inject_Z (time_window rl) - (current_time - oldest_timestamp)) in
        (Ok (true, Some (Z.max 1 retry_after)), rl1)
    end
  else (Ok (false, None), with_requests rl (<[ip := kept ++ [current_time]]> (requests rl))).

(** Successive calls for one IP at the given times. *)
Fixpoint run_calls (rl : RateLimiter) (ip : string) (times : list Q)
  : list (outcome (bool * option Z)) * RateLimiter :=
  match times with
  | [] => ([], rl)
  | t :: ts =>
      let '(r, rl1) := is_rate_limited rl ip t in
      let '(rs, rl2) := run_calls rl1 ip ts in
      (r :: rs, rl2)
  end.

End RateLimit.


(* --------------------------------------------------------------------- *)
(* src/processor/utils/text_utils.py: the remaining pure helpers.        *)
(* --------------------------------------------------------------------- *)
Module TextUtilsMore.
Import PyStr.

Definition newline : ascii := "010"%char.

(** [re.sub(r'\n+', '\n', text)] *)
Fixpoint collapse_newlines (l : list ascii) (in_run : bool) : list ascii :=
  match l with
  | [] => []
  | c :: r =>
      if Ascii.eqb c newline then
        if in_run then collapse_newlines r true else c :: collapse_newlines r true
      else c :: collapse_newlines r false
  end.

(** Leading U+0020 characters ([^ +]). *)
Fixpoint drop_sp (l : list ascii) : list ascii :=
  match l with
  | c :: r => if Ascii.eqb c " " then drop_sp r else l
  | [] => []
  end.

(** [re.sub(r'^ +| +$', '', text, flags=re.MULTILINE)] on one line: the
    run of spaces at its start and the run at its end are removed. *)
Definition strip_line (l : list ascii) : list ascii := rev (drop_sp (rev (drop_sp l))).

(** [normalize_whitespace(text)]: the three substitutions and [strip()];
    the multiline pass works line by line on the pieces between '\n'. *)
Definition normalize_whitespace (text : string) : string :=
  if negb (TextUtils.nonempty text) then EmptyString
  else
    let l := Regex.collapse_space (chars text) false in
    let l := collapse_newlines l false in
    let lines := split_on_aux newline l [] in
    strip (join (String newline EmptyString)
             (map (fun s => of_chars (strip_line (chars s))) lines)).

(** [truncate_text(text, max_length, add_ellipsis)]; [text[:max_length]]
    is Python's slice, negative bounds counting from the end. *)
Definition truncate_text (text : string) (max_length : Z) (add_ellipsis : bool)
  : string :=
  if negb (TextUtils.nonempty text) then EmptyString
  else if Z.of_nat (String.length text) <=? max_length then text
  else
    let truncated := of_chars (TextUtils.py_take max_length (chars text)) in
    if add_ellipsis then append truncated "..." else truncated.

(** A slice bound [i] of a sequence of length [len], as Python clamps it. *)
Definition py_index (len i : Z) : Z :=
  if i <? 0 then Z.max 0 (len + i) else Z.min i len.

(** [xs[i:j]] *)
Definition py_slice {A : Type} (l : list A) (i j : Z) : list A :=
  let n := Z.of_nat (length l) in
  let a := py_index n i in
  let b := py_index n j in
  firstn (Z.to_nat (b - a)) (skipn (Z.to_nat a) l).

(** [range(n)] *)
Definition py_range (n : Z) : list Z := map Z.of_nat (seq 0 (Z.to_nat n)).

(** [get_ngrams(text, n)] *)
Definition get_ngrams (text : string) (n : Z) : list string :=
  if negb (TextUtils.nonempty text) then []
  else
    let words := split_ws text in
    map (fun i => join " " (py_slice words i (i + n)))
        (py_range (Z.of_nat (length words) - n + 1)).

(** [len(a & b) / len(a | b)] for two sets given as duplicate-free
    lists, [0.0] when the union is empty. *)
Definition jaccard (w1 w2 : list string) : Q :=
  let intersection := length (List.filter (fun w => Dedup.mem w w2) w1) in
  let union := (length w1 + length (List.filter (fun w => negb (Dedup.mem w w1)) w2))%nat in
  if (union =? 0)%nat then 0%Q
  else inject_Z (Z.of_nat intersection) / inject_Z (Z.of_nat union).

(** [calculate_text_similarity(text1, text2)] *)
Definition calculate_text_similarity (text1 text2 : string) : Q :=
  if negb (TextUtils.nonempty text1) || negb (TextUtils.nonempty text2) then 0%Q
  else jaccard (Dedup.dedup (split_ws text1)) (Dedup.dedup (split_ws text2)).

(** [calculate_text_similarity_ngrams(text1, text2, n)] *)
Definition calculate_text_similarity_ngrams (text1 text2 : string) (n : Z) : Q :=
  if negb (TextUtils.nonempty text1) || negb (TextUtils.nonempty text2) then 0%Q
  else jaccard (Dedup.dedup (get_ngrams text1 n)) (Dedup.dedup (get_ngrams text2 n)).

(** The words [extract_keywords] counts: those of the lowercased text
    without special characters that are at least [min_word_length] long. *)
Definition keyword_candidates (text : string) (min_word_length : Z) : list string :=
  List.filter (fun w => min_word_length <=? Z.of_nat (String.length w))
    (split_ws (TextUtils.remove_special_chars (lower text))).

End TextUtilsMore.

(* --------------------------------------------------------------------- *)
(* src/processor/pipeline/sentiment_analyzer.py: the pipeline step.      *)
(* --------------------------------------------------------------------- *)
Module SentimentMore.
Import Py PyStr.

(** [SentimentAnalyzer._analyze_with_textblob(text, language)];
    [polarity] is the outcome of [TextBlob(text).sentiment.polarity]. *)
Definition analyze_with_textblob (polarity : outcome Q) : string * Q :=
  match polarity with
  | Raise _ => ("neutral", 0%Q)
  | Ok p =>
      let sentiment :=
        if Dedup.qltb (1 # 10) p then "positive"
        else if Dedup.qltb p (- (1 # 10)) then "negative"
        else "neutral" in
      (sentiment, Qabs p)
  end%string.

(** [SentimentAnalyzer._analyze_with_transformers(text)]; [probs_of] is
    the tokenizer, the model and the softmax together: the outcome of
    [probs = torch.softmax(logits, dim=1)[0]] on the text it is given,
    as the pair [(probs[0], probs[1])]. *)
Definition analyze_with_transformers (probs_of : string -> outcome (Q * Q))
  (text : string) : string * Q :=
  let max_length := 512%nat in
  let text := if (max_length <? length (split_ws text))%nat
              then join " " (firstn max_length (split_ws text)) else text in
  match probs_of text with
  | Raise _ => ("neutral", 0%Q)
  | Ok (p0, p1) =>
      if Dedup.qltb (6 # 10) p1 then ("positive", p1)
      else if Dedup.qltb (6 # 10) p0 then ("negative", p0)
      else ("neutral", 1 - Qabs ((p1 - (1 # 2)) * 2))
  end%string%Q.

(** The options of [SentimentAnalyzer.__init__] that [process] reads.
    [vader_ready] is [self.use_vader and self.vader_analyzer] after
    [_initialize_models], and likewise for the two other analyzers. *)
Record SentimentAnalyzer : Type := {
  sa_enabled : bool;
  sa_min_content_length : Z;
  sa_default_language : pyval;
  sa_use_title : bool;
  sa_use_content : bool;
  vader_ready : bool;
  textblob_ready : bool;
  transformers_ready : bool;
  sa_override_existing : bool
}.

(** The external analyzers, as functions of the text they are given. *)
Record Models : Type := {
  polarity_scores : string -> outcome Q;
  textblob_polarity : string -> outcome Q;
  transformers_probs : string -> outcome (Q * Q)
}.

(** [sep.join(parts)]: TypeError unless every part is a str. *)
Fixpoint py_join (sep : string) (parts : list pyval) : outcome string :=
  match parts with
  | [] => Ok EmptyString
  | [PStr p] => Ok p
  | PStr p :: r => let! s := py_join sep r in Ok (append p (append sep s))
  | _ :: _ => Raise TypeError
  end.

(** [SentimentAnalyzer._clean_text(text)] *)
Definition clean_text (text : string) : string :=
  strip (of_chars (Regex.collapse_space
                     (Regex.remove_emails (Regex.remove_urls (chars text))) false)).

(** [SentimentAnalyzer._prepare_text(article)] *)
Definition prepare_text (sa : SentimentAnalyzer) (a : list (string * pyval))
  : outcome string :=
  let title := dict_get a "title" PNone in
  let content := dict_get a "content" PNone in
  let text_parts :=
    (if sa_use_title sa && truthy title then [title; title; title] else [])
    ++ (if sa_use_content sa && truthy content then [content] else []) in
  let! text := py_join " " text_parts in
  Ok (clean_text text).

Definition is_en (v : pyval) : bool :=
  match v with PStr s => String.eqb s "en" | _ => false end.

(** The [results] list of [_analyze_sentiment], in the order VADER,
    TextBlob, Transformers (the method names only go to the log). *)
Definition sentiment_results (sa : SentimentAnalyzer) (ms : Models)
  (language : pyval) (text : string) : list (string * Q) :=
  (if vader_ready sa && is_en language
   then [Sentiment.analyze_with_vader (polarity_scores ms text)] else [])
  ++ (if textblob_ready sa
      then [analyze_with_textblob (textblob_polarity ms text)] else [])
  ++ (if transformers_ready sa
      then [analyze_with_transformers (transformers_probs ms) text] else []).

(** [SentimentAnalyzer._analyze_sentiment(article, language)]: the
    results sorted by confidence with [reverse=True] (stable), the first
    one kept. *)
Definition analyze_sentiment (sa : SentimentAnalyzer) (ms : Models)
  (a : list (string * pyval)) (language : pyval) : outcome (string * Q) :=
  let! text := prepare_text sa a in
  let results := sentiment_results sa ms language text in
  match TextUtils.sort_desc (fun x y => Qle_bool (snd x) (snd y)) results with
  | [] => Ok ("neutral"%string, 0%Q)
  | top :: _ => Ok top
  end.

(** [SentimentAnalyzer.process(article)]: the dictionary is mutated in
    place and returned, also from the [except] branch. *)
Definition process (sa : SentimentAnalyzer) (ms : Models)
  (a : list (string * pyval)) : list (string * pyval) :=
  if negb (sa_enabled sa) then a
  else if match assoc_get "sentiment" a with Some _ => true | None => false end
          && negb (sa_override_existing sa) then a
  else if negb (truthy (dict_get a "content" PNone))
          && negb (truthy (dict_get a "title" PNone)) then a
  else
    let too_short :=
      if truthy (dict_get a "content" PNone) then
        let! n := Classifier.py_len (dict_get a "content" PNone) in
        Ok ((n <? sa_min_content_length sa) && negb (truthy (dict_get a "title" PNone)))
      else Ok false in
    match too_short with
    | Raise _ => a
    | Ok true => a
    | Ok false =>
        let language := dict_get a "language" (sa_default_language sa) in
        match analyze_sentiment sa ms a language with
        | Raise _ => a
        | Ok (sentiment, confidence) =>
            let a1 := assoc_set "sentiment" (PStr sentiment) a in
            let a2 := match assoc_get "metadata" a1 with
                      | None => assoc_set "metadata" (PDict []) a1
                      | Some _ => a1
                      end in
            match assoc_get "metadata" a2 with
            | Some (PDict m) =>
                assoc_set "metadata"
                  (PDict (assoc_set "sentiment_confidence" (PFloat confidence) m)) a2
            | _ => a2    (* item assignment on a non-dict raises; caught *)
            end
        end
    end.

End SentimentMore.

(* --------------------------------------------------------------------- *)
(* src/api/middlewares/rate_limit.py: cleanup and the middleware.        *)
(* --------------------------------------------------------------------- *)
Module RateLimitMore.
Import Py RateLimit.

(** One pass of the loop body of [_cleanup_old_requests] at
    [current_time]: every entry is filtered, and deleted when empty. *)
Definition cleanup_pass (rl : RateLimiter) (current_time : Q) : RateLimiter :=
  with_requests rl
    (omap (fun timestamps =>
             match List.filter (recent rl current_time) timestamps with
             | [] => None
             | kept => Some kept
             end) (requests rl)).

(** [RateLimitMiddleware]: its limiter and [exclude_paths]. *)
Record RateLimitMiddleware : Type := {
  rate_limiter : RateLimiter;
  exclude_paths : list string
}.

(** [RateLimitMiddleware(rate_limit, time_window, exclude_paths)];
    [None] and [[]] both select the default paths. *)
Definition new_middleware (limit window : Z) (exclude : option (list string))
  : RateLimitMiddleware :=
  {| rate_limiter := new_limiter limit window;
     exclude_paths := match exclude with
                      | Some (p :: r) => p :: r
                      | _ => ["/docs"; "/redoc"; "/openapi.json"]%string
                      end |}.

(** A request: its URL path and [request.client.host], if any. *)
Record Request : Type := {
  req_path : string;
  req_client : option string
}.

(** What [__call__] does with a request: hand it to [call_next], raise
    [HTTPException(429)] with the Retry-After value, or let an
    exception of [is_rate_limited] escape. *)
Inductive Response : Type :=
| Forwarded
| TooManyRequests (retry_after : option Z)
| Raised (e : exn).

Definition client_ip (req : Request) : string :=
  match req_client req with Some h => h | None => "unknown"%string end.

Definition excluded (m : RateLimitMiddleware) (req : Request) : bool :=
  existsb (String.eqb (req_path req)) (exclude_paths m).

Definition to_response (r : outcome (bool * option Z)) : Response :=
  match r with
  | Raise e => Raised e
  | Ok (true, retry_after) => TooManyRequests retry_after
  | Ok (false, _) => Forwarded
  end.

(** [RateLimitMiddleware.__call__(request, call_next)] at time [now]. *)
Definition call (m : RateLimitMiddleware) (req : Request) (now : Q)
  : Response * RateLimitMiddleware :=
  if excluded m req then (Forwarded, m)
  else
    let '(r, rl') := is_rate_limited (rate_limiter m) (client_ip req) now in
    (to_response r, {| rate_limiter := rl'; exclude_paths := exclude_paths m |}).

(** A sequence of requests with their arrival times. *)
Fixpoint serve (m : RateLimitMiddleware) (reqs : list (Request * Q))
  : list Response * RateLimitMiddleware :=
  match reqs with
  | [] => ([], m)
  | (req, t) :: rest =>
      let '(resp, m1) := call m req t in
      let '(resps, m2) := serve m1 rest in
      (resp :: resps, m2)
  end.

End RateLimitMore.

(* --------------------------------------------------------------------- *)
(* src/crawler/scheduler.py: loading, adding, removing and updating      *)
(* sources, and the selection of the scheduling loop.                    *)
(* --------------------------------------------------------------------- *)
Module SchedulerMore.
Import Py Scheduler.

(** A call of [get_sources] (sources_config.py), declared
    [def get_sources(file_path=None)]: more than one positional
    argument, a keyword other than [file_path], or [file_path] given
    twice raises TypeError before the body runs.  [body] is what the
    body would return. *)
Definition get_sources_call (npos : nat) (kwargs : list string)
  (body : list SourceConfig) : outcome (list SourceConfig) :=
  if (1 <? npos)%nat
     || existsb (fun k => negb (String.eqb k "file_path")) kwargs
     || ((npos =? 1)%nat && existsb (String.eqb "file_path") kwargs)
  then Raise TypeError
  else Ok body.

(** The scheduler object: its crawl bookkeeping, [self.sources], the
    keys of [self.running_tasks], and [self.sources_file]. *)
Record Manager : Type := {
  m_state : SchedState;
  m_sources : list SourceConfig;
  m_running : gset (option Z);
  m_sources_file : pyval
}.

Definition with_sources (m : Manager) (s : list SourceConfig) : Manager :=
  {| m_state := m_state m; m_sources := s; m_running := m_running m;
     m_sources_file := m_sources_file m |}.

(** [_load_sources()]: [get_sources(self.sources_file,
    self.use_default_sources)]; [from_file] is what the body of
    [get_sources] would return. *)
Definition load_sources (m : Manager) (from_file : list SourceConfig) : Manager :=
  match get_sources_call 2 [] from_file with
  | Ok s => with_sources m s
  | Raise _ => with_sources m []
  end.

(** The save step of [add_source] and [remove_source]:
    [get_sources(self.sources_file, self.use_default_sources,
    save=True, sources=self.sources)], when [self.sources_file] is set. *)
Definition save_sources (m : Manager) : outcome unit :=
  if truthy (m_sources_file m) then
    let! _ := get_sources_call 2 ["save"; "sources"]%string (m_sources m) in Ok tt
  else Ok tt.

Definition known_type (cfg : SourceConfig) : bool :=
  String.eqb (sc_type cfg) "rss" || String.eqb (sc_type cfg) "html"
  || String.eqb (sc_type cfg) "api".

(** [add_source(source_config)] at [datetime.now() = now];
    [construct] is the outcome of the source class's constructor. *)
Definition add_source (m : Manager) (cfg : SourceConfig) (dt_min now : Z)
  (construct : outcome unit) : bool * Manager :=
  match source_instances (m_state m) !! sc_id cfg with
  | Some _ => (false, m)
  | None =>
      if negb (known_type cfg) then (false, m)
      else
        match construct with
        | Raise _ => (false, m)
        | Ok _ =>
            let st := m_state m in
            let m1 :=
              {| m_state :=
                   {| source_instances := <[sc_id cfg := cfg]> (source_instances st);
                      last_crawl_time := <[sc_id cfg := dt_min]> (last_crawl_time st);
                      next_crawl_time := <[sc_id cfg := now]> (next_crawl_time st) |};
                 m_sources := m_sources m ++ [cfg];
                 m_running := m_running m;
                 m_sources_file := m_sources_file m |} in
            match save_sources m1 with
            | Ok _ => (true, m1)
            | Raise _ => (false, m1)
            end
        end
  end.

Definition id_eqb (a b : option Z) : bool :=
  match a, b with
  | Some x, Some y => x =? y
  | None, None => true
  | _, _ => false
  end.

(** [remove_source(source_id)]; a running task is cancelled and dropped. *)
Definition remove_source (m : Manager) (source_id : option Z) : bool * Manager :=
  match source_instances (m_state m) !! source_id with
  | None => (false, m)
  | Some _ =>
      let st := m_state m in
      let m1 :=
        {| m_state :=
             {| source_instances := delete source_id (source_instances st);
                last_crawl_time := delete source_id (last_crawl_time st);
                next_crawl_time := delete source_id (next_crawl_time st) |};
           m_sources := List.filter (fun s => negb (id_eqb (sc_id s) source_id)) (m_sources m);
           m_running := m_running m ∖ {[ source_id ]};
           m_sources_file := m_sources_file m |} in
      match save_sources m1 with
      | Ok _ => (true, m1)
      | Raise _ => (false, m1)
      end
  end.

(** [update_source(source_config)]: [remove_source] (its result is not
    looked at) followed by [add_source]. *)
Definition update_source (m : Manager) (cfg : SourceConfig) (dt_min now : Z)
  (construct : outcome unit) : bool * Manager :=
  match source_instances (m_state m) !! sc_id cfg with
  | None => (false, m)
  | Some _ =>
      let '(_, m1) := remove_source m (sc_id cfg) in
      add_source m1 cfg dt_min now construct
  end.

(** The [sources_to_crawl] of one iteration of [_scheduling_loop]. *)
Definition sources_to_crawl (st : SchedState) (running : gset (option Z)) (now : Z)
  : list (option Z) :=
  map fst (List.filter (fun kt => (snd kt <=? now) && negb (bool_decide (fst kt ∈ running)))
             (map_to_list (next_crawl_time st))).

End SchedulerMore.

(* --------------------------------------------------------------------- *)
(* src/processor/pipeline/classifier.py: keyword classification.         *)
(* --------------------------------------------------------------------- *)
Module ClassifierMore.
Import Py PyStr.

(** The score of one category in [_classify_with_keywords]: the
    occurrences of its keywords (lowercased) in the text, divided by the
    number of keywords when there are any. *)
Definition keyword_score (text : string) (keywords : list string) : Q :=
  let score := fold_left (fun s k => (s + Z.of_nat (count (lower k) text))%Z) keywords 0%Z in
  match keywords with
  | [] => inject_Z score
  | _ => inject_Z score / inject_Z (Z.of_nat (length keywords))
  end.

(** [d[k] = v] on the [category_scores] dictionary. *)
Fixpoint qassoc_set (k : string) (v : Q) (d : list (string * Q)) : list (string * Q) :=
  match d with
  | [] => [(k, v)]
  | (k', v') :: r => if String.eqb k k' then (k', v) :: r else (k', v') :: qassoc_set k v r
  end.

(** [category_scores[category] *= 1.5] when [category in category_scores]. *)
Fixpoint boost (c : string) (d : list (string * Q)) : list (string * Q) :=
  match d with
  | [] => []
  | (k, v) :: r => if String.eqb c k then (k, v * (3 # 2))%Q :: r else (k, v) :: boost c r
  end.

(** Iterating [metadata_categories] and boosting: str items are looked
    up, other hashable items are never keys, lists and dicts are not
    hashable. *)
Fixpoint boost_all (cats : list pyval) (d : list (string * Q)) : outcome (list (string * Q)) :=
  match cats with
  | [] => Ok d
  | PStr c :: r => boost_all r (boost c d)
  | (PList _ | PDict _) :: _ => Raise TypeError
  | _ :: r => boost_all r d
  end.

(** [for category in metadata_categories]: a list, the one-character
    strings of a str, the keys of a dict; other values are not iterable. *)
Definition iter_values (v : pyval) : outcome (list pyval) :=
  match v with
  | PList l => Ok l
  | PStr s => Ok (map (fun c => PStr (String c EmptyString)) (chars s))
  | PDict d => Ok (map (fun kv => PStr (fst kv)) d)
  | _ => Raise TypeError
  end.

(** The scores after the metadata boost. *)
Definition boosted_scores (category_keywords : list (string * list string))
  (text : string) (a : list (string * pyval)) : outcome (list (string * Q)) :=
  let category_scores :=
    fold_left (fun d ck => qassoc_set (fst ck) (keyword_score text (snd ck)) d)
      category_keywords [] in
  let metadata := dict_get a "metadata" PNone in
  if truthy metadata then
    match metadata with
    | PDict m =>
        let cats := dict_get m "categories" PNone in
        if truthy cats then
          let! items := iter_values cats in boost_all items category_scores
        else Ok category_scores
    | _ => Raise (AttributeError "get")
    end
  else Ok category_scores.

(** [Classifier._classify_with_keywords(text, article)] *)
Definition classify_with_keywords (category_keywords : list (string * list string))
  (text : string) (a : list (string * pyval)) : outcome (list string * Q) :=
  let! category_scores := boosted_scores category_keywords text a in
  match TextUtils.sort_desc (fun x y => Qle_bool (snd x) (snd y)) category_scores with
  | [] => Ok ([], 0%Q)
  | ((top_category, top_score) :: _) as sorted_categories =>
      if Qeq_bool top_score 0 then Ok ([], 0%Q)
      else
        let threshold := (top_score * (8 # 10))%Q in
        let top_categories :=
          map fst (List.filter (fun cs => Qle_bool threshold (snd cs)) sorted_categories) in
        Ok (top_categories, Qmin top_score 1)
  end.

End ClassifierMore.

(* --------------------------------------------------------------------- *)
(* src/crawler/sources/api_source.py: fetching, field extraction and     *)
(* response parsing.                                                     *)
(* --------------------------------------------------------------------- *)
Module ApiSourceMore.
Import Py ApiSource.

(** [APISource.fetch()]; [fetch_page p] is the result of
    [await self._fetch_page(p)] (which catches every exception itself).
    Besides the articles, the pages requested are returned, in order.
    The loop test [has_more] is always true at the loop head (a false
    [has_more] breaks out first), so only [current_page <= max_pages] is
    tested; after [k] rounds [current_page = k + 1], hence the fuel
    [max_pages] runs out exactly when that test fails. *)
Fixpoint fetch_loop (fuel : nat) (src : APISource) (max_pages : Z)
  (fetch_page : Z -> list pyval * bool) (current_page : Z)
  (articles : list pyval) (pages : list Z) : list pyval * list Z :=
  match fuel with
  | O => (articles, pages)
  | S f =>
      if current_page <=? max_pages then
        let '(page_articles, has_more) := fetch_page current_page in
        let articles := articles ++ page_articles in
        let pages := pages ++ [current_page] in
        if negb has_more || negb (truthy (page_param src)) then (articles, pages)
        else fetch_loop f src max_pages fetch_page (current_page + 1) articles pages
      else (articles, pages)
  end.

Definition fetch (src : APISource) (max_pages : Z) (fetch_page : Z -> list pyval * bool)
  : list pyval * list Z :=
  fetch_loop (Z.to_nat max_pages) src max_pages fetch_page 1 [] [].

(** [APISource._extract_field(item, field_path)]: the walk of the
    dotted path; a missing component, an [int(key)] failure or a
    non-str path (no [.split]) all give [None]. *)
Definition extract_field (item field_path : pyval) : pyval :=
  if negb (truthy field_path) then PNone
  else
    match field_path with
    | PStr p =>
        match walk item (PyStr.split_on "." p) with
        | Found v => v
        | _ => PNone
        end
    | _ => PNone
    end.

(** The settings [_parse_json_response] and [_map_article_fields] read. *)
Record APIParser : Type := {
  api_name : string;
  articles_path : pyval;
  mapping : pyval;
  api_language : option pyval     (* [api_settings["language"]], if present *)
}.

Definition default_mapping : list (string * pyval) :=
  [("title", PStr "title"); ("url", PStr "url"); ("content", PStr "content");
   ("summary", PStr "summary"); ("published_at", PStr "publishedAt");
   ("author", PStr "author"); ("image_url", PStr "imageUrl");
   ("categories", PStr "categories")]%string.

(** [mapping.get(key, default)]: AttributeError unless a dict. *)
Definition mapping_get (m : pyval) (key dflt : string) : outcome pyval :=
  match m with
  | PDict d => Ok (dict_get d key (PStr dflt))
  | _ => Raise (AttributeError "get")
  end.

Section Mapping.
(** [dt.isoformat()] of the parsed date ([datetime.fromtimestamp] for a
    number, [date_parser.parse] otherwise), or its exception; and
    [str(v)] for the values that are neither str nor list. *)
Variable parse_date : pyval -> outcome string.
Variable py_str : pyval -> string.

(** [APISource._map_article_fields(item)] *)
Definition map_article_fields (p : APIParser) (item : pyval) : option (list (string * pyval)) :=
  let body :=
    let m := if truthy (mapping p) then mapping p else PDict default_mapping in
    let! title_path := mapping_get m "title" "title" in
    let title := extract_field item title_path in
    if negb (truthy title) then Ok None else
    let! url_path := mapping_get m "url" "url" in
    let url := extract_field item url_path in
    if negb (truthy url) then Ok None else
    let! content_path := mapping_get m "content" "content" in
    let content := extract_field item content_path in
    let! summary_path := mapping_get m "summary" "summary" in
    let summary := extract_field item summary_path in
    let! date_path := mapping_get m "published_at" "publishedAt" in
    let published_at := extract_field item date_path in
    let published :=
      if truthy published_at then
        match parse_date published_at with Ok s => PStr s | Raise _ => PNone end
      else PNone in
    let! author_path := mapping_get m "author" "author" in
    let author := extract_field item author_path in
    let! image_path := mapping_get m "image_url" "imageUrl" in
    let image_url := extract_field item image_path in
    let! categories_path := mapping_get m "categories" "categories" in
    let categories := extract_field item categories_path in
    let cats :=
      if truthy categories then
        match categories with
        | PList l => PList l
        | PStr s => PList (map (fun c => PStr (PyStr.strip c)) (PyStr.split_on "," s))
        | v => PList [PStr (py_str v)]
        end
      else PList [] in
    Ok (Some ([("title", title); ("url", url); ("content", content);
               ("summary", summary); ("published_at", published);
               ("author", author); ("image_url", image_url);
               ("categories", cats); ("source", PStr (api_name p))]
              ++ match api_language p with
                 | Some l => [("language", l)]
                 | None => []
                 end)) in
  match body with Ok r => r | Raise _ => None end.

(** [APISource._parse_json_response(response_data)] *)
Definition parse_json_response (p : APIParser) (response_data : pyval)
  : list (list (string * pyval)) :=
  let articles_data :=
    if truthy (articles_path p) then
      match articles_path p with
      | PStr ap =>
          match walk response_data (PyStr.split_on "." ap) with
          | Found v => Some v
          | _ => None
          end
      | _ => None
      end
    else Some response_data in
  match articles_data with
  | None => []
  | Some ad =>
      let items := match ad with
                   | PList l => Some l
                   | PDict d => Some [PDict d]
                   | _ => None
                   end in
      match items with
      | None => []
      | Some items =>
          flat_map (fun item => match map_article_fields p item with
                                | Some a => [a]
                                | None => []
                                end) items
      end
  end.
End Mapping.

End ApiSourceMore.

(* ===================================================================== *)
(* Part II. Properties                                                   *)
(* ===================================================================== *)

Module SchedulerFacts.
Import Py Scheduler.

Lemma source_config_has_no_interval (cfg : SourceConfig) :
  source_config_getattr cfg "interval" = None.
Proof. reflexivity. Qed.

(** Claim C1: after a successful [source.process()], [crawl_source]
    never reaches the jitter computation: reading
    [source.config.interval] raises AttributeError, the retry branch
    raises the same error, and the exception leaves [crawl_source] with
    only [last_crawl_time] updated; [next_crawl_time] is not recorded. *)
Theorem crawl_source_success_raises (s : CrawlerScheduler) (st : SchedState)
  (sid : option Z) (cfg : SourceConfig) (articles : list pyval)
  (now_last now_next now_retry : Z) (u : Q) :
  source_instances st !! sid = Some cfg ->
  crawl_source s st sid (Ok articles) now_last now_next now_retry u
    = (Raise (AttributeError "interval"), set_last st sid now_last)
  /\ next_crawl_time (snd (crawl_source s st sid (Ok articles)
                             now_last now_next now_retry u))
     = next_crawl_time st.
Proof.
  intros Hsrc. unfold crawl_source. rewrite Hsrc. cbn. split; reflexivity.
Qed.

Lemma crawl_source_success_raises_witness :
  let st := initialize_source empty_state bbc_config 0 1000 60 in
  source_instances st !! Some 1 = Some bbc_config
  /\ crawl_source default_scheduler st (Some 1) (Ok []) 1010 1010 1010 0
     = (Raise (AttributeError "interval"), set_last st (Some 1) 1010)
  /\ next_crawl_time (snd (crawl_source default_scheduler st (Some 1) (Ok [])
                             1010 1010 1010 0)) = next_crawl_time st.
Proof.
  cbv zeta.
  assert (H : source_instances (initialize_source empty_state bbc_config 0 1000 60)
                !! Some 1 = Some bbc_config) by reflexivity.
  split; [exact H|].
  exact (crawl_source_success_raises default_scheduler _ (Some 1) bbc_config []
           1010 1010 1010 0 H).
Defined.

(** Claim C2: when [source.process()] raises, the except branch raises
    AttributeError on [source.config.interval] before the retry time is
    computed, so [crawl_source] raises and leaves the state unchanged: no
    retry time is written to [next_crawl_time]. *)
Theorem crawl_source_failure_not_rescheduled (s : CrawlerScheduler)
  (st : SchedState) (sid : option Z) (cfg : SourceConfig) (e : exn)
  (now_last now_next now_retry : Z) (u : Q) :
  source_instances st !! sid = Some cfg ->
  crawl_source s st sid (Raise e) now_last now_next now_retry u
    = (Raise (AttributeError "interval"), st).
Proof.
  intros Hsrc. unfold crawl_source. rewrite Hsrc. reflexivity.
Qed.

(** A source initialised with delay 60 at time 1000 whose first crawl,
    at 1000, fails: [next_crawl_time] stays at 1060, later than
    [1000 + min(30, 600)]. *)
Lemma crawl_source_failure_not_rescheduled_witness :
  let st := initialize_source empty_state bbc_config 0 1000 60 in
  crawl_source default_scheduler st (Some 1) (Raise FetchError) 1000 1000 1000 0
    = (Raise (AttributeError "interval"), st)
  /\ next_crawl_time st !! Some 1 = Some 1060
  /\ 1000 + Z.min (sc_update_interval bbc_config) 600 < 1060.
Proof.
  cbv zeta. split.
  - apply (crawl_source_failure_not_rescheduled default_scheduler _ (Some 1)
             bbc_config FetchError 1000 1000 1000 0). reflexivity.
  - split; [reflexivity | cbn; lia].
Defined.

End SchedulerFacts.

Module ApiSourceFacts.
Import Py ApiSource.

Lemma div_full_page (ps : Z) : 0 < ps -> (ps + ps - 1) / ps = 1.
Proof. intros H. symmetry. apply Z.div_unique with (r := ps - 1); lia. Qed.

(** Claim C3 (as amended): with pagination configured ([page_param]
    set), [page_size >= 0], a dict response and a non-empty str
    [total_path] that resolves in it to the int [page_size], a full page
    ([items_count = page_size]) fetched as page [current_page >= 1] (the
    pages [fetch] requests start at 1) reports no further pages; and any
    page with [0 < items_count < page_size] reports no further pages,
    whatever [total_path] is. *)
Theorem check_has_more_pages_stops
  : (forall (src : APISource) (response_data : pyval) (current_page : Z)
            (p : string),
        truthy (page_param src) = true ->
        1 <= current_page ->
        0 <= page_size src ->
        total_path src = PStr p -> p <> EmptyString ->
        is_dict response_data = true ->
        walk response_data (PyStr.split_on "." p) = Found (PInt (page_size src)) ->
        check_has_more_pages src response_data current_page (page_size src) = false)
    /\ (forall (src : APISource) (response_data : pyval) (current_page items_count : Z),
        0 < items_count < page_size src ->
        check_has_more_pages src response_data current_page items_count = false).
Proof.
  split.
  - intros src resp cp p Hpp Hcp Hps Htp Hp Hd Hw.
    unfold check_has_more_pages. rewrite Hpp. cbn [negb].
    destruct (Z.eqb_spec (page_size src) 0) as [H0|H0]; [reflexivity|].
    rewrite Z.ltb_irrefl.
    rewrite Htp, Hd. cbn [truthy].
    destruct (String.eqb_spec p EmptyString) as [E|E]; [contradiction|].
    cbn [negb andb]. rewrite Hw. unfold pages_left.
    destruct (Z.eqb_spec (page_size src) 0) as [E0|_]; [contradiction|].
    rewrite div_full_page by lia. apply Z.ltb_ge. lia.
  - intros src resp cp n [Hn Hlt].
    unfold check_has_more_pages.
    destruct (truthy (page_param src)); cbn [negb]; [|reflexivity].
    destruct (Z.eqb_spec n 0) as [E|E]; [reflexivity|].
    apply Z.ltb_lt in Hlt. rewrite Hlt. reflexivity.
Qed.

Definition paged_source : APISource :=
  {| page_param := PStr "page"; page_size := 10;
     total_path := PStr "meta.total"; next_page_path := PNone |}.

Definition full_response : pyval :=
  PDict [("articles", PList []); ("meta", PDict [("total", PInt 10)])].

Lemma check_has_more_pages_stops_witness :
  check_has_more_pages paged_source full_response 1 10 = false
  /\ check_has_more_pages paged_source full_response 1 7 = false.
Proof.
  split.
  - apply (proj1 check_has_more_pages_stops paged_source full_response 1 "meta.total");
      try reflexivity; try lia; discriminate.
  - apply (proj2 check_has_more_pages_stops); cbn; lia.
Defined.

(** A source whose total lives at the top of a list response: the path
    "0" picks the first element of the list. *)
Definition list_total_source : APISource :=
  {| page_param := PStr "page"; page_size := 10;
     total_path := PStr "0"; next_page_path := PNone |}.

Definition list_response : pyval := PList [PInt 10].

(** The same total sent as a JSON string, ["total": "10"]. *)
Definition string_total_response : pyval :=
  PDict [("articles", PList []); ("meta", PDict [("total", PStr "10")])].

(** A full page whose total_path resolves to exactly page_size, and yet
    [_check_has_more_pages] reports more pages: (1) in a list response the
    [isinstance(response_data, dict)] guard skips the total_path branch
    and the final [items_count >= self.page_size] answers True; (2) a
    total that is the string "10" makes [total + self.page_size - 1]
    raise TypeError, and the bare [except] answers True. *)
Lemma check_has_more_pages_list_counterexample :
  walk list_response (PyStr.split_on "." "0") = Found (PInt 10)
  /\ check_has_more_pages list_total_source list_response 1 10 = true
  /\ walk string_total_response (PyStr.split_on "." "meta.total") = Found (PStr "10")
  /\ check_has_more_pages paged_source string_total_response 1 10 = true.
Proof. vm_compute. repeat split. Qed.

End ApiSourceFacts.

Module DedupFacts.
Import Py Dedup.

Lemma norm_empty : norm "" = "".
Proof. reflexivity. Qed.

Lemma exact_field_cases (key value : string) (c : article) :
  str_or_falsy (dict_get c key PNone) ->
  (exists v, assoc_get "id" c = Some v) ->
  exact_field key value c = Ok None
  \/ exists v, exact_field key value c = Ok (Some v) /\ assoc_get "id" c = Some v.
Proof.
  intros Hs [v Hid]. unfold exact_field.
  destruct (nonempty value); cbn [andb]; [|left; reflexivity].
  destruct Hs as [Hf | [s Hs]].
  - rewrite Hf. left. reflexivity.
  - rewrite Hs. destruct (truthy (PStr s)); [|left; reflexivity].
    cbn [as_str bind]. destruct (String.eqb value (norm s)); [|left; reflexivity].
    unfold getitem. rewrite Hid. right. exists v. split; reflexivity.
Qed.

Lemma exact_field_hit (key value s : string) (c : article) (v : pyval) :
  nonempty value = true ->
  dict_get c key PNone = PStr s -> norm s = value ->
  assoc_get "id" c = Some v ->
  exact_field key value c = Ok (Some v).
Proof.
  intros Hne Hs Hn Hid. unfold exact_field. rewrite Hne, Hs.
  assert (Ht : truthy (PStr s) = true).
  { cbn. destruct (String.eqb_spec s "") as [E|E]; [|reflexivity].
    subst s. rewrite norm_empty in Hn. subst value. discriminate. }
  rewrite Ht. cbn [andb as_str bind].
  rewrite Hn, String.eqb_refl. unfold getitem. rewrite Hid. reflexivity.
Qed.

Lemma exact_loop_first (title url : string) (cands : list article)
  (cand : article) (ct : string) :
  nonempty title = true -> In cand cands -> Forall wf_candidate cands ->
  dict_get cand "title" PNone = PStr ct -> norm ct = title ->
  exists pre c' post v, cands = pre ++ c' :: post
    /\ Forall (fun c => exact_field "title" title c = Ok None
                        /\ exact_field "url" url c = Ok None) pre
    /\ (exact_field "title" title c' = Ok (Some v)
        \/ exact_field "url" url c' = Ok (Some v))
    /\ assoc_get "id" c' = Some v
    /\ exact_loop title url cands = Ok (true, v).
Proof.
  intros Hne. induction cands as [|c rest IH]; intros Hin Hwf Hct Hn.
  - destruct Hin.
  - apply Forall_cons_iff in Hwf as [Hc Hrest].
    destruct Hc as [Ht [Hu Hid]].
    cbn [exact_loop].
    destruct (exact_field_cases "title" title c Ht Hid) as [E | [v [E Hv]]].
    + rewrite E. cbn [bind].
      destruct Hin as [-> | Hin].
      * destruct Hid as [v Hv].
        rewrite (exact_field_hit "title" title ct cand v Hne Hct Hn Hv) in E.
        discriminate.
      * destruct (exact_field_cases "url" url c Hu Hid) as [E' | [v [E' Hv]]].
        -- rewrite E'. cbn [bind].
           destruct (IH Hin Hrest Hct Hn)
             as [pre [c' [post [v [Hs [Hpre [Hm [Hv Hl]]]]]]]].
           exists (c :: pre), c', post, v.
           split; [rewrite Hs; reflexivity|]. split; [constructor; [split; assumption | exact Hpre]|].
           split; [exact Hm|]. split; assumption.
        -- rewrite E'. cbn [bind]. exists [], c, rest, v.
           split; [reflexivity|]. split; [constructor|].
           split; [right; exact E'|]. split; [assumption | reflexivity].
    + rewrite E. cbn [bind]. exists [], c, rest, v.
      split; [reflexivity|]. split; [constructor|].
      split; [left; exact E|]. split; [assumption | reflexivity].
Qed.

Lemma mem_In (w : string) (l : list string) : mem w l = true <-> In w l.
Proof.
  unfold mem. rewrite existsb_exists. split.
  - intros [x [Hx E]]. apply String.eqb_eq in E. subst. exact Hx.
  - intros H. exists w. split; [exact H | apply String.eqb_refl].
Qed.

Lemma In_dedup (w : string) (l : list string) : In w (dedup l) <-> In w l.
Proof.
  induction l as [|x r IH]; cbn; [tauto|].
  destruct (existsb (String.eqb x) r) eqn:E.
  - rewrite IH. split; [tauto|]. intros [-> | H]; [|exact H].
    apply existsb_exists in E. destruct E as [y [Hy Ey]].
    apply String.eqb_eq in Ey. subst. exact Hy.
  - cbn. rewrite IH. tauto.
Qed.

Lemma filter_mem_disjoint (w1 w2 : list string) :
  (forall w, In w w1 -> ~ In w w2) ->
  List.filter (fun w => mem w w2) w1 = [].
Proof.
  intros H. induction w1 as [|x r IH]; [reflexivity|].
  cbn. destruct (mem x w2) eqn:E.
  - apply mem_In in E. exfalso. exact (H x (or_introl eq_refl) E).
  - apply IH. intros w Hw. apply H. right. exact Hw.
Qed.

Lemma text_similarity_disjoint (s1 s2 : string) :
  (forall w, In w (PyStr.split_ws (Regex.clean_text s1)) ->
     ~ In w (PyStr.split_ws (Regex.clean_text s2))) ->
  text_similarity s1 s2 == 0.
Proof.
  intros H. unfold text_similarity.
  destruct (negb (nonempty (Regex.clean_text s1))
            || negb (nonempty (Regex.clean_text s2))); [reflexivity|].
  rewrite (filter_mem_disjoint (dedup (PyStr.split_ws (Regex.clean_text s1)))
             (dedup (PyStr.split_ws (Regex.clean_text s2)))).
  - destruct (dedup (PyStr.split_ws (Regex.clean_text s1)));
      destruct (dedup (PyStr.split_ws (Regex.clean_text s2))); try reflexivity.
  - intros w Hw Hw2. rewrite In_dedup in Hw, Hw2. exact (H w Hw Hw2).
Qed.

Lemma text_similarity_v_disjoint (a c : article) (key : string) (q : Q) :
  disjoint_field a c key ->
  text_similarity_v (dict_get a key (PStr "")) (dict_get c key (PStr "")) = Ok q ->
  q == 0.
Proof.
  intros Hd. unfold text_similarity_v.
  destruct (dict_get a key (PStr "")) eqn:E1; cbn [as_str bind]; try discriminate.
  destruct (dict_get c key (PStr "")) eqn:E2; cbn [as_str bind]; try discriminate.
  intros Hq. injection Hq as <-.
  apply text_similarity_disjoint. exact (Hd s s0 E1 E2).
Qed.

Lemma calculate_similarity_disjoint (det : DuplicateDetector) (a c : article)
  (q : Q) :
  disjoint_field a c "title" -> disjoint_field a c "content" ->
  calculate_similarity det (dict_get a "title" (PStr "")) (dict_get a "content" (PStr ""))
    (dict_get c "title" (PStr "")) (dict_get c "content" (PStr "")) = Ok q ->
  q == 0.
Proof.
  intros Ht Hc. unfold calculate_similarity.
  destruct (truthy (dict_get a "title" (PStr "")) && truthy (dict_get c "title" (PStr "")));
  destruct (truthy (dict_get a "content" (PStr "")) && truthy (dict_get c "content" (PStr "")));
    cbn [bind andb].
  - destruct (text_similarity_v (dict_get a "title" (PStr "")) (dict_get c "title" (PStr "")))
      as [ts|] eqn:Ets; cbn [bind]; [|discriminate].
    destruct (text_similarity_v (dict_get a "content" (PStr "")) (dict_get c "content" (PStr "")))
      as [cs|] eqn:Ecs; cbn [bind]; [|discriminate].
    intros Hq. injection Hq as <-.
    rewrite (text_similarity_v_disjoint a c "title" ts Ht Ets).
    rewrite (text_similarity_v_disjoint a c "content" cs Hc Ecs).
    rewrite !Qmult_0_l. reflexivity.
  - destruct (text_similarity_v (dict_get a "title" (PStr "")) (dict_get c "title" (PStr "")))
      as [ts|] eqn:Ets; cbn [bind]; [|discriminate].
    intros Hq. injection Hq as <-.
    exact (text_similarity_v_disjoint a c "title" ts Ht Ets).
  - destruct (text_similarity_v (dict_get a "content" (PStr "")) (dict_get c "content" (PStr "")))
      as [cs|] eqn:Ecs; cbn [bind]; [|discriminate].
    intros Hq. injection Hq as <-.
    exact (text_similarity_v_disjoint a c "content" cs Hc Ecs).
  - intros Hq. injection Hq as <-. reflexivity.
Qed.

Lemma fuzzy_loop_no_hit (det : DuplicateDetector) (a : article)
  (cands : list article) (best : Q) :
  best == 0 ->
  (forall c, In c cands -> disjoint_field a c "title" /\ disjoint_field a c "content") ->
  (exists e, fuzzy_loop det (dict_get a "title" (PStr "")) (dict_get a "content" (PStr ""))
               cands best PNone = Raise e)
  \/ (exists b, fuzzy_loop det (dict_get a "title" (PStr "")) (dict_get a "content" (PStr ""))
                 cands best PNone = Ok (b, PNone)).
Proof.
  intros Hb. induction cands as [|c rest IH]; intros Hall.
  - right. exists best. reflexivity.
  - cbn [fuzzy_loop].
    assert (IH' := IH (fun c' Hc' => Hall c' (or_intror Hc'))).
    destruct (negb (truthy (dict_get c "title" (PStr "")))
              && negb (truthy (dict_get c "content" (PStr "")))); [exact IH'|].
    destruct (calculate_similarity det (dict_get a "title" (PStr ""))
                (dict_get a "content" (PStr "")) (dict_get c "title" (PStr ""))
                (dict_get c "content" (PStr ""))) as [sim|e] eqn:Es;
      cbn [bind]; [|left; exists e; reflexivity].
    destruct (Hall c (or_introl eq_refl)) as [Ht Hc].
    assert (Hs := calculate_similarity_disjoint det a c sim Ht Hc Es).
    assert (Hlt : qltb best sim = false).
    { unfold qltb. apply negb_false_iff. apply Qle_bool_iff.
      rewrite Hs, Hb. apply Qle_refl. }
    rewrite Hlt, andb_false_r. exact IH'.
Qed.

(** Claim C4 (as amended): (1) an incoming article whose title and url
    are strings, with a title non-empty after [strip()], facing stored
    candidates (string or empty titles and urls, each with an id) among
    which one has a title equal after [strip().lower()], is flagged a
    duplicate by the exact-match strategy, of the first candidate in list
    order that matches by title or url; with [use_exact_match] on,
    [_find_duplicate] returns that flag whatever the fuzzy and MinHash
    settings; (2) if every candidate's cleaned title and content word
    sets are disjoint from the article's, the fuzzy strategy reports no
    duplicate. *)
Theorem exact_and_fuzzy_match
  : (forall (det : DuplicateDetector) (a : article) (cands : list article)
            (cand : article) (t u ct : string) (minhash : outcome (bool * pyval)),
        use_exact_match det = true ->
        dict_get a "title" (PStr "") = PStr t ->
        dict_get a "url" (PStr "") = PStr u ->
        nonempty (norm t) = true ->
        In cand cands -> Forall wf_candidate cands ->
        dict_get cand "title" PNone = PStr ct -> norm ct = norm t ->
        exists pre c' post v, cands = pre ++ c' :: post
          /\ Forall (fun c => exact_field "title" (norm t) c = Ok None
                              /\ exact_field "url" (norm u) c = Ok None) pre
          /\ (exact_field "title" (norm t) c' = Ok (Some v)
              \/ exact_field "url" (norm u) c' = Ok (Some v))
          /\ assoc_get "id" c' = Some v
          /\ check_exact_match a cands = Ok (true, v)
          /\ find_duplicate det a cands minhash = Ok (true, v))
    /\ (forall (det : DuplicateDetector) (a : article) (cands : list article),
        (forall c, In c cands -> disjoint_field a c "title" /\ disjoint_field a c "content") ->
        forall v, check_fuzzy_match det a cands <> Ok (true, v)).
Proof.
  split.
  - intros det a cands cand t u ct mh Hex Ht Hu Hne Hin Hwf Hct Hn.
    assert (Hchk : forall r, exact_loop (norm t) (norm u) cands = r ->
              check_exact_match a cands = r).
    { intros r Hr. unfold check_exact_match. rewrite Ht, Hu. cbn [as_str bind].
      rewrite Hne. exact Hr. }
    destruct (exact_loop_first (norm t) (norm u) cands cand ct Hne Hin Hwf Hct Hn)
      as [pre [c' [post [v [Hs [Hpre [Hm [Hv Hl]]]]]]]].
    exists pre, c', post, v. split; [exact Hs|]. split; [exact Hpre|].
    split; [exact Hm|]. split; [exact Hv|].
    assert (He := Hchk _ Hl). split; [exact He|].
    unfold find_duplicate. rewrite Hex, He. reflexivity.
  - intros det a cands Hall v. unfold check_fuzzy_match.
    destruct (negb (truthy (dict_get a "title" (PStr "")))
              && negb (truthy (dict_get a "content" (PStr "")))); [discriminate|].
    destruct (fuzzy_loop_no_hit det a cands 0 (Qeq_refl 0) Hall) as [[e E] | [b E]];
      rewrite E; discriminate.
Qed.

Definition exact_detector : DuplicateDetector :=
  {| similarity_threshold := 8 # 10; title_weight := 6 # 10;
     content_weight := 4 # 10; use_exact_match := true;
     use_fuzzy_match := false; use_minhash := false;
     minhash_index_set := false |}.

Definition rain_article : article :=
  [("title", PStr "Rain in Paris"); ("url", PStr "https://news.example/rain");
   ("content", PStr "Heavy rain fell.")].

Definition rain_candidate : article :=
  [("id", PInt 7); ("title", PStr "  RAIN IN PARIS "); ("url", PStr "https://other.example/a")].

Definition market_candidate : article :=
  [("id", PInt 8); ("title", PStr "Stock markets rally");
   ("content", PStr "Shares rose sharply.")].

Lemma exact_and_fuzzy_match_witness :
  check_exact_match rain_article [rain_candidate] = Ok (true, PInt 7)
  /\ check_fuzzy_match default_detector rain_article [market_candidate] <> Ok (true, PInt 8).
Proof.
  split.
  - assert (Hwf : Forall wf_candidate [rain_candidate]).
    { constructor; [|constructor].
      split; [right; eexists; reflexivity|]. split; [right; eexists; reflexivity|].
      eexists; reflexivity. }
    destruct (proj1 exact_and_fuzzy_match exact_detector rain_article [rain_candidate]
                rain_candidate "Rain in Paris" "https://news.example/rain"
                "  RAIN IN PARIS " (Ok (false, PNone)) eq_refl eq_refl eq_refl eq_refl
                (or_introl eq_refl) Hwf eq_refl eq_refl)
      as [pre [c' [post [v [Hs [_ [_ [Hid [He _]]]]]]]]].
    destruct pre as [|p pre]; cbn in Hs; injection Hs as Hc Hp.
    + subst c'. cbn in Hid. injection Hid as <-. exact He.
    + destruct pre; discriminate Hp.
  - apply (proj2 exact_and_fuzzy_match).
    intros c [<- | []].
    split; intros s1 s2 H1 H2 w Hw Hw2; cbn in H1, H2;
      injection H1 as <-; injection H2 as <-; vm_compute in Hw, Hw2;
      repeat (destruct Hw as [<- | Hw]); try destruct Hw;
      repeat (destruct Hw2 as [E | Hw2]; [discriminate E|]); destruct Hw2.
Defined.

(** A blank title: both titles are "" after [strip().lower()], yet the
    exact-match check skips empty titles and reports no duplicate, also
    when fuzzy matching and MinHash are off. *)
Definition blank_article : article := [("title", PStr " "); ("url", PStr "")].
Definition blank_candidate : article :=
  [("id", PInt 1); ("title", PStr " "); ("url", PStr "")].

Lemma exact_match_blank_title_counterexample :
  norm " " = norm " "
  /\ check_exact_match blank_article [blank_candidate] = Ok (false, PNone)
  /\ find_duplicate exact_detector blank_article [blank_candidate] (Ok (false, PNone))
     = Ok (false, PNone).
Proof. split; [reflexivity|]. split; reflexivity. Qed.

End DedupFacts.

Module AnalyticsFacts.
Import Analytics.

Definition gsum (g : list (string * nat)) : nat := list_sum (map snd g).

Lemma gsum_bump (n : string) (g : list (string * nat)) :
  gsum (bump n g) = S (gsum g).
Proof.
  unfold gsum. induction g as [|[m c] r IH]; simpl; [reflexivity|].
  destruct (String.eqb n m); simpl; [reflexivity|].
  simpl in IH. rewrite IH. lia.
Qed.

Lemma gsum_group_count_aux (rows : list string) (g : list (string * nat)) :
  gsum (fold_left (fun g n => bump n g) rows g) = (gsum g + length rows)%nat.
Proof.
  revert g. induction rows as [|n r IH]; intros g; cbn [fold_left length]; [lia|].
  rewrite IH, gsum_bump. lia.
Qed.

Lemma gsum_group_count (rows : list string) :
  gsum (group_count rows) = length rows.
Proof. unfold group_count. rewrite gsum_group_count_aux. reflexivity. Qed.

Lemma gsum_insert_desc (x : string * nat) (l : list (string * nat)) :
  gsum (insert_desc x l) = (snd x + gsum l)%nat.
Proof.
  unfold gsum. induction l as [|y r IH]; simpl; [lia|].
  destruct (snd x <=? snd y)%nat; simpl; [|lia].
  simpl in IH. rewrite IH. lia.
Qed.

Lemma gsum_sort_desc_aux (l acc : list (string * nat)) :
  gsum (fold_left (fun acc x => insert_desc x acc) l acc) = (gsum acc + gsum l)%nat.
Proof.
  revert acc. induction l as [|x r IH]; intros acc; cbn [fold_left];
    [unfold gsum; simpl; lia|].
  rewrite IH, gsum_insert_desc. unfold gsum. simpl. lia.
Qed.

Lemma gsum_sort_desc (l : list (string * nat)) : gsum (sort_desc l) = gsum l.
Proof. unfold sort_desc. rewrite gsum_sort_desc_aux. reflexivity. Qed.

Lemma list_sum_map_add {A : Type} (f g : A -> nat) (l : list A) :
  list_sum (map (fun x => f x + g x) l)%nat
  = (list_sum (map f l) + list_sum (map g l))%nat.
Proof. induction l as [|x r IH]; simpl; [reflexivity|]. rewrite IH. lia. Qed.

Lemma sum_indicator_absent (c : Z) (cats : list (Z * string)) :
  ~ In c (map fst cats) ->
  list_sum (map (fun p => if Z.eqb c (fst p) then 1%nat else 0%nat) cats) = 0%nat.
Proof.
  induction cats as [|[cid nm] r IH]; cbn; intros Hn; [reflexivity|].
  destruct (Z.eqb_spec c cid) as [E|E]; [exfalso; apply Hn; left; congruence|].
  apply IH. intros H. apply Hn. right. exact H.
Qed.

Lemma sum_indicator (c : Z) (cats : list (Z * string)) :
  NoDup (map fst cats) -> In c (map fst cats) ->
  list_sum (map (fun p => if Z.eqb c (fst p) then 1%nat else 0%nat) cats) = 1%nat.
Proof.
  induction cats as [|[cid nm] r IH]; cbn; intros Hnd Hin; [destruct Hin|].
  inversion Hnd as [|? ? Hnotin Hnd']; subst.
  destruct (Z.eqb_spec c cid) as [E|E].
  - subst. rewrite sum_indicator_absent; [reflexivity|].
    intros H. apply Hnotin. apply list_elem_of_In. exact H.
  - destruct Hin as [Hin|Hin]; [congruence|]. apply IH; assumption.
Qed.

Definition links_of (cid : Z) (links : list (Z * Z)) : nat :=
  length (List.filter (fun l => snd l =? cid) links).

Lemma count_links (cats : list (Z * string)) (links : list (Z * Z)) :
  NoDup (map fst cats) ->
  (forall l, In l links -> In (snd l) (map fst cats)) ->
  list_sum (map (fun p => links_of (fst p) links) cats) = length links.
Proof.
  intros Hnd. induction links as [|l r IH] using rev_ind; intros Hfk.
  - clear. induction cats as [|p cs IHc]; [reflexivity|].
    unfold links_of in *. simpl in *. rewrite IHc. reflexivity.
  - assert (E : forall p : Z * string, links_of (fst p) (r ++ [l])
                  = ((if Z.eqb (snd l) (fst p) then 1 else 0) + links_of (fst p) r)%nat).
    { intros p. unfold links_of. rewrite List.filter_app, length_app.
      destruct (Z.eqb (snd l) (fst p)) eqn:Eq; simpl; rewrite ?Eq; simpl; lia. }
    rewrite (map_ext _ _ E), list_sum_map_add.
    rewrite sum_indicator; [|exact Hnd|apply Hfk; apply in_or_app; right; left; reflexivity].
    rewrite IH; [rewrite length_app; cbn; lia|].
    intros l' Hl'. apply Hfk. apply in_or_app. left. exact Hl'.
Qed.

Lemma length_join_rows (db : DB) :
  well_formed db -> length (join_rows db) = length (article_category db).
Proof.
  intros [_ [Hnd [_ Hfk]]]. unfold join_rows.
  rewrite length_flat_map.
  rewrite <- (count_links (categories db) (article_category db) Hnd).
  - f_equal. apply map_ext. intros [cid nm]. cbn [fst].
    rewrite length_map. unfold links_of. f_equal.
    apply List.filter_ext_in. intros [aid c] Hin. cbn [snd].
    destruct (Hfk aid c Hin) as [Ha _].
    assert (Ex : existsb (Z.eqb aid) (articles db) = true).
    { apply existsb_exists. exists aid. split; [exact Ha | apply Z.eqb_refl]. }
    rewrite Ex, andb_true_r. reflexivity.
  - intros [aid c] Hin. exact (proj2 (Hfk aid c Hin)).
Qed.

Lemma sum_counts_map (total : nat) (l : list (string * nat)) :
  sum_counts (map (fun '(name, cnt) =>
    {| e_category := name; e_count := cnt;
       e_percentage :=
         py_round2 (inject_Z (Z.of_nat cnt) / inject_Z (Z.of_nat total) * 100) |}) l)
  = gsum l.
Proof.
  unfold gsum. induction l as [|[n c] r IH]; [reflexivity|].
  simpl. f_equal. exact IH.
Qed.

(** Claim C5 (as amended): for a database satisfying the schema's key
    constraints, [get_category_distribution] returns [] when there are
    no articles; otherwise the counts of the returned categories add up
    to the number of article-category links (an article counts once per
    category it has, and not at all without one), and each entry's
    percentage is [round(count / total * 100, 2)] with [total] the number
    of articles. *)
Theorem category_distribution_counts (db : DB) :
  well_formed db ->
  (articles db = [] -> get_category_distribution db = [])
  /\ (articles db <> [] ->
      sum_counts (get_category_distribution db) = length (article_category db)
      /\ forall e, In e (get_category_distribution db) ->
           e_percentage e
           = py_round2 (inject_Z (Z.of_nat (e_count e))
                        / inject_Z (Z.of_nat (length (articles db))) * 100)).
Proof.
  intros Hwf. split.
  - intros E. unfold get_category_distribution. rewrite E. reflexivity.
  - intros Hne. unfold get_category_distribution.
    destruct (Nat.eqb_spec (length (articles db)) 0) as [E|_].
    { exfalso. apply Hne. destruct (articles db); [reflexivity | discriminate]. }
    split.
    + rewrite sum_counts_map, gsum_sort_desc, gsum_group_count.
      apply length_join_rows. exact Hwf.
    + intros e Hin. apply in_map_iff in Hin.
      destruct Hin as [[n c] [<- _]]. reflexivity.
Qed.

(** One article filed under two categories. *)
Definition two_category_db : DB :=
  {| articles := [1]; categories := [(1, "politics"); (2, "business")];
     article_category := [(1, 1); (1, 2)] |}.

Lemma two_category_db_well_formed : well_formed two_category_db.
Proof.
  unfold well_formed; cbn.
  split; [apply (bool_decide_unpack _); reflexivity|].
  split; [apply (bool_decide_unpack _); reflexivity|].
  split; [apply (bool_decide_unpack _); reflexivity|].
  intros aid cid [E | [E | []]]; injection E as <- <-; cbn; tauto.
Qed.

Lemma category_distribution_counts_witness :
  sum_counts (get_category_distribution two_category_db) = 2%nat.
Proof.
  apply (proj2 (category_distribution_counts two_category_db
                  two_category_db_well_formed)).
  discriminate.
Defined.

(** The counts add up to 2 while the article count is 1. *)
Lemma category_distribution_sum_counterexample :
  length (articles two_category_db) = 1%nat
  /\ sum_counts (get_category_distribution two_category_db) = 2%nat.
Proof. split; reflexivity. Qed.

End AnalyticsFacts.

Module ClassifierFacts.
Import Py Classifier.

Lemma assoc_get_set_same (k : string) (v : pyval) (d : list (string * pyval)) :
  assoc_get k (assoc_set k v d) = Some v.
Proof.
  induction d as [|[k' v'] r IH]; cbn; [rewrite String.eqb_refl; reflexivity|].
  destruct (String.eqb_spec k k') as [E|E]; cbn.
  - rewrite E, String.eqb_refl. reflexivity.
  - destruct (String.eqb_spec k k'); [contradiction|]. exact IH.
Qed.

Lemma assoc_get_set_other (k k' : string) (v : pyval) (d : list (string * pyval)) :
  k' <> k -> assoc_get k' (assoc_set k v d) = assoc_get k' d.
Proof.
  intros Hne. induction d as [|[j w] r IH]; cbn.
  - destruct (String.eqb_spec k' k); [contradiction | reflexivity].
  - destruct (String.eqb_spec k j) as [E|E]; cbn.
    + subst j. destruct (String.eqb_spec k' k); [contradiction | reflexivity].
    + destruct (String.eqb k' j); [reflexivity | exact IH].
Qed.

(** Claim C6 (as amended): for an article whose [content] and [title] are
    both falsy, an enabled classifier that may (re)classify the article
    (no truthy [categories], or [override_existing]) sets [categories] to
    exactly [[default_category]] and leaves every other key, [metadata]
    included, as it was, whatever the classification would have returned:
    no classification confidence is recorded.  A disabled classifier, or
    one meeting an already classified article without
    [override_existing], returns the article unchanged. *)
Theorem process_without_text (cl : Classifier) (a : article)
  (classified : outcome (list pyval * Q)) :
  truthy (dict_get a "content" PNone) = false ->
  truthy (dict_get a "title" PNone) = false ->
  (enabled cl = true ->
   (truthy (dict_get a "categories" PNone) = false \/ override_existing cl = true) ->
   assoc_get "categories" (process cl a classified)
     = Some (PList [PStr (default_category cl)])
   /\ (forall k, k <> "categories"%string ->
         assoc_get k (process cl a classified) = assoc_get k a))
  /\ ((enabled cl = false
       \/ (truthy (dict_get a "categories" PNone) = true
           /\ override_existing cl = false)) ->
      process cl a classified = a).
Proof.
  intros Hc Ht. split.
  - intros He Hcat. unfold process. rewrite He. cbn [negb].
    assert (Hskip : truthy (dict_get a "categories" PNone)
                    && negb (override_existing cl) = false).
    { destruct Hcat as [E|E]; rewrite E; [reflexivity | apply andb_false_r]. }
    rewrite Hskip, Hc, Ht. cbn. unfold set_default. split.
    + apply assoc_get_set_same.
    + intros k Hk. apply assoc_get_set_other. exact Hk.
  - intros [Hd | [Hcat Ho]]; unfold process.
    + rewrite Hd. reflexivity.
    + destruct (enabled cl); [|reflexivity]. rewrite Hcat, Ho. reflexivity.
Qed.

Definition empty_article : article := [].

Lemma process_without_text_witness :
  assoc_get "categories"
    (process default_classifier empty_article (Ok ([PStr "politics"], 9 # 10)))
    = Some (PList [PStr "general"])
  /\ assoc_get "metadata"
       (process default_classifier empty_article (Ok ([PStr "politics"], 9 # 10)))
     = None.
Proof.
  destruct (proj1 (process_without_text default_classifier empty_article
                     (Ok ([PStr "politics"], 9 # 10)) eq_refl eq_refl)
              eq_refl (or_introl eq_refl)) as [H1 H2].
  split; [exact H1|]. rewrite H2; [reflexivity | discriminate].
Defined.

(** An empty article gets [categories = ["general"]] and no
    [metadata] (hence no confidence); an empty article that already has
    categories keeps them. *)
Lemma process_without_text_counterexample :
  process default_classifier empty_article (Ok ([], 0%Q))
    = [("categories", PList [PStr "general"])]%string
  /\ assoc_get "metadata" (process default_classifier empty_article (Ok ([], 0%Q)))
     = None
  /\ process default_classifier [("categories", PList [PStr "sports"])]%string
       (Ok ([], 0%Q))
     = [("categories", PList [PStr "sports"])]%string.
Proof. split; [reflexivity | split; reflexivity]. Qed.

End ClassifierFacts.

Module TextUtilsFacts.
Import PyStr TextUtils.

Section Sorting.
Context {A : Type} (le : A -> A -> bool).

Lemma In_insert_desc (x z : A) (l : list A) :
  In z (insert_desc le x l) <-> z = x \/ In z l.
Proof.
  induction l as [|y r IH]; cbn; [intuition congruence|].
  destruct (le x y); cbn; [rewrite IH|]; intuition congruence.
Qed.

Lemma In_sort_desc_aux (l acc : list A) (z : A) :
  In z (fold_left (fun acc x => insert_desc le x acc) l acc) <-> In z l \/ In z acc.
Proof.
  revert acc. induction l as [|x r IH]; intros acc; cbn [fold_left]; [cbn; tauto|].
  rewrite IH, In_insert_desc. cbn. intuition congruence.
Qed.

Lemma length_insert_desc (x : A) (l : list A) :
  length (insert_desc le x l) = S (length l).
Proof. induction l as [|y r IH]; cbn; [reflexivity|]. destruct (le x y); cbn; lia. Qed.

Lemma length_sort_desc_aux (l acc : list A) :
  length (fold_left (fun acc x => insert_desc le x acc) l acc)
  = (length l + length acc)%nat.
Proof.
  revert acc. induction l as [|x r IH]; intros acc; cbn [fold_left]; [reflexivity|].
  rewrite IH, length_insert_desc. cbn. lia.
Qed.

Lemma length_sort_desc (l : list A) : length (sort_desc le l) = length l.
Proof. unfold sort_desc. rewrite length_sort_desc_aux. cbn. lia. Qed.

(** [R x y]: [x] may stand before [y] in a descending order. *)
Variable R : A -> A -> Prop.
Hypothesis R_trans : forall x y z, R x y -> R y z -> R x z.
Hypothesis le_true : forall x y, le x y = true -> R y x.
Hypothesis le_false : forall x y, le x y = false -> R x y.

Lemma sorted_insert_desc (x : A) (l : list A) :
  StronglySorted R l -> StronglySorted R (insert_desc le x l).
Proof.
  induction l as [|y r IH]; intros Hs; cbn.
  - repeat constructor.
  - apply StronglySorted_inv in Hs as [Hr Hy].
    destruct (le x y) eqn:E.
    + constructor; [apply IH; exact Hr|].
      apply List.Forall_forall. intros z Hz. apply In_insert_desc in Hz as [->|Hz].
      * apply le_true. exact E.
      * rewrite List.Forall_forall in Hy. apply Hy. exact Hz.
    + constructor; [constructor; assumption|].
      constructor; [apply le_false; exact E|].
      apply List.Forall_forall. intros z Hz. apply (R_trans x y z); [apply le_false; exact E|].
      rewrite List.Forall_forall in Hy. apply Hy. exact Hz.
Qed.

Lemma sorted_sort_desc_aux (l acc : list A) :
  StronglySorted R acc ->
  StronglySorted R (fold_left (fun acc x => insert_desc le x acc) l acc).
Proof.
  revert acc. induction l as [|x r IH]; intros acc Hs; cbn [fold_left]; [exact Hs|].
  apply IH. apply sorted_insert_desc. exact Hs.
Qed.

Lemma sorted_sort_desc (l : list A) : StronglySorted R (sort_desc le l).
Proof. apply sorted_sort_desc_aux. constructor. Qed.

Lemma StronglySorted_app_cross (l1 l2 : list A) (x y : A) :
  StronglySorted R (l1 ++ l2) -> In x l1 -> In y l2 -> R x y.
Proof.
  induction l1 as [|h t IH]; intros Hs Hx Hy; [destruct Hx|].
  cbn in Hs. apply StronglySorted_inv in Hs as [Hs Hh].
  destruct Hx as [<-|Hx].
  - rewrite List.Forall_forall in Hh. apply Hh. apply in_or_app. right. exact Hy.
  - apply IH; assumption.
Qed.
End Sorting.

Lemma in_firstn_in {A : Type} (n : nat) (l : list A) (x : A) :
  In x (firstn n l) -> In x l.
Proof. intros H. rewrite <- (firstn_skipn n l). apply in_or_app. left. exact H. Qed.

Definition score_ge (x y : string * Q) : Prop := (snd y <= snd x)%Q.

(** The [max_sentences] best sentences of [sorted(..., reverse=True)]:
    taking a prefix of the stable descending sort never leaves out a
    sentence scoring more than one kept. *)
Lemma top_prefix (score : string -> Q) (ss : list string) (n : nat) :
  let top := map fst (firstn n (sort_desc (fun x y : string * Q => Qle_bool (snd x) (snd y))
                                    (map (fun s => (s, score s)) ss))) in
  length top = Nat.min n (length ss)
  /\ (forall s, In s top -> In s ss)
  /\ (forall s s', In s top -> In s' ss -> ~ In s' top -> (score s' <= score s)%Q).
Proof.
  cbv zeta.
  set (le := fun x y : string * Q => Qle_bool (snd x) (snd y)).
  set (sorted := sort_desc le (map (fun s => (s, score s)) ss)).
  assert (Hin : forall p, In p sorted <-> In p (map (fun s => (s, score s)) ss)).
  { intros p. unfold sorted, sort_desc. rewrite In_sort_desc_aux. cbn. tauto. }
  assert (Hsnd : forall p, In p sorted -> snd p = score (fst p)).
  { intros p Hp. apply Hin, in_map_iff in Hp. destruct Hp as [s [<- _]]. reflexivity. }
  assert (Hsorted : StronglySorted score_ge sorted).
  { apply sorted_sort_desc.
    - intros x y z Hxy Hyz. unfold score_ge in *. eapply Qle_trans; eassumption.
    - intros x y E. unfold score_ge. apply Qle_bool_imp_le. exact E.
    - intros x y E. unfold score_ge. apply Qlt_le_weak, Qnot_le_lt.
      intros Hle. apply Qle_bool_iff in Hle. unfold le in E. congruence. }
  split; [|split].
  - rewrite length_map, length_firstn. unfold sorted.
    rewrite length_sort_desc, length_map. reflexivity.
  - intros s Hs. apply in_map_iff in Hs as [p [<- Hp]].
    apply in_firstn_in in Hp. apply Hin, in_map_iff in Hp as [s' [<- Hs']]. exact Hs'.
  - intros s s' Hs Hs' Hnot.
    apply in_map_iff in Hs as [p [<- Hp]].
    assert (Hp' : In (s', score s') sorted). { apply Hin. apply (in_map (fun s => (s, score s))). exact Hs'. }
    rewrite <- (firstn_skipn n sorted) in Hp'.
    apply in_app_or in Hp' as [Hp'|Hp'].
    + exfalso. apply Hnot. apply in_map_iff. exists (s', score s'). split; [reflexivity|exact Hp'].
    + rewrite <- (firstn_skipn n sorted) in Hsorted.
      pose proof (StronglySorted_app_cross score_ge _ _ _ _ Hsorted Hp Hp') as H.
      unfold score_ge in H. cbn in H. rewrite (Hsnd p (in_firstn_in _ _ _ Hp)) in H. exact H.
Qed.

Lemma extract_sentences_empty : extract_sentences EmptyString = [].
Proof. reflexivity. Qed.

(** Claim C7 (as amended): let [S = extract_sentences text], the
    stripped non-empty pieces of [text] cut at whitespace that follows
    '.', '!' or '?', and [max_sentences >= 0].  If [S] is empty the
    summary is empty; if [len(S) <= max_sentences] the summary is
    [" ".join(S)] (the sentences re-joined with single spaces, not the
    text itself); otherwise it is [" ".join] of the sentences of [S], in
    their original order, that belong to a list [top] of
    [max_sentences] sentences of [S] such that no sentence of [S] outside
    [top] scores more than a sentence in [top], the score being the
    number of the 20 extracted keywords contained in the lowercased
    sentence divided by its word count. *)
Theorem generate_summary_spec (text : string) (max_sentences : Z) :
  0 <= max_sentences ->
  (extract_sentences text = [] -> generate_summary text max_sentences = EmptyString)
  /\ (extract_sentences text <> [] ->
      Z.of_nat (length (extract_sentences text)) <= max_sentences ->
      generate_summary text max_sentences = join " " (extract_sentences text))
  /\ (max_sentences < Z.of_nat (length (extract_sentences text)) ->
      exists top : list string,
        generate_summary text max_sentences
          = join " " (List.filter (fun s => mem s top) (extract_sentences text))
        /\ length top = Z.to_nat max_sentences
        /\ (forall s, In s top -> In s (extract_sentences text))
        /\ (forall s s', In s top -> In s' (extract_sentences text) -> ~ In s' top ->
              (sentence_score (extract_keywords text 20 3) s'
               <= sentence_score (extract_keywords text 20 3) s)%Q)).
Proof.
  intros Hm. unfold generate_summary.
  destruct (nonempty text) eqn:Hn.
  2:{ assert (E : text = EmptyString).
      { unfold nonempty in Hn. destruct (String.eqb_spec text EmptyString); [assumption|discriminate]. }
      subst text. rewrite extract_sentences_empty. cbn.
      split; [reflexivity | split; [intros H; contradiction | lia]]. }
  cbn [negb].
  destruct (extract_sentences text) as [|s0 r] eqn:Hss.
  { split; [reflexivity | split; [intros H; contradiction | cbn; lia]]. }
  split; [discriminate|]. split.
  - intros _ Hle. apply Z.leb_le in Hle. rewrite Hle. reflexivity.
  - intros Hlt. assert (Hgt : (Z.of_nat (length (s0 :: r)) <=? max_sentences) = false)
      by (apply Z.leb_gt; exact Hlt).
    rewrite Hgt.
    unfold py_take. assert (H0 : (0 <=? max_sentences) = true) by (apply Z.leb_le; exact Hm).
    rewrite H0.
    destruct (top_prefix (sentence_score (extract_keywords text 20 3)) (s0 :: r)
                (Z.to_nat max_sentences)) as [Hlen [Hsub Hbest]].
    eexists. split; [reflexivity|]. split; [|split; [exact Hsub | exact Hbest]].
    rewrite Hlen. apply Nat.min_l. lia.
Qed.

Lemma generate_summary_spec_witness :
  generate_summary "Hi.  Bye." 3 = "Hi. Bye."%string.
Proof.
  apply (proj1 (proj2 (generate_summary_spec "Hi.  Bye." 3 ltac:(lia)))).
  - vm_compute. discriminate.
  - vm_compute. discriminate.
Defined.

(** A text of two sentences, at most [max_sentences = 3], is not
    returned unchanged: the double space is collapsed. *)
Lemma generate_summary_unchanged_counterexample :
  length (extract_sentences "Hi.  Bye.") = 2%nat
  /\ generate_summary "Hi.  Bye." 3 = "Hi. Bye."%string
  /\ "Hi. Bye."%string <> "Hi.  Bye."%string.
Proof. split; [vm_compute; reflexivity | split; [vm_compute; reflexivity | discriminate]]. Qed.

End TextUtilsFacts.

Module SentimentFacts.
Import Py Sentiment.

(** Turns the [Qle_bool] tests into inequalities and closes the goal by
    linear arithmetic on numerators and denominators. *)
Ltac qcontra :=
  repeat match goal with
  | H : Qle_bool _ _ = true |- _ => apply Qle_bool_iff in H
  | H : Qle_bool ?x ?y = false |- _ =>
      assert (~ (x <= y)%Q) by (intros Hq; apply Qle_bool_iff in Hq; congruence); clear H
  end;
  unfold Qle, Qlt, Qeq in *; cbn in *; lia.

(** Claim C8: whenever VADER's [polarity_scores(text)] yields the
    compound score [c], the rule answers "positive" for [c = 0.05],
    "negative" for [c = -0.05] and "neutral" for [-0.05 < c < 0.05], and
    in every case the confidence is [abs(c)]. *)
Theorem vader_thresholds (polarity_scores : string -> outcome Q)
  (text : string) (c : Q) :
  polarity_scores text = Ok c ->
  ((c == 1 # 20)%Q -> fst (analyze_with_vader (polarity_scores text)) = "positive"%string)
  /\ ((c == - (1 # 20))%Q ->
      fst (analyze_with_vader (polarity_scores text)) = "negative"%string)
  /\ ((- (1 # 20) < c)%Q -> (c < 1 # 20)%Q ->
      fst (analyze_with_vader (polarity_scores text)) = "neutral"%string)
  /\ snd (analyze_with_vader (polarity_scores text)) = Qabs c.
Proof.
  intros Hc. rewrite Hc. unfold analyze_with_vader. cbn [fst snd].
  split; [|split; [|split]]; [intros E | intros E | intros Hlo Hhi | reflexivity];
    destruct (Qle_bool (1 # 20) c) eqn:B1; try destruct (Qle_bool c (- (1 # 20))) eqn:B2;
    try reflexivity; exfalso; qcontra.
Qed.

Lemma vader_thresholds_witness :
  fst (analyze_with_vader ((fun _ : string => Ok (1 # 20)) "good"%string))
    = "positive"%string.
Proof.
  apply (proj1 (vader_thresholds (fun _ => Ok (1 # 20)) "good" (1 # 20) eq_refl)).
  apply Qeq_refl.
Defined.

End SentimentFacts.

Module RateLimitFacts.
Import Py RateLimit.

Lemma history_insert (rl : RateLimiter) (ip : string) (l : list Q) :
  history (with_requests rl (<[ip := l]> (requests rl))) ip = l.
Proof. unfold history. cbn. rewrite lookup_insert_eq. reflexivity. Qed.

(** Timestamps at least a window older than [w] are dropped, timestamps
    of the window starting at [w] are kept, by a call at a time of that
    window. *)
Lemma kept_in_window (rl : RateLimiter) (w t : Q) (old acc : list Q) :
  Forall (fun x => x + inject_Z (time_window rl) <= w)%Q old ->
  Forall (fun x => w <= x /\ x < w + inject_Z (time_window rl))%Q acc ->
  (w <= t /\ t < w + inject_Z (time_window rl))%Q ->
  List.filter (recent rl t) (old ++ acc) = acc.
Proof.
  intros Hold Hacc [Ht1 Ht2]. rewrite List.filter_app.
  replace (List.filter (recent rl t) old) with (@nil Q).
  2:{ induction Hold as [|x r Hx Hr IH]; [reflexivity|]. cbn.
      unfold recent at 1.
      assert (E : Qle_bool (inject_Z (time_window rl)) (t - x) = true)
        by (apply Qle_bool_iff; lra).
      rewrite E. exact IH. }
  cbn. induction Hacc as [|x r [Hx1 Hx2] Hr IH]; [reflexivity|]. cbn.
  unfold recent at 1.
  assert (E : Qle_bool (inject_Z (time_window rl)) (t - x) = false).
  { destruct (Qle_bool (inject_Z (time_window rl)) (t - x)) eqn:B; [|reflexivity].
    apply Qle_bool_iff in B. lra. }
  rewrite E. cbn. f_equal. exact IH.
Qed.

(** While the window holds fewer timestamps than the limit, every call
    is accepted and recorded; what precedes the window stays stale. *)
Lemma run_calls_accepted (times : list Q) :
  forall (rl : RateLimiter) (ip : string) (w : Q) (old acc : list Q),
  history rl ip = old ++ acc ->
  Forall (fun x => x + inject_Z (time_window rl) <= w)%Q old ->
  Forall (fun x => w <= x /\ x < w + inject_Z (time_window rl))%Q (acc ++ times) ->
  (Z.of_nat (length acc + length times) <= rate_limit rl)%Z ->
  fst (run_calls rl ip times) = repeat (Ok (false, None)) (length times)
  /\ rate_limit (snd (run_calls rl ip times)) = rate_limit rl
  /\ time_window (snd (run_calls rl ip times)) = time_window rl
  /\ exists old', history (snd (run_calls rl ip times)) ip = old' ++ acc ++ times
       /\ Forall (fun x => x + inject_Z (time_window rl) <= w)%Q old'.
Proof.
  induction times as [|t ts IH]; intros rl ip w old acc Hh Hold Hwin Hlen.
  - cbn. split; [reflexivity|]. split; [reflexivity|]. split; [reflexivity|].
    exists old. rewrite app_nil_r. split; assumption.
  - apply Forall_app in Hwin as [Hacc Hts].
    apply Forall_cons_iff in Hts as [Ht Hts].
    assert (Hn : (rate_limit rl <=? Z.of_nat (length acc)) = false).
    { apply Z.leb_gt. cbn [length] in Hlen. lia. }
    set (rl1 := with_requests rl (<[ip := acc ++ [t]]> (requests rl))).
    assert (Ecall : is_rate_limited rl ip t = (Ok (false, None), rl1)).
    { unfold is_rate_limited.
      rewrite Hh, (kept_in_window rl w t old acc Hold Hacc Ht), Hn. reflexivity. }
    cbn [run_calls]. rewrite Ecall.
    destruct (IH rl1 ip w [] (acc ++ [t])) as [Hr [Hl [Hw [old' [Hh' Hold']]]]].
    + apply history_insert.
    + constructor.
    + rewrite <- app_assoc. cbn. apply Forall_app. split; [exact Hacc|].
      constructor; assumption.
    + cbn. rewrite length_app. cbn [length] in Hlen. cbn. lia.
    + destruct (run_calls rl1 ip ts) as [rs rl2] eqn:E. cbn [fst snd] in *.
      split; [rewrite Hr; reflexivity|].
      split; [exact Hl|]. split; [exact Hw|].
      exists old'. rewrite <- app_assoc in Hh'. split; [exact Hh'|exact Hold'].
Qed.

(** Claim C9: with [rate_limit = 100] and [time_window = 60], a client
    whose earlier timestamps are all at least 60 seconds older than the
    start [w] of a window [[w, w + 60)] makes 100 calls at times of that
    window: each is accepted ([(False, None)]), and a 101st call at a
    time of the same window is rejected with a Retry-After of at least
    1. *)
Theorem hundred_then_limited (rl : RateLimiter) (ip : string) (w t_last : Q)
  (times : list Q) :
  rate_limit rl = 100%Z ->
  time_window rl = 60%Z ->
  length times = 100%nat ->
  Forall (fun t => w <= t /\ t < w + 60)%Q (t_last :: times) ->
  Forall (fun x => x + 60 <= w)%Q (history rl ip) ->
  fst (run_calls rl ip times) = repeat (Ok (false, None)) 100
  /\ exists retry_after : Z,
       fst (is_rate_limited (snd (run_calls rl ip times)) ip t_last)
         = Ok (true, Some retry_after)
       /\ (1 <= retry_after)%Z.
Proof.
  intros Hrl Htw Hlen Hwin Hold.
  assert (H60 : inject_Z (time_window rl) = 60%Q) by (rewrite Htw; reflexivity).
  apply Forall_cons_iff in Hwin as [Hlast Hwin].
  destruct (run_calls_accepted times rl ip w (history rl ip) [])
    as [Hr [Hl [Hw [old' [Hh' Hold']]]]].
  - rewrite app_nil_r. reflexivity.
  - rewrite H60. exact Hold.
  - rewrite H60. exact Hwin.
  - rewrite Hrl, Hlen. cbn. lia.
  - split; [rewrite Hr, Hlen; reflexivity|].
    set (rl2 := snd (run_calls rl ip times)) in *.
    unfold is_rate_limited.
    rewrite Hh'. cbn [app].
    rewrite (kept_in_window rl2 w t_last old' times).
    + rewrite Hl, Hrl, Hlen.
      cbn [Z.of_nat]. rewrite Z.leb_refl.
      destruct times as [|t r]; [discriminate|].
      eexists. split; [reflexivity|]. apply Z.le_max_l.
    + rewrite Hw, H60. rewrite H60 in Hold'. exact Hold'.
    + rewrite Hw, H60. exact Hwin.
    + rewrite Hw, H60. exact Hlast.
Qed.

Definition fresh_limiter : RateLimiter := new_limiter 100 60.

Lemma hundred_then_limited_witness :
  fst (run_calls fresh_limiter "10.0.0.1" (repeat 0%Q 100))
    = repeat (Ok (false, None)) 100
  /\ exists retry_after : Z,
       fst (is_rate_limited (snd (run_calls fresh_limiter "10.0.0.1" (repeat 0%Q 100)))
              "10.0.0.1" 30%Q)
         = Ok (true, Some retry_after)
       /\ (1 <= retry_after)%Z.
Proof.
  apply (hundred_then_limited fresh_limiter "10.0.0.1" 0%Q 30%Q (repeat 0%Q 100)).
  - reflexivity.
  - reflexivity.
  - reflexivity.
  - constructor; [split; lra|].
    apply List.Forall_forall. intros x Hx. apply repeat_spec in Hx. subst x.
    split; lra.
  - constructor.
Defined.

(** Claim C10: a call that answers "limited" stores, for the IP, only its
    previous timestamps that are still within the window (no timestamp
    for the rejected request); a call that answers "not limited" stores
    those timestamps followed by the current time.  No other IP's entry
    changes. *)
Theorem rejected_not_recorded (rl : RateLimiter) (ip : string) (now : Q)
  (res : outcome (bool * option Z)) (rl' : RateLimiter) :
  is_rate_limited rl ip now = (res, rl') ->
  (forall r, res = Ok (true, r) ->
     requests rl' = <[ip := List.filter (recent rl now) (history rl ip)]> (requests rl))
  /\ (forall r, res = Ok (false, r) ->
     requests rl' = <[ip := List.filter (recent rl now) (history rl ip) ++ [now]]> (requests rl)).
Proof.
  unfold is_rate_limited. intros E.
  destruct (rate_limit rl <=? Z.of_nat (length (List.filter (recent rl now) (history rl ip)))).
  - destruct (List.filter (recent rl now) (history rl ip)) as [|t r] eqn:Hk;
      injection E as <- <-; split; intros r' Hr'; try discriminate; reflexivity.
  - injection E as <- <-. split; intros r' Hr'; [discriminate | reflexivity].
Qed.

Definition one_per_minute : RateLimiter :=
  with_requests (new_limiter 1 60) (<["10.0.0.1" := [0%Q]]> ∅).

Lemma rejected_not_recorded_witness :
  requests (snd (is_rate_limited one_per_minute "10.0.0.1" 10%Q))
    = <["10.0.0.1" := List.filter (recent one_per_minute 10%Q)
                        (history one_per_minute "10.0.0.1")]> (requests one_per_minute).
Proof.
  apply (proj1 (rejected_not_recorded one_per_minute "10.0.0.1" 10%Q
                  (fst (is_rate_limited one_per_minute "10.0.0.1" 10%Q))
                  (snd (is_rate_limited one_per_minute "10.0.0.1" 10%Q))
                  (surjective_pairing _)) (Some 50%Z)).
  vm_compute. reflexivity.
Defined.

End RateLimitFacts.

(* ===================================================================== *)
(* Part III. Properties of the remaining code                            *)
(* ===================================================================== *)

(* --------------------------------------------------------------------- *)
(* Strings: [strip] after [re.sub(r'\s+', ' ', .)] and [str.split()].    *)
(* --------------------------------------------------------------------- *)
Module WhitespaceFacts.
Import PyStr.

Lemma chars_of_chars (l : list ascii) : chars (of_chars l) = l.
Proof. apply list_ascii_of_string_of_list_ascii. Qed.

Lemma of_chars_chars (s : string) : of_chars (chars s) = s.
Proof. apply string_of_list_ascii_of_string. Qed.

Lemma chars_append (s1 s2 : string) : chars (append s1 s2) = chars s1 ++ chars s2.
Proof. unfold chars. induction s1 as [|c s IH]; simpl; [reflexivity|]. f_equal. exact IH. Qed.

(** [rstrip] on character lists, as [strip] computes it. *)
Definition rstrip (l : list ascii) : list ascii := rev (drop_space (rev l)).

(** The text [strip(re.sub(r'\s+', ' ', .))] builds: words separated by
    one space; [b] tells that nothing, or a space, was emitted last. *)
Fixpoint nw (l : list ascii) (b : bool) : list ascii :=
  match l with
  | [] => []
  | c :: r =>
      if is_space c then
        let y := nw r true in
        if b then y else match y with [] => [] | _ => " "%char :: y end
      else c :: nw r false
  end.

Lemma drop_space_app (l m : list ascii) :
  drop_space (l ++ m) = match drop_space l with [] => drop_space m | d => d ++ m end.
Proof.
  induction l as [|c r IH]; cbn; [reflexivity|].
  destruct (is_space c); [exact IH | reflexivity].
Qed.

Lemma drop_space_idem (l : list ascii) : drop_space (drop_space l) = drop_space l.
Proof.
  induction l as [|c r IH]; cbn; [reflexivity|].
  destruct (is_space c) eqn:E; [exact IH|]. cbn. rewrite E. reflexivity.
Qed.

Lemma rstrip_cons (c : ascii) (x : list ascii) :
  rstrip (c :: x) = match rstrip x with
                    | [] => if is_space c then [] else [c]
                    | y => c :: y
                    end.
Proof.
  unfold rstrip. cbn [rev]. rewrite drop_space_app.
  destruct (drop_space (rev x)) as [|d ds] eqn:E; cbn.
  - destruct (is_space c); reflexivity.
  - rewrite rev_app_distr. cbn.
    destruct (rev ds ++ [d]) eqn:F; [|reflexivity].
    apply app_eq_nil in F as [_ F]. discriminate.
Qed.

Lemma rstrip_idem (l : list ascii) : rstrip (rstrip l) = rstrip l.
Proof. unfold rstrip. rewrite rev_involutive, drop_space_idem. reflexivity. Qed.

Lemma rstrip_collapse (l : list ascii) (b : bool) :
  rstrip (Regex.collapse_space l b) = nw l b.
Proof.
  revert b. induction l as [|c r IH]; intros b; cbn [Regex.collapse_space nw]; [reflexivity|].
  destruct (is_space c) eqn:Ec.
  - destruct b; [apply IH|].
    rewrite rstrip_cons, IH. destruct (nw r true); reflexivity.
  - rewrite rstrip_cons, IH. destruct (nw r false); [rewrite Ec|]; reflexivity.
Qed.

Lemma drop_space_collapse (l : list ascii) (b : bool) :
  drop_space (Regex.collapse_space l b) = Regex.collapse_space (drop_space l) false.
Proof.
  revert b. induction l as [|c r IH]; intros b; cbn; [reflexivity|].
  destruct (is_space c) eqn:Ec.
  - destruct b; [apply IH|]. cbn. apply IH.
  - cbn. rewrite Ec. reflexivity.
Qed.

Lemma nw_drop_space (l : list ascii) : nw (drop_space l) true = nw l true.
Proof.
  induction l as [|c r IH]; cbn; [reflexivity|].
  destruct (is_space c) eqn:Ec; [exact IH|]. cbn. rewrite Ec. reflexivity.
Qed.

Lemma nw_no_lead (l : list ascii) : nw (drop_space l) false = nw (drop_space l) true.
Proof.
  induction l as [|c r IH]; cbn; [reflexivity|].
  destruct (is_space c) eqn:Ec; [exact IH|]. cbn. rewrite Ec. reflexivity.
Qed.

(** [strip(re.sub(r'\s+', ' ', text))] on the characters [l]. *)
Lemma strip_collapse_nw (l : list ascii) :
  strip (of_chars (Regex.collapse_space l false)) = of_chars (nw l true).
Proof.
  unfold strip. rewrite chars_of_chars, drop_space_collapse.
  change (rev (drop_space (rev (Regex.collapse_space (drop_space l) false))))
    with (rstrip (Regex.collapse_space (drop_space l) false)).
  rewrite rstrip_collapse, nw_no_lead, nw_drop_space. reflexivity.
Qed.

Lemma split_ws_aux_words (l cur : list ascii) :
  List.Forall (fun c => is_space c = false) cur ->
  forall w, In w (split_ws_aux l cur) ->
    chars w <> [] /\ List.Forall (fun c => is_space c = false) (chars w).
Proof.
  revert cur. induction l as [|c r IH]; intros cur Hcur w Hw; cbn in Hw.
  - destruct cur as [|x xs]; [destruct Hw|].
    destruct Hw as [<-|[]]. rewrite chars_of_chars. split.
    + cbn. intros H. apply app_eq_nil in H as [_ H]. discriminate.
    + apply List.Forall_rev. exact Hcur.
  - destruct (is_space c) eqn:Ec.
    + destruct cur as [|x xs].
      * eapply IH; [constructor|exact Hw].
      * destruct Hw as [<-|Hw].
        -- rewrite chars_of_chars. split.
           ++ cbn. intros H. apply app_eq_nil in H as [_ H]. discriminate.
           ++ apply List.Forall_rev. exact Hcur.
        -- eapply IH; [constructor|exact Hw].
    + apply (IH (c :: cur)); [constructor; assumption|exact Hw].
Qed.

Lemma join_cons_chars (w : string) (ws : list string) :
  chars (join " " (w :: ws))
  = chars w ++ match ws with [] => [] | _ => " "%char :: chars (join " " ws) end.
Proof.
  destruct ws as [|w' ws]; cbn [join].
  - rewrite app_nil_r. reflexivity.
  - rewrite !chars_append. reflexivity.
Qed.

Lemma chars_join_split (l cur : list ascii) :
  List.Forall (fun c => is_space c = false) cur ->
  chars (join " " (split_ws_aux l cur))
  = rev cur ++ nw l (match cur with [] => true | _ => false end).
Proof.
  revert cur. induction l as [|c r IH]; intros cur Hcur.
  - destruct cur as [|x xs]; cbn; [reflexivity|].
    rewrite chars_of_chars, app_nil_r. reflexivity.
  - cbn [split_ws_aux nw]. destruct (is_space c) eqn:Ec.
    + destruct cur as [|x xs].
      * rewrite IH by constructor. reflexivity.
      * rewrite join_cons_chars, chars_of_chars. f_equal.
        pose proof (IH [] (List.Forall_nil _)) as H. cbn in H.
        destruct (split_ws_aux r []) as [|w ws] eqn:Es.
        -- cbn in H. rewrite <- H. reflexivity.
        -- rewrite <- H. rewrite join_cons_chars.
           destruct (chars w) as [|d ds] eqn:Ew.
           ++ exfalso. apply (proj1 (split_ws_aux_words r [] (List.Forall_nil _) w
                                       ltac:(rewrite Es; left; reflexivity))).
              exact Ew.
           ++ reflexivity.
    + rewrite IH by (constructor; assumption). cbn.
      rewrite <- app_assoc. destruct cur; reflexivity.
Qed.

(** [strip(re.sub(r'\s+', ' ', text))] is [' '.join(text.split())]. *)
Lemma strip_collapse_join (l : list ascii) :
  strip (of_chars (Regex.collapse_space l false)) = join " " (split_ws_aux l []).
Proof.
  rewrite strip_collapse_nw.
  rewrite <- (of_chars_chars (join " " (split_ws_aux l []))).
  rewrite chars_join_split by constructor. reflexivity.
Qed.

Lemma split_ws_aux_word (w rest cur : list ascii) :
  List.Forall (fun c => is_space c = false) w ->
  split_ws_aux (w ++ rest) cur = split_ws_aux rest (rev w ++ cur).
Proof.
  revert cur. induction w as [|c r IH]; intros cur Hw; [reflexivity|].
  apply List.Forall_cons_iff in Hw as [Hc Hr]. cbn. rewrite Hc.
  rewrite IH by exact Hr. rewrite <- app_assoc. reflexivity.
Qed.

(** [' '.join(words).split() == words] for words without whitespace. *)
Lemma split_join (ws : list string) :
  (forall w, In w ws -> chars w <> [] /\ List.Forall (fun c => is_space c = false) (chars w)) ->
  split_ws_aux (chars (join " " ws)) [] = ws.
Proof.
  induction ws as [|w ws IH]; intros Hws; [reflexivity|].
  rewrite join_cons_chars.
  destruct (Hws w (or_introl eq_refl)) as [Hne Hsp].
  rewrite split_ws_aux_word by exact Hsp. rewrite app_nil_r.
  destruct ws as [|w' ws'].
  - cbn. destruct (rev (chars w)) eqn:E.
    + apply (f_equal (@rev ascii)) in E. rewrite rev_involutive in E. contradiction.
    + rewrite <- E, rev_involutive, of_chars_chars. reflexivity.
  - cbn [split_ws_aux]. change (is_space " "%char) with true. cbv iota.
    destruct (rev (chars w)) eqn:E.
    + apply (f_equal (@rev ascii)) in E. rewrite rev_involutive in E. contradiction.
    + rewrite <- E, rev_involutive, of_chars_chars. f_equal.
      apply IH. intros v Hv. apply Hws. right. exact Hv.
Qed.

Lemma split_ws_join_split (s : string) :
  split_ws (join " " (split_ws s)) = split_ws s.
Proof.
  unfold split_ws. apply split_join. apply split_ws_aux_words. constructor.
Qed.

End WhitespaceFacts.

(* --------------------------------------------------------------------- *)
(* text_utils.py: whitespace normalisation, truncation, n-grams,         *)
(* similarities and keywords.                                            *)
(* --------------------------------------------------------------------- *)
Module TextUtilsMoreFacts.
Import PyStr TextUtilsMore WhitespaceFacts.

Lemma length_chars (s : string) : String.length s = length (chars s).
Proof. unfold chars. induction s as [|c s IH]; cbn; [reflexivity|]. rewrite IH. reflexivity. Qed.

Lemma nonempty_false (s : string) : TextUtils.nonempty s = false -> s = EmptyString.
Proof.
  unfold TextUtils.nonempty. destruct (String.eqb_spec s EmptyString); [auto|discriminate].
Qed.

Lemma nonempty_true (s : string) : TextUtils.nonempty s = true -> s <> EmptyString.
Proof.
  unfold TextUtils.nonempty. destruct (String.eqb_spec s EmptyString); [discriminate|auto].
Qed.

Lemma collapse_space_chars (l : list ascii) (b : bool) :
  List.Forall (fun c => c = " "%char \/ is_space c = false) (Regex.collapse_space l b).
Proof.
  revert b. induction l as [|c r IH]; intros b; cbn; [constructor|].
  destruct (is_space c) eqn:E.
  - destruct b; [apply IH|]. constructor; [left; reflexivity|apply IH].
  - constructor; [right; exact E|apply IH].
Qed.

Lemma no_newline (c : ascii) :
  c = " "%char \/ is_space c = false -> Ascii.eqb c newline = false.
Proof.
  intros [->|E]; [reflexivity|].
  destruct (Ascii.eqb_spec c newline) as [->|_]; [discriminate E|reflexivity].
Qed.

Lemma collapse_newlines_id (l : list ascii) (b : bool) :
  List.Forall (fun c => Ascii.eqb c newline = false) l -> collapse_newlines l b = l.
Proof.
  revert b. induction l as [|c r IH]; intros b H; [reflexivity|].
  apply List.Forall_cons_iff in H as [Hc Hr]. cbn. rewrite Hc. f_equal. apply IH, Hr.
Qed.

Lemma split_on_aux_nosep (sep : ascii) (l cur : list ascii) :
  List.Forall (fun c => Ascii.eqb c sep = false) l ->
  split_on_aux sep l cur = [of_chars (rev cur ++ l)].
Proof.
  revert cur. induction l as [|c r IH]; intros cur H; cbn.
  - rewrite app_nil_r. reflexivity.
  - apply List.Forall_cons_iff in H as [Hc Hr]. rewrite Hc, IH by exact Hr.
    cbn. rewrite <- app_assoc. reflexivity.
Qed.

Lemma drop_sp_space (l : list ascii) :
  List.Forall (fun c => c = " "%char \/ is_space c = false) l -> drop_sp l = drop_space l.
Proof.
  induction l as [|c r IH]; intros H; [reflexivity|].
  apply List.Forall_cons_iff in H as [[->|Hc] Hr]; cbn; [apply IH, Hr|].
  rewrite Hc. destruct (Ascii.eqb_spec c " ") as [->|_]; [discriminate Hc|reflexivity].
Qed.

Lemma Forall_drop_space (P : ascii -> Prop) (l : list ascii) :
  List.Forall P l -> List.Forall P (drop_space l).
Proof.
  induction l as [|c r IH]; intros H; cbn; [constructor|].
  destruct (is_space c); [|exact H]. apply IH. inversion H; assumption.
Qed.

Lemma nw_true_no_lead (l : list ascii) : drop_space (nw l true) = nw l true.
Proof.
  induction l as [|c r IH]; cbn; [reflexivity|].
  destruct (is_space c) eqn:E; [exact IH|]. cbn. rewrite E. reflexivity.
Qed.

Lemma strip_nw (l : list ascii) : strip (of_chars (nw l true)) = of_chars (nw l true).
Proof.
  unfold strip. rewrite chars_of_chars, nw_true_no_lead.
  change (rev (drop_space (rev (nw l true)))) with (rstrip (nw l true)).
  rewrite <- (rstrip_collapse l true), rstrip_idem. reflexivity.
Qed.

Lemma normalize_whitespace_join (text : string) :
  normalize_whitespace text = join " " (split_ws text).
Proof.
  unfold normalize_whitespace. destruct (TextUtils.nonempty text) eqn:Hn.
  2:{ apply nonempty_false in Hn. subst text. reflexivity. }
  cbn [negb].
  pose proof (collapse_space_chars (chars text) false) as Hf.
  rewrite collapse_newlines_id by (eapply List.Forall_impl; [apply no_newline|exact Hf]).
  rewrite split_on_aux_nosep by (eapply List.Forall_impl; [apply no_newline|exact Hf]).
  cbn [map join rev app]. rewrite chars_of_chars. unfold strip_line.
  rewrite (drop_sp_space _ Hf).
  rewrite drop_sp_space by (apply List.Forall_rev, Forall_drop_space, Hf).
  change (rev (drop_space (rev (drop_space (Regex.collapse_space (chars text) false)))))
    with (rstrip (drop_space (Regex.collapse_space (chars text) false))).
  rewrite drop_space_collapse, rstrip_collapse, nw_no_lead, nw_drop_space, strip_nw.
  rewrite <- strip_collapse_nw, strip_collapse_join. reflexivity.
Qed.

(** [normalize_whitespace(text)] is [' '.join(text.split())]: every run of
    whitespace, newlines included, becomes one space and the ends are
    stripped, so no newline survives; its words are those of [text], and
    normalizing twice gives the same string as normalizing once. *)
Theorem normalize_whitespace_words (text : string) :
  normalize_whitespace text = join " " (split_ws text)
  /\ split_ws (normalize_whitespace text) = split_ws text
  /\ normalize_whitespace (normalize_whitespace text) = normalize_whitespace text.
Proof.
  rewrite !normalize_whitespace_join, split_ws_join_split.
  split; [reflexivity|split; reflexivity].
Qed.

Lemma in_skipn_in {A : Type} (n : nat) (l : list A) (x : A) :
  In x (skipn n l) -> In x l.
Proof. intros H. rewrite <- (firstn_skipn n l). apply in_or_app. right. exact H. Qed.

Lemma in_firstn_in' {A : Type} (n : nat) (l : list A) (x : A) :
  In x (firstn n l) -> In x l.
Proof. intros H. rewrite <- (firstn_skipn n l). apply in_or_app. left. exact H. Qed.

(** [get_ngrams(text, n)]: an empty text has none; otherwise there are
    [len(words) - n + 1] of them (none when [n] exceeds the word count),
    and for [n >= 1] the [i]-th is [' '.join(words[i:i+n])], whose words
    are exactly the [n] words of [text] starting at the [i]-th. *)
Theorem get_ngrams_windows (text : string) (n : Z) :
  length (get_ngrams text n)
    = (if String.eqb text EmptyString then O
       else Z.to_nat (Z.of_nat (length (split_ws text)) - n + 1))
  /\ (1 <= n -> forall i : nat, (i + Z.to_nat n <= length (split_ws text))%nat ->
      nth_error (get_ngrams text n) i
        = Some (join " " (firstn (Z.to_nat n) (skipn i (split_ws text))))
      /\ split_ws (join " " (firstn (Z.to_nat n) (skipn i (split_ws text))))
         = firstn (Z.to_nat n) (skipn i (split_ws text))
      /\ length (firstn (Z.to_nat n) (skipn i (split_ws text))) = Z.to_nat n).
Proof.
  unfold get_ngrams. destruct (TextUtils.nonempty text) eqn:Hn.
  2:{ apply nonempty_false in Hn. subst text. cbn. split; [reflexivity|].
      intros Hn1 i Hi. lia. }
  pose proof (nonempty_true _ Hn) as Hne.
  destruct (String.eqb_spec text EmptyString) as [E|_]; [contradiction|].
  cbn [negb]. split.
  - unfold py_range. rewrite !length_map, length_seq. reflexivity.
  - intros Hn1 i Hi.
    set (words := split_ws text) in *.
    split; [|split].
    + rewrite nth_error_map. unfold py_range. rewrite nth_error_map, nth_error_seq.
      replace (Nat.ltb i (Z.to_nat (Z.of_nat (length words) - n + 1))) with true
        by (symmetry; apply Nat.ltb_lt; lia).
      cbn [option_map]. f_equal. f_equal.
      unfold py_slice, py_index.
      replace (0 + i)%nat with i by lia.
      replace (Z.of_nat i <? 0) with false by (symmetry; apply Z.ltb_ge; lia).
      replace (Z.of_nat i + n <? 0) with false by (symmetry; apply Z.ltb_ge; lia).
      rewrite (Z.min_l (Z.of_nat i)) by lia. rewrite (Z.min_l (Z.of_nat i + n)) by lia.
      replace (Z.of_nat i + n - Z.of_nat i) with n by lia.
      rewrite Nat2Z.id. reflexivity.
    + unfold split_ws at 1. apply split_join. intros w Hw.
      apply (split_ws_aux_words (chars text) []); [constructor|].
      apply (in_skipn_in i), (in_firstn_in' (Z.to_nat n)). exact Hw.
    + rewrite length_firstn, length_skipn. lia.
Qed.

Lemma get_ngrams_windows_witness :
  nth_error (get_ngrams "the quick brown fox" 2) 1
    = Some (join " " (firstn 2 (skipn 1 (split_ws "the quick brown fox")))).
Proof.
  apply (proj2 (get_ngrams_windows "the quick brown fox" 2) ltac:(lia) 1%nat
           ltac:(vm_compute; lia)).
Defined.

End TextUtilsMoreFacts.

(* --------------------------------------------------------------------- *)
(* Jaccard similarity of word sets (text_utils.py, duplicate_detector.py)*)
(* --------------------------------------------------------------------- *)
Module SimilarityFacts.
Import PyStr TextUtilsMore.

Lemma NoDup_dedup (l : list string) : List.NoDup (Dedup.dedup l).
Proof.
  induction l as [|w r IH]; cbn; [constructor|].
  destruct (existsb (String.eqb w) r) eqn:E; [exact IH|].
  constructor; [|exact IH].
  rewrite DedupFacts.In_dedup. intros H.
  apply DedupFacts.mem_In in H. unfold Dedup.mem in H. congruence.
Qed.

Lemma length_filter_split {A : Type} (f : A -> bool) (l : list A) :
  (length (List.filter f l) + length (List.filter (fun x => negb (f x)) l))%nat = length l.
Proof. induction l as [|x r IH]; cbn; [reflexivity|]. destruct (f x); cbn; lia. Qed.

Lemma filter_all {A : Type} (f : A -> bool) (l : list A) :
  (forall x, In x l -> f x = true) -> List.filter f l = l.
Proof.
  induction l as [|x r IH]; intros H; cbn; [reflexivity|].
  rewrite (H x (or_introl eq_refl)). f_equal. apply IH. intros y Hy. apply H. right. exact Hy.
Qed.

Lemma filter_none {A : Type} (f : A -> bool) (l : list A) :
  (forall x, In x l -> f x = false) -> List.filter f l = [].
Proof.
  induction l as [|x r IH]; intros H; cbn; [reflexivity|].
  rewrite (H x (or_introl eq_refl)). apply IH. intros y Hy. apply H. right. exact Hy.
Qed.

Lemma inter_sym (w1 w2 : list string) :
  List.NoDup w1 -> List.NoDup w2 ->
  length (List.filter (fun w => Dedup.mem w w2) w1)
  = length (List.filter (fun w => Dedup.mem w w1) w2).
Proof.
  intros H1 H2. apply Nat.le_antisymm; apply List.NoDup_incl_length;
    try (apply List.NoDup_filter; assumption);
    intros x Hx; rewrite List.filter_In in *; destruct Hx as [Hx Hm];
    rewrite DedupFacts.mem_In in *; split; try assumption; apply DedupFacts.mem_In; assumption.
Qed.

Lemma jaccard_sym (w1 w2 : list string) :
  List.NoDup w1 -> List.NoDup w2 -> jaccard w1 w2 = jaccard w2 w1.
Proof.
  intros H1 H2. unfold jaccard.
  pose proof (inter_sym w1 w2 H1 H2) as Hi.
  pose proof (length_filter_split (fun w => Dedup.mem w w2) w1) as S1.
  pose proof (length_filter_split (fun w => Dedup.mem w w1) w2) as S2.
  cbn beta in S1, S2.
  assert (Hu : (length w1 + length (List.filter (fun w => negb (Dedup.mem w w1)) w2)
                = length w2 + length (List.filter (fun w => negb (Dedup.mem w w2)) w1))%nat)
    by lia.
  rewrite Hu, Hi. reflexivity.
Qed.

Lemma inject_Z_pos (n : nat) : (n <> 0)%nat -> (0 < inject_Z (Z.of_nat n))%Q.
Proof. intros H. change (inject_Z 0 < inject_Z (Z.of_nat n))%Q. rewrite <- Zlt_Qlt. lia. Qed.

Lemma ratio_bounds (i u : nat) :
  (u <> 0)%nat -> (i <= u)%nat ->
  (0 <= inject_Z (Z.of_nat i) / inject_Z (Z.of_nat u) <= 1)%Q.
Proof.
  intros Hu Hi. split.
  - apply Qle_shift_div_l; [apply inject_Z_pos; exact Hu|].
    rewrite Qmult_0_l. change (inject_Z 0 <= inject_Z (Z.of_nat i))%Q.
    rewrite <- Zle_Qle. lia.
  - apply Qle_shift_div_r; [apply inject_Z_pos; exact Hu|].
    rewrite Qmult_1_l. rewrite <- Zle_Qle. lia.
Qed.

Lemma jaccard_bounds (w1 w2 : list string) : (0 <= jaccard w1 w2 <= 1)%Q.
Proof.
  unfold jaccard.
  destruct (Nat.eqb_spec (length w1 + length (List.filter (fun w => negb (Dedup.mem w w1)) w2)) 0)
    as [E|E].
  - split; discriminate.
  - apply ratio_bounds; [exact E|].
    pose proof (length_filter_split (fun w => Dedup.mem w w2) w1). cbn beta in *. lia.
Qed.

Lemma jaccard_self (w : list string) : w <> [] -> (jaccard w w == 1)%Q.
Proof.
  intros Hw. unfold jaccard.
  rewrite (filter_all (fun x => Dedup.mem x w) w)
    by (intros x Hx; apply DedupFacts.mem_In; exact Hx).
  rewrite (filter_none (fun x => negb (Dedup.mem x w)) w)
    by (intros x Hx; apply negb_false_iff, DedupFacts.mem_In; exact Hx).
  cbn [length]. rewrite Nat.add_0_r.
  destruct w as [|x r]; [contradiction|].
  cbn [length Nat.eqb]. unfold Qdiv. apply Qmult_inv_r.
  intros H. unfold Qeq in H. cbn in H. lia.
Qed.

Lemma dedup_nonempty (l : list string) : l <> [] -> Dedup.dedup l <> [].
Proof.
  destruct l as [|w r]; [contradiction|]. intros _ E.
  assert (H : In w (Dedup.dedup (w :: r))) by (apply DedupFacts.In_dedup; left; reflexivity).
  rewrite E in H. destruct H.
Qed.

Lemma nonempty_of_split (t : string) : split_ws t <> [] -> TextUtils.nonempty t = true.
Proof.
  intros H. destruct (TextUtils.nonempty t) eqn:E; [reflexivity|].
  apply TextUtilsMoreFacts.nonempty_false in E. subst t. contradiction.
Qed.

(** [calculate_text_similarity(text1, text2)] lies between 0 and 1, does
    not depend on the order of its arguments, and is 1 for a text
    compared with itself as soon as it has a word (a text of whitespace
    only has similarity 0 with itself). *)
Theorem calculate_text_similarity_range (text1 text2 : string) :
  (0 <= calculate_text_similarity text1 text2 <= 1)%Q
  /\ calculate_text_similarity text1 text2 = calculate_text_similarity text2 text1
  /\ (split_ws text1 <> [] -> (calculate_text_similarity text1 text1 == 1)%Q).
Proof.
  unfold calculate_text_similarity. split; [|split].
  - destruct (_ || _); [split; discriminate|apply jaccard_bounds].
  - destruct (TextUtils.nonempty text1), (TextUtils.nonempty text2); cbn; try reflexivity.
    apply jaccard_sym; apply NoDup_dedup.
  - intros H. rewrite (nonempty_of_split _ H). cbn.
    apply jaccard_self, dedup_nonempty, H.
Qed.

Lemma calculate_text_similarity_range_witness :
  (calculate_text_similarity "the cat" "the cat" == 1)%Q.
Proof.
  apply (proj2 (proj2 (calculate_text_similarity_range "the cat" "the cat"))).
  vm_compute. discriminate.
Defined.

(** [calculate_text_similarity_ngrams(text1, text2, n)] lies between 0
    and 1, is symmetric, and is 1 for a text compared with itself as soon
    as the text has an [n]-gram. *)
Theorem text_similarity_ngrams_range (text1 text2 : string) (n : Z) :
  (0 <= calculate_text_similarity_ngrams text1 text2 n <= 1)%Q
  /\ calculate_text_similarity_ngrams text1 text2 n
     = calculate_text_similarity_ngrams text2 text1 n
  /\ (get_ngrams text1 n <> [] -> (calculate_text_similarity_ngrams text1 text1 n == 1)%Q).
Proof.
  unfold calculate_text_similarity_ngrams. split; [|split].
  - destruct (_ || _); [split; discriminate|apply jaccard_bounds].
  - destruct (TextUtils.nonempty text1), (TextUtils.nonempty text2); cbn; try reflexivity.
    apply jaccard_sym; apply NoDup_dedup.
  - intros H. destruct (TextUtils.nonempty text1) eqn:E.
    + cbn. apply jaccard_self, dedup_nonempty, H.
    + exfalso. apply H. unfold get_ngrams. rewrite E. reflexivity.
Qed.

Lemma text_similarity_ngrams_range_witness :
  (calculate_text_similarity_ngrams "a b c" "a b c" 2 == 1)%Q.
Proof.
  apply (proj2 (proj2 (text_similarity_ngrams_range "a b c" "a b c" 2))).
  vm_compute. discriminate.
Defined.

Lemma text_similarity_jaccard (text1 text2 : string) :
  Dedup.text_similarity text1 text2
  = if negb (Dedup.nonempty (Regex.clean_text text1))
       || negb (Dedup.nonempty (Regex.clean_text text2)) then 0%Q
    else match Dedup.dedup (split_ws (Regex.clean_text text1)),
               Dedup.dedup (split_ws (Regex.clean_text text2)) with
         | [], _ | _, [] => 0%Q
         | _, _ => jaccard (Dedup.dedup (split_ws (Regex.clean_text text1)))
                           (Dedup.dedup (split_ws (Regex.clean_text text2)))
         end.
Proof. reflexivity. Qed.

(** [DuplicateDetector._calculate_text_similarity(text1, text2)] lies
    between 0 and 1, is symmetric, and is 1 for a text compared with
    itself when its cleaned form (lowercased, without URLs, e-mail
    addresses, punctuation and digits) still has a word. *)
Theorem dedup_text_similarity_range (text1 text2 : string) :
  (0 <= Dedup.text_similarity text1 text2 <= 1)%Q
  /\ Dedup.text_similarity text1 text2 = Dedup.text_similarity text2 text1
  /\ (split_ws (Regex.clean_text text1) <> [] -> (Dedup.text_similarity text1 text1 == 1)%Q).
Proof.
  rewrite !text_similarity_jaccard. split; [|split].
  - destruct (_ || _); [split; discriminate|].
    destruct (Dedup.dedup (split_ws (Regex.clean_text text1))),
      (Dedup.dedup (split_ws (Regex.clean_text text2)));
      try (split; discriminate); apply jaccard_bounds.
  - destruct (Dedup.nonempty (Regex.clean_text text1)),
      (Dedup.nonempty (Regex.clean_text text2)); cbn; try reflexivity.
    pose proof (NoDup_dedup (split_ws (Regex.clean_text text1))) as N1.
    pose proof (NoDup_dedup (split_ws (Regex.clean_text text2))) as N2.
    destruct (Dedup.dedup (split_ws (Regex.clean_text text1))),
      (Dedup.dedup (split_ws (Regex.clean_text text2))); try reflexivity.
    apply jaccard_sym; assumption.
  - intros H. pose proof (nonempty_of_split _ H) as E. unfold TextUtils.nonempty in E.
    change (Dedup.nonempty (Regex.clean_text text1) = true) in E. rewrite E. cbn [negb orb].
    pose proof (dedup_nonempty _ H) as D.
    destruct (Dedup.dedup (split_ws (Regex.clean_text text1))) eqn:F; [contradiction|].
    rewrite <- F. apply jaccard_self. rewrite F. discriminate.
Qed.

Lemma dedup_text_similarity_range_witness :
  (Dedup.text_similarity "Rain in Paris" "Rain in Paris" == 1)%Q.
Proof.
  apply (proj2 (proj2 (dedup_text_similarity_range "Rain in Paris" "Rain in Paris"))).
  vm_compute. discriminate.
Defined.

End SimilarityFacts.

(* --------------------------------------------------------------------- *)
(* text_utils.py: extract_keywords.                                      *)
(* --------------------------------------------------------------------- *)
Module KeywordFacts.
Import PyStr TextUtils TextUtilsMore.

(** [word_counts.get(v, 0)] on the counts list. *)
Fixpoint cnt (g : list (string * nat)) (v : string) : nat :=
  match g with
  | [] => O
  | (k, c) :: r => if String.eqb v k then c else cnt r v
  end.

Lemma keys_bump (w : string) (g : list (string * nat)) :
  map fst (bump w g)
  = if existsb (String.eqb w) (map fst g) then map fst g else map fst g ++ [w].
Proof.
  induction g as [|[k c] r IH]; cbn; [reflexivity|].
  destruct (String.eqb w k); cbn; [reflexivity|]. rewrite IH.
  destruct (existsb (String.eqb w) (map fst r)); reflexivity.
Qed.

Lemma cnt_bump (w v : string) (g : list (string * nat)) :
  cnt (bump w g) v = (cnt g v + if String.eqb v w then 1 else 0)%nat.
Proof.
  induction g as [|[k c] r IH]; cbn.
  - destruct (String.eqb v w); reflexivity.
  - destruct (String.eqb_spec w k) as [<-|Hwk]; cbn.
    + destruct (String.eqb v w); lia.
    + rewrite IH. destruct (String.eqb_spec v k) as [->|]; [|reflexivity].
      destruct (String.eqb_spec k w); [congruence|lia].
Qed.

Lemma cnt_In (g : list (string * nat)) (v : string) (c : nat) :
  List.NoDup (map fst g) -> In (v, c) g -> cnt g v = c.
Proof.
  induction g as [|[k c'] r IH]; intros Hn Hin; [destruct Hin|].
  cbn in Hn. apply List.NoDup_cons_iff in Hn as [Hk Hr].
  destruct Hin as [E|Hin].
  - injection E as -> ->. cbn. rewrite String.eqb_refl. reflexivity.
  - cbn. destruct (String.eqb_spec v k) as [->|_].
    + exfalso. apply Hk. apply (in_map fst) in Hin. exact Hin.
    + apply IH; assumption.
Qed.

Lemma NoDup_snoc (l : list string) (w : string) :
  List.NoDup l -> ~ In w l -> List.NoDup (l ++ [w]).
Proof.
  intros Hn Hw. apply List.NoDup_app; [exact Hn|repeat constructor; intros []|].
  intros a Ha [<-|[]]. contradiction.
Qed.

(** The [word_counts] loop: counts, keys in first-seen order, no key twice. *)
Lemma fold_bump (ws : list string) (g : list (string * nat)) :
  let g' := fold_left (fun g w => bump w g) ws g in
  (forall v, cnt g' v = cnt g v + count_occ string_dec ws v)%nat
  /\ (forall v, In v (map fst g') <-> In v (map fst g) \/ In v ws)
  /\ (List.NoDup (map fst g) -> List.NoDup (map fst g')).
Proof.
  revert g. induction ws as [|w r IH]; intros g; cbn [fold_left].
  - split; [intros v; cbn; lia|split; [intros v; cbn; tauto|tauto]].
  - destruct (IH (bump w g)) as [H1 [H2 H3]]. split; [|split].
    + intros v. rewrite H1, cnt_bump. cbn [count_occ].
      destruct (String.eqb_spec v w), (string_dec w v); subst; try congruence; lia.
    + intros v. rewrite H2, keys_bump.
      destruct (existsb (String.eqb w) (map fst g)) eqn:E.
      * apply existsb_exists in E as [x [Hx Ex]]. apply String.eqb_eq in Ex. subst x.
        cbn. intuition (subst; auto).
      * rewrite in_app_iff. cbn. tauto.
    + intros Hn. apply H3. rewrite keys_bump.
      destruct (existsb (String.eqb w) (map fst g)) eqn:E; [exact Hn|].
      apply NoDup_snoc; [exact Hn|]. intros Hin.
      assert (existsb (String.eqb w) (map fst g) = true)
        by (apply existsb_exists; exists w; split; [exact Hin|apply String.eqb_refl]).
      congruence.
Qed.

Lemma StronglySorted_app_l {A : Type} (R : A -> A -> Prop) (l1 l2 : list A) :
  StronglySorted R (l1 ++ l2) -> StronglySorted R l1.
Proof.
  induction l1 as [|x r IH]; cbn; intros H; [constructor|].
  apply StronglySorted_inv in H as [H1 H2]. constructor; [apply IH; exact H1|].
  rewrite List.Forall_forall in *. intros y Hy. apply H2, in_or_app. left. exact Hy.
Qed.

Lemma StronglySorted_map_rel {A B : Type} (R : A -> A -> Prop) (R' : B -> B -> Prop)
  (f : A -> B) (l : list A) :
  (forall x y, In x l -> In y l -> R x y -> R' (f x) (f y)) ->
  StronglySorted R l -> StronglySorted R' (map f l).
Proof.
  intros HR H. induction H as [|x r Hr IH Hx]; cbn; constructor.
  - apply IH. intros a b Ha Hb. apply HR; right; assumption.
  - rewrite List.Forall_forall in *. intros y Hy. apply in_map_iff in Hy as [z [<- Hz]].
    apply HR; [left; reflexivity|right; exact Hz|apply Hx; exact Hz].
Qed.

(** [extract_keywords(text, max_keywords, min_word_length)], for
    [max_keywords >= 0]: the candidates are the words of the lowercased
    text without special characters that have at least
    [min_word_length] characters.  The keywords are distinct candidates,
    as many as [max_keywords] allows of the distinct candidates, listed
    by decreasing number of occurrences, and no candidate left out occurs
    more often than a keyword. *)
Theorem extract_keywords_top (text : string) (max_keywords min_word_length : Z) :
  0 <= max_keywords ->
  let cands := keyword_candidates text min_word_length in
  let kws := extract_keywords text max_keywords min_word_length in
  List.NoDup kws
  /\ (forall k, In k kws -> In k cands)
  /\ length kws = Nat.min (Z.to_nat max_keywords) (length (Dedup.dedup cands))
  /\ StronglySorted
       (fun k k' => count_occ string_dec cands k' <= count_occ string_dec cands k)%nat kws
  /\ (forall k w, In k kws -> In w cands -> ~ In w kws ->
        (count_occ string_dec cands w <= count_occ string_dec cands k)%nat).
Proof.
  intros Hm cands kws.
  set (le := fun x y : string * nat => (snd x <=? snd y)%nat).
  set (counts := fold_left (fun g w => bump w g) cands []).
  set (sorted := sort_desc le counts).
  assert (Hk : kws = map fst (firstn (Z.to_nat max_keywords) sorted)).
  { unfold kws, extract_keywords. destruct (nonempty text) eqn:E.
    - cbn [negb]. unfold py_take. rewrite (proj2 (Z.leb_le _ _) Hm). reflexivity.
    - apply TextUtilsMoreFacts.nonempty_false in E. subst text.
      destruct (Z.to_nat max_keywords); reflexivity. }
  rewrite Hk. clear Hk kws.
  destruct (fold_bump cands []) as [Hc [Hkeys Hnd]].
  fold counts in Hc, Hkeys, Hnd. specialize (Hnd (List.NoDup_nil _)).
  assert (Hin : forall p, In p sorted <-> In p counts).
  { intros p. unfold sorted, sort_desc. rewrite TextUtilsFacts.In_sort_desc_aux. cbn. tauto. }
  assert (Hsnd : forall p, In p counts -> snd p = count_occ string_dec cands (fst p)).
  { intros [v c] Hp. cbn. rewrite <- (cnt_In counts v c Hnd Hp), Hc. reflexivity. }
  assert (Hss : StronglySorted (fun x y : string * nat => (snd y <= snd x)%nat) sorted).
  { apply TextUtilsFacts.sorted_sort_desc.
    - intros x y z; lia.
    - intros x y E. apply Nat.leb_le in E. exact E.
    - intros x y E. apply Nat.leb_gt in E. lia. }
  assert (Hns : List.NoDup (map fst sorted)).
  { apply (List.NoDup_incl_NoDup (l := map fst counts)); [exact Hnd| |].
    - unfold sorted. rewrite !length_map, TextUtilsFacts.length_sort_desc. lia.
    - intros x Hx. apply in_map_iff in Hx as [p [<- Hp]]. apply in_map, Hin, Hp. }
  set (n := Z.to_nat max_keywords).
  split; [|split; [|split; [|split]]].
  - rewrite <- firstn_map.
    apply (List.NoDup_app_remove_r _ (skipn n (map fst sorted))).
    rewrite firstn_skipn. exact Hns.
  - intros k Hk. apply in_map_iff in Hk as [p [<- Hp]].
    apply TextUtilsMoreFacts.in_firstn_in', Hin in Hp. apply (in_map fst) in Hp.
    apply Hkeys in Hp as [[]|H]. exact H.
  - rewrite length_map, length_firstn. unfold sorted.
    rewrite TextUtilsFacts.length_sort_desc. f_equal.
    rewrite <- (length_map fst counts).
    assert (HD : forall v, In v (map fst counts) <-> In v (Dedup.dedup cands)).
    { intros v. rewrite Hkeys, DedupFacts.In_dedup. cbn. tauto. }
    apply Nat.le_antisymm; apply List.NoDup_incl_length;
      try exact Hnd; try apply SimilarityFacts.NoDup_dedup; intros v Hv; apply HD, Hv.
  - apply (StronglySorted_map_rel (fun x y : string * nat => (snd y <= snd x)%nat)).
    + intros x y Hx Hy Hxy.
      apply TextUtilsMoreFacts.in_firstn_in', Hin in Hx, Hy.
      rewrite <- (Hsnd x Hx), <- (Hsnd y Hy). exact Hxy.
    + apply (StronglySorted_app_l _ _ (skipn n sorted)). rewrite firstn_skipn. exact Hss.
  - intros k w Hk Hw Hnot.
    apply in_map_iff in Hk as [pk [<- Hpk]].
    assert (Hw' : In w (map fst counts)) by (apply Hkeys; right; exact Hw).
    apply in_map_iff in Hw' as [pw [<- Hpw]].
    rewrite <- (Hsnd pw Hpw), <- (Hsnd pk (proj1 (Hin pk) (TextUtilsMoreFacts.in_firstn_in' _ _ _ Hpk))).
    apply Hin in Hpw. rewrite <- (firstn_skipn n sorted) in Hpw.
    apply in_app_or in Hpw as [Hpw|Hpw].
    + exfalso. apply Hnot. apply in_map. exact Hpw.
    + rewrite <- (firstn_skipn n sorted) in Hss.
      exact (TextUtilsFacts.StronglySorted_app_cross _ _ _ _ _ Hss Hpk Hpw).
Qed.

Lemma extract_keywords_top_witness :
  extract_keywords "Rain, rain and more rain; the sun comes later." 2 4
    = ["rain"; "more"]%string
  /\ List.NoDup (extract_keywords "Rain, rain and more rain; the sun comes later." 2 4).
Proof.
  split; [vm_compute; reflexivity|].
  apply (proj1 (extract_keywords_top "Rain, rain and more rain; the sun comes later." 2 4
                  ltac:(lia))).
Defined.

End KeywordFacts.

(* --------------------------------------------------------------------- *)
(* duplicate_detector.py: the fuzzy strategy picks the best candidate.   *)
(* --------------------------------------------------------------------- *)
Module DedupMoreFacts.
Import Py Dedup.

(** The similarity [_check_fuzzy_match] computes for one candidate. *)
Definition csim (det : DuplicateDetector) (a c : article) : outcome Q :=
  calculate_similarity det (dict_get a "title" (PStr "")) (dict_get a "content" (PStr ""))
    (dict_get c "title" (PStr "")) (dict_get c "content" (PStr "")).

Lemma csim_skipped (det : DuplicateDetector) (t c ct cc : pyval) :
  truthy ct = false -> truthy cc = false -> calculate_similarity det t c ct cc = Ok 0%Q.
Proof.
  intros H1 H2. unfold calculate_similarity. rewrite H1, H2.
  destruct (truthy t), (truthy c); reflexivity.
Qed.

Lemma qltb_true (a b : Q) : qltb a b = true -> (a < b)%Q.
Proof.
  unfold qltb. intros H. apply negb_true_iff in H. apply Qnot_le_lt.
  intros Hq. apply Qle_bool_iff in Hq. congruence.
Qed.

Lemma qltb_false (a b : Q) : qltb a b = false -> (b <= a)%Q.
Proof. unfold qltb. intros H. apply negb_false_iff in H. apply Qle_bool_iff. exact H. Qed.

Section Loop.
Variables (det : DuplicateDetector) (t c : pyval).

Let sim_of (x : article) : outcome Q :=
  calculate_similarity det t c (dict_get x "title" (PStr "")) (dict_get x "content" (PStr "")).
Let skipped (x : article) : Prop :=
  truthy (dict_get x "title" (PStr "")) = false /\ truthy (dict_get x "content" (PStr "")) = false.

Lemma fuzzy_loop_max (cands : list article) :
  forall best bid b' id',
  fuzzy_loop det t c cands best bid = Ok (b', id') ->
  (best <= b')%Q
  /\ (forall x, In x cands -> forall s, sim_of x = Ok s ->
        skipped x \/ (s <= similarity_threshold det)%Q \/ (s <= b')%Q).
Proof.
  unfold sim_of, skipped.
  induction cands as [|x rest IH]; intros best bid b' id' H; cbn [fuzzy_loop] in H.
  - injection H as <- <-. split; [apply Qle_refl|intros _ []].
  - destruct (negb (truthy (dict_get x "title" (PStr "")))
              && negb (truthy (dict_get x "content" (PStr "")))) eqn:Sk.
    + destruct (IH _ _ _ _ H) as [Hb Hall]. split; [exact Hb|].
      intros y [<-|Hy] s Hs; [|apply Hall; assumption].
      left. apply andb_true_iff in Sk as [S1 S2].
      apply negb_true_iff in S1, S2. split; assumption.
    + destruct (calculate_similarity det t c (dict_get x "title" (PStr ""))
                  (dict_get x "content" (PStr ""))) as [sim|e] eqn:Hsim;
        cbn [bind] in H; [|discriminate].
      destruct (qltb (similarity_threshold det) sim && qltb best sim) eqn:U.
      * destruct (getitem x "id") as [cid|e] eqn:Hid; cbn [bind] in H; [|discriminate].
        destruct (IH _ _ _ _ H) as [Hb Hall].
        apply andb_true_iff in U as [U1 U2]. apply qltb_true in U1, U2.
        split; [apply Qlt_le_weak; eapply Qlt_le_trans; eassumption|].
        intros y [<-|Hy] s Hs; [|apply Hall; assumption].
        rewrite Hsim in Hs. injection Hs as <-. right. right. exact Hb.
      * destruct (IH _ _ _ _ H) as [Hb Hall]. split; [exact Hb|].
        intros y [<-|Hy] s Hs; [|apply Hall; assumption].
        rewrite Hsim in Hs. injection Hs as <-. right.
        apply andb_false_iff in U as [U|U]; apply qltb_false in U;
          [left; exact U|right; eapply Qle_trans; eassumption].
Qed.

Lemma fuzzy_loop_choice (cands : list article) :
  forall best bid b' id',
  fuzzy_loop det t c cands best bid = Ok (b', id') ->
  (b' = best /\ id' = bid)
  \/ exists pre x post, cands = pre ++ x :: post
       /\ sim_of x = Ok b' /\ (similarity_threshold det < b')%Q /\ (best < b')%Q
       /\ getitem x "id" = Ok id'
       /\ (forall y, In y pre -> forall s, sim_of y = Ok s ->
             skipped y \/ (s <= similarity_threshold det)%Q \/ (s < b')%Q).
Proof.
  unfold sim_of, skipped.
  induction cands as [|x rest IH]; intros best bid b' id' H; cbn [fuzzy_loop] in H.
  - injection H as <- <-. left. split; reflexivity.
  - destruct (negb (truthy (dict_get x "title" (PStr "")))
              && negb (truthy (dict_get x "content" (PStr "")))) eqn:Sk.
    + destruct (IH _ _ _ _ H) as [L|[pre [z [post [E [Hs [Ht [Hb [Hid Hpre]]]]]]]]];
        [left; exact L|right].
      exists (x :: pre), z, post. rewrite E.
      split; [reflexivity|]. do 4 (split; [assumption|]).
      intros y [<-|Hy] s Hys; [|apply Hpre; assumption].
      left. apply andb_true_iff in Sk as [S1 S2].
      apply negb_true_iff in S1, S2. split; assumption.
    + destruct (calculate_similarity det t c (dict_get x "title" (PStr ""))
                  (dict_get x "content" (PStr ""))) as [sim|e] eqn:Hsim;
        cbn [bind] in H; [|discriminate].
      destruct (qltb (similarity_threshold det) sim && qltb best sim) eqn:U.
      * destruct (getitem x "id") as [cid|e] eqn:Hid; cbn [bind] in H; [|discriminate].
        apply andb_true_iff in U as [U1 U2]. apply qltb_true in U1, U2.
        right.
        destruct (IH _ _ _ _ H) as [[-> ->]|[pre [z [post [E [Hs [Ht [Hb [Hid' Hpre]]]]]]]]].
        -- exists [], x, rest. split; [reflexivity|].
           split; [exact Hsim|]. split; [exact U1|]. split; [exact U2|].
           split; [exact Hid|]. intros y [].
        -- exists (x :: pre), z, post. rewrite E. split; [reflexivity|].
           split; [exact Hs|]. split; [exact Ht|].
           split; [eapply Qlt_trans; eassumption|]. split; [exact Hid'|].
           intros y [<-|Hy] s Hys; [|apply Hpre; assumption].
           rewrite Hsim in Hys. injection Hys as <-. right. right. exact Hb.
      * destruct (IH _ _ _ _ H) as [L|[pre [z [post [E [Hs [Ht [Hb [Hid Hpre]]]]]]]]];
          [left; exact L|right].
        exists (x :: pre), z, post. rewrite E.
        split; [reflexivity|]. do 4 (split; [assumption|]).
        intros y [<-|Hy] s Hys; [|apply Hpre; assumption].
        rewrite Hsim in Hys. injection Hys as <-. right.
        apply andb_false_iff in U as [U|U]; apply qltb_false in U;
          [left; exact U|right; eapply Qle_lt_trans; eassumption].
Qed.
End Loop.

(** [_check_fuzzy_match(article, candidates)] reports a duplicate
    [(True, cid)] only for the candidate of highest similarity: its
    similarity exceeds the threshold (and 0), no candidate scores more,
    every candidate before it scores strictly less (ties go to the
    first), and [cid] is its "id", which is truthy.  So when the best
    candidate has a falsy id, no duplicate is reported even if another
    candidate is above the threshold. *)
Theorem check_fuzzy_match_best (det : DuplicateDetector) (a : article)
  (cands : list article) (cid : pyval) :
  check_fuzzy_match det a cands = Ok (true, cid) ->
  truthy cid = true
  /\ exists pre cand post sim,
       cands = pre ++ cand :: post
       /\ getitem cand "id" = Ok cid
       /\ csim det a cand = Ok sim
       /\ (similarity_threshold det < sim)%Q /\ (0 < sim)%Q
       /\ (forall x, In x pre -> forall s, csim det a x = Ok s -> (s < sim)%Q)
       /\ (forall x, In x cands -> forall s, csim det a x = Ok s -> (s <= sim)%Q).
Proof.
  unfold check_fuzzy_match, csim.
  set (t := dict_get a "title" (PStr "")). set (c := dict_get a "content" (PStr "")).
  destruct (negb (truthy t) && negb (truthy c)); [discriminate|].
  destruct (fuzzy_loop det t c cands 0 PNone) as [[b' id']|e] eqn:L; cbn [bind]; [|discriminate].
  cbn [snd]. destruct (truthy id') eqn:T; [|discriminate].
  intros H. injection H as <-. split; [exact T|].
  destruct (fuzzy_loop_max det t c cands _ _ _ _ L) as [H0 Hall].
  destruct (fuzzy_loop_choice det t c cands _ _ _ _ L)
    as [[_ ->]|[pre [x [post [E [Hs [Ht [Hb [Hid Hpre]]]]]]]]]; [discriminate T|].
  exists pre, x, post, b'. split; [exact E|]. split; [exact Hid|].
  split; [exact Hs|]. split; [exact Ht|]. split; [exact Hb|]. split.
  - intros y Hy s Hys.
    destruct (Hpre y Hy s Hys) as [[S1 S2]|[Hle|Hlt]].
    + rewrite (csim_skipped det t c _ _ S1 S2) in Hys. injection Hys as <-. exact Hb.
    + eapply Qle_lt_trans; eassumption.
    + exact Hlt.
  - intros y Hy s Hys.
    destruct (Hall y Hy s Hys) as [[S1 S2]|[Hle|Hle]].
    + rewrite (csim_skipped det t c _ _ S1 S2) in Hys. injection Hys as <-. exact H0.
    + apply Qlt_le_weak. eapply Qle_lt_trans; eassumption.
    + exact Hle.
Qed.

Definition rain_in_paris : article := [("title", PStr "Rain in Paris")].

Definition rain_candidates : list article :=
  [[("id", PInt 3); ("title", PStr "Sun in Rome")];
   [("id", PInt 7); ("title", PStr "Rain in Paris")]].

Lemma check_fuzzy_match_best_witness :
  check_fuzzy_match default_detector rain_in_paris rain_candidates = Ok (true, PInt 7)
  /\ truthy (PInt 7) = true.
Proof.
  assert (H : check_fuzzy_match default_detector rain_in_paris rain_candidates
              = Ok (true, PInt 7)) by (vm_compute; reflexivity).
  split; [exact H|].
  exact (proj1 (check_fuzzy_match_best default_detector rain_in_paris rain_candidates
                  (PInt 7) H)).
Defined.

End DedupMoreFacts.

(* --------------------------------------------------------------------- *)
(* sentiment_analyzer.py: the analyzers, their combination and process.  *)
(* --------------------------------------------------------------------- *)
Module SentimentMoreFacts.
Import Py PyStr SentimentMore.

(** [_clean_text] leaves words separated by single spaces. *)
Lemma clean_text_words (text : string) :
  clean_text text = join " " (split_ws (clean_text text)).
Proof.
  unfold clean_text. rewrite WhitespaceFacts.strip_collapse_join.
  unfold split_ws at 1. rewrite WhitespaceFacts.split_join; [reflexivity|].
  apply WhitespaceFacts.split_ws_aux_words. constructor.
Qed.

(** [_prepare_text(article)]: the text handed to the analyzers is made of
    words separated by single spaces, with nothing around them; a truthy
    title that is not a str makes [' '.join] raise TypeError when titles
    are used. *)
Theorem prepare_text_clean (sa : SentimentAnalyzer) (a : list (string * pyval)) :
  (forall text, prepare_text sa a = Ok text -> text = join " " (split_ws text))
  /\ (sa_use_title sa = true -> truthy (dict_get a "title" PNone) = true ->
      (forall s, dict_get a "title" PNone <> PStr s) -> prepare_text sa a = Raise TypeError).
Proof.
  unfold prepare_text. split.
  - intros text H.
    destruct (py_join " " _) as [s|e]; cbn [bind] in H; [|discriminate].
    injection H as <-. apply clean_text_words.
  - intros Hu Ht Hs. rewrite Hu, Ht. cbn [andb app].
    destruct (dict_get a "title" PNone) eqn:E; try reflexivity.
    exfalso. apply (Hs s). reflexivity.
Qed.

Definition demo_analyzer : SentimentAnalyzer :=
  {| sa_enabled := true; sa_min_content_length := 10; sa_default_language := PStr "en";
     sa_use_title := true; sa_use_content := true; vader_ready := true;
     textblob_ready := true; transformers_ready := true; sa_override_existing := false |}.

Definition demo_article : list (string * pyval) :=
  [("title", PStr "Great   news"); ("content", PStr "Visit https://x.example now")].

Lemma prepare_text_clean_witness :
  prepare_text demo_analyzer demo_article = Ok "Great news Great news Great news Visit now"%string
  /\ "Great news Great news Great news Visit now"%string
     = join " " (split_ws "Great news Great news Great news Visit now").
Proof.
  assert (H : prepare_text demo_analyzer demo_article
              = Ok "Great news Great news Great news Visit now"%string)
    by (vm_compute; reflexivity).
  split; [exact H|].
  exact (proj1 (prepare_text_clean demo_analyzer demo_article) _ H).
Defined.

(** [_analyze_with_textblob]: a polarity above 0.1 is "positive", below
    -0.1 "negative", otherwise "neutral"; the confidence is [abs]
    of the polarity, so the label is "neutral" exactly when the
    confidence is at most 0.1.  A failing TextBlob gives ("neutral", 0). *)
Theorem textblob_labels (polarity : outcome Q) :
  let r := analyze_with_textblob polarity in
  (fst r = "neutral"%string <-> (snd r <= 1 # 10)%Q)
  /\ (fst r = "positive"%string <-> exists p, polarity = Ok p /\ (1 # 10 < p)%Q)
  /\ (fst r = "negative"%string <-> exists p, polarity = Ok p /\ (p < - (1 # 10))%Q)
  /\ (forall p, polarity = Ok p -> snd r = Qabs p).
Proof.
  cbv zeta. destruct polarity as [p|e]; cbn [analyze_with_textblob fst snd].
  - destruct (Dedup.qltb (1 # 10) p) eqn:B1;
      [|destruct (Dedup.qltb p (- (1 # 10))) eqn:B2]; cbn [fst snd].
    + apply DedupMoreFacts.qltb_true in B1.
      split; [split; [discriminate|intros H; apply Qabs_Qle_condition in H; lra]|].
      split; [split; [intros _; exists p; split; [reflexivity|exact B1]|reflexivity]|].
      split; [split; [discriminate|intros [q [E Hq]]; injection E as <-; lra]|].
      intros q E. injection E as <-. reflexivity.
    + apply DedupMoreFacts.qltb_false in B1. apply DedupMoreFacts.qltb_true in B2.
      split; [split; [discriminate|intros H; apply Qabs_Qle_condition in H; lra]|].
      split; [split; [discriminate|intros [q [E Hq]]; injection E as <-; lra]|].
      split; [split; [intros _; exists p; split; [reflexivity|exact B2]|reflexivity]|].
      intros q E. injection E as <-. reflexivity.
    + apply DedupMoreFacts.qltb_false in B1, B2.
      split; [split; [intros _; apply Qabs_Qle_condition; lra|reflexivity]|].
      split; [split; [discriminate|intros [q [E Hq]]; injection E as <-; lra]|].
      split; [split; [discriminate|intros [q [E Hq]]; injection E as <-; lra]|].
      intros q E. injection E as <-. reflexivity.
  - split; [split; [intros _; discriminate|reflexivity]|].
    split; [split; [discriminate|intros [q [E _]]; discriminate E]|].
    split; [split; [discriminate|intros [q [E _]]; discriminate E]|].
    intros q E. discriminate E.
Qed.

(** [_analyze_with_transformers]: when the model's two probabilities are
    non-negative and add up to 1, a "positive" or "negative" answer has a
    confidence above 0.6 and at most 1, while a "neutral" answer (both
    probabilities at most 0.6) has a confidence between 0.8 and 1, or 0
    when the model fails. *)
Theorem transformers_confidence (probs_of : string -> outcome (Q * Q)) (text : string) :
  (forall s p0 p1, probs_of s = Ok (p0, p1) -> (0 <= p0 /\ 0 <= p1 /\ p0 + p1 == 1)%Q) ->
  let r := analyze_with_transformers probs_of text in
  (fst r = "positive"%string \/ fst r = "negative"%string \/ fst r = "neutral"%string)
  /\ (fst r <> "neutral"%string -> (6 # 10 < snd r <= 1)%Q)
  /\ (fst r = "neutral"%string -> snd r = 0%Q \/ (8 # 10 <= snd r <= 1)%Q).
Proof.
  intros Hp. cbv zeta. unfold analyze_with_transformers.
  set (t := if (512 <? length (split_ws text))%nat
            then join " " (firstn 512 (split_ws text)) else text).
  destruct (probs_of t) as [[p0 p1]|e] eqn:E.
  - destruct (Hp _ _ _ E) as [H0 [H1 Hs]].
    destruct (Dedup.qltb (6 # 10) p1) eqn:B1;
      [|destruct (Dedup.qltb (6 # 10) p0) eqn:B2]; cbn [fst snd].
    + apply DedupMoreFacts.qltb_true in B1.
      split; [left; reflexivity|]. split; [intros _; split; lra|discriminate].
    + apply DedupMoreFacts.qltb_true in B2.
      split; [right; left; reflexivity|]. split; [intros _; split; lra|discriminate].
    + apply DedupMoreFacts.qltb_false in B1, B2.
      split; [right; right; reflexivity|]. split; [intros H; contradiction H; reflexivity|].
      intros _. right.
      assert (A1 : (Qabs ((p1 - (1 # 2)) * 2) <= 2 # 10)%Q)
        by (apply Qabs_Qle_condition; split; lra).
      pose proof (Qabs_nonneg ((p1 - (1 # 2)) * 2)). split; lra.
  - cbn [fst snd]. split; [right; right; reflexivity|].
    split; [intros H; contradiction H; reflexivity|]. intros _. left. reflexivity.
Qed.

Lemma transformers_confidence_witness :
  analyze_with_transformers (fun _ => Ok (3 # 10, 7 # 10)) "good news"
    = ("positive"%string, 7 # 10)
  /\ (6 # 10 < snd (analyze_with_transformers (fun _ => Ok (3 # 10, 7 # 10)) "good news")
      <= 1)%Q.
Proof.
  split; [vm_compute; reflexivity|].
  refine (proj1 (proj2 (transformers_confidence (fun _ => Ok (3 # 10, 7 # 10)) "good news" _))
            ltac:(vm_compute; discriminate)).
  intros s p0 p1 H. injection H as <- <-.
  split; [|split]; vm_compute; [intros H; discriminate|intros H; discriminate|reflexivity].
Defined.

Definition label3 (s : string) : Prop :=
  s = "positive"%string \/ s = "negative"%string \/ s = "neutral"%string.

Lemma vader_label (p : outcome Q) : label3 (fst (Sentiment.analyze_with_vader p)).
Proof.
  unfold label3. destruct p as [c|e]; cbn; [|auto].
  destruct (Qle_bool (1 # 20) c); [auto|]. destruct (Qle_bool c (- (1 # 20))); auto.
Qed.

Lemma textblob_label (p : outcome Q) : label3 (fst (analyze_with_textblob p)).
Proof.
  unfold label3. destruct p as [c|e]; cbn; [|auto].
  destruct (Dedup.qltb (1 # 10) c); [auto|]. destruct (Dedup.qltb c (- (1 # 10))); auto.
Qed.

Lemma transformers_label (f : string -> outcome (Q * Q)) (text : string) :
  label3 (fst (analyze_with_transformers f text)).
Proof.
  unfold label3, analyze_with_transformers.
  destruct (f _) as [[p0 p1]|e]; cbn; [|auto].
  destruct (Dedup.qltb (6 # 10) p1); [auto|]. destruct (Dedup.qltb (6 # 10) p0); cbn; auto.
Qed.

Lemma results_labels (sa : SentimentAnalyzer) (ms : Models) (language : pyval) (text : string) :
  forall r, In r (sentiment_results sa ms language text) -> label3 (fst r).
Proof.
  intros r Hr. unfold sentiment_results in Hr.
  apply in_app_or in Hr as [Hr|Hr]; [|apply in_app_or in Hr as [Hr|Hr]];
    match type of Hr with In _ (if ?b then _ else _) => destruct b end;
    (destruct Hr as [<-|[]] || destruct Hr);
    first [apply vader_label|apply textblob_label|apply transformers_label].
Qed.

Definition conf_ge (x y : string * Q) : Prop := (snd y <= snd x)%Q.

Lemma sort_by_conf (l : list (string * Q)) :
  (forall p, In p (TextUtils.sort_desc (fun x y => Qle_bool (snd x) (snd y)) l) <-> In p l)
  /\ StronglySorted conf_ge (TextUtils.sort_desc (fun x y => Qle_bool (snd x) (snd y)) l)
  /\ length (TextUtils.sort_desc (fun x y => Qle_bool (snd x) (snd y)) l) = length l.
Proof.
  split; [|split].
  - intros p. unfold TextUtils.sort_desc. rewrite TextUtilsFacts.In_sort_desc_aux. cbn. tauto.
  - apply TextUtilsFacts.sorted_sort_desc.
    + intros x y z Hxy Hyz. unfold conf_ge in *. eapply Qle_trans; eassumption.
    + intros x y E. apply Qle_bool_imp_le. exact E.
    + intros x y E. unfold conf_ge. apply Qlt_le_weak, Qnot_le_lt.
      intros Hle. apply Qle_bool_iff in Hle. congruence.
  - apply TextUtilsFacts.length_sort_desc.
Qed.

(** [_analyze_sentiment(article, language)]: an exception of
    [_prepare_text] escapes; otherwise, with no analyzer available the
    answer is ("neutral", 0.0), and else it is one of the analyzers'
    results with the highest confidence. *)
Theorem analyze_sentiment_best (sa : SentimentAnalyzer) (ms : Models)
  (a : list (string * pyval)) (language : pyval) :
  (forall e, prepare_text sa a = Raise e -> analyze_sentiment sa ms a language = Raise e)
  /\ (forall text, prepare_text sa a = Ok text ->
      let rs := sentiment_results sa ms language text in
      (rs = [] -> analyze_sentiment sa ms a language = Ok ("neutral"%string, 0%Q))
      /\ (rs <> [] -> exists top, analyze_sentiment sa ms a language = Ok top
            /\ In top rs /\ (forall r, In r rs -> (snd r <= snd top)%Q))).
Proof.
  unfold analyze_sentiment. split.
  - intros e H. rewrite H. reflexivity.
  - intros text H. rewrite H. cbv zeta. cbn [bind].
    destruct (sort_by_conf (sentiment_results sa ms language text)) as [Hin [Hs Hl]].
    split.
    + intros E. rewrite E. reflexivity.
    + intros Hne.
      destruct (TextUtils.sort_desc _ (sentiment_results sa ms language text))
        as [|top rest] eqn:S.
      * exfalso. apply Hne. apply length_zero_iff_nil. rewrite <- Hl. reflexivity.
      * exists top. split; [reflexivity|]. split; [apply Hin; left; reflexivity|].
        intros r Hr. apply Hin in Hr as [<-|Hr]; [apply Qle_refl|].
        apply StronglySorted_inv in Hs as [_ Hf]. rewrite List.Forall_forall in Hf.
        apply (Hf r Hr).
Qed.

Definition demo_models : Models :=
  {| polarity_scores := fun _ => Ok (1 # 2);
     textblob_polarity := fun _ => Ok (3 # 10);
     transformers_probs := fun _ => Ok (1 # 10, 9 # 10) |}.

Lemma analyze_sentiment_best_witness :
  analyze_sentiment demo_analyzer demo_models demo_article (PStr "en")
    = Ok ("positive"%string, 9 # 10)
  /\ exists top, analyze_sentiment demo_analyzer demo_models demo_article (PStr "en") = Ok top
       /\ In top (sentiment_results demo_analyzer demo_models (PStr "en")
                    "Great news Great news Great news Visit now")
       /\ (forall r, In r (sentiment_results demo_analyzer demo_models (PStr "en")
                            "Great news Great news Great news Visit now") ->
             (snd r <= snd top)%Q).
Proof.
  split; [vm_compute; reflexivity|].
  apply (proj2 (proj2 (analyze_sentiment_best demo_analyzer demo_models demo_article (PStr "en"))
                  "Great news Great news Great news Visit now" ltac:(vm_compute; reflexivity))).
  vm_compute. discriminate.
Defined.

Lemma analyze_sentiment_label (sa : SentimentAnalyzer) (ms : Models)
  (a : list (string * pyval)) (language : pyval) (s : string) (c : Q) :
  analyze_sentiment sa ms a language = Ok (s, c) -> label3 s.
Proof.
  unfold analyze_sentiment. destruct (prepare_text sa a) as [text|e]; cbn [bind]; [|discriminate].
  destruct (sort_by_conf (sentiment_results sa ms language text)) as [Hin _].
  destruct (TextUtils.sort_desc _ (sentiment_results sa ms language text)) as [|top rest] eqn:S.
  - intros H. injection H as <- _. right. right. reflexivity.
  - intros H. injection H as ->.
    apply (results_labels sa ms language text (s, c)). apply Hin. left. reflexivity.
Qed.

(** [SentimentAnalyzer.process(article)] changes no key other than
    "sentiment" and "metadata", and "sentiment" is either left as it was
    or set to "positive", "negative" or "neutral". *)
Theorem sentiment_process_keys (sa : SentimentAnalyzer) (ms : Models)
  (a : list (string * pyval)) :
  (forall k, k <> "sentiment"%string -> k <> "metadata"%string ->
     assoc_get k (process sa ms a) = assoc_get k a)
  /\ (assoc_get "sentiment" (process sa ms a) = assoc_get "sentiment" a
      \/ exists s, assoc_get "sentiment" (process sa ms a) = Some (PStr s) /\ label3 s).
Proof.
  unfold process.
  destruct (negb (sa_enabled sa)); [split; [reflexivity|left; reflexivity]|].
  destruct (_ && negb (sa_override_existing sa)); [split; [reflexivity|left; reflexivity]|].
  destruct (negb (truthy (dict_get a "content" PNone)) && _);
    [split; [reflexivity|left; reflexivity]|].
  destruct (if truthy (dict_get a "content" PNone) then _ else _) as [[|]|e];
    try (split; [reflexivity|left; reflexivity]).
  destruct (analyze_sentiment sa ms a _) as [[s c]|e] eqn:An;
    [|split; [reflexivity|left; reflexivity]].
  pose proof (analyze_sentiment_label _ _ _ _ _ _ An) as Hl.
  destruct (assoc_get "metadata" (assoc_set "sentiment" (PStr s) a));
    match goal with |- context [match assoc_get "metadata" ?x with _ => _ end] =>
      destruct (assoc_get "metadata" x) as [[]|] end;
    (split;
     [intros k Hk1 Hk2; rewrite ?ClassifierFacts.assoc_get_set_other by congruence; reflexivity
     |right; exists s; split; [|exact Hl];
      rewrite ?ClassifierFacts.assoc_get_set_other by discriminate;
      apply ClassifierFacts.assoc_get_set_same]).
Qed.

End SentimentMoreFacts.

(* --------------------------------------------------------------------- *)
(* rate_limit.py: Retry-After, memory bound, cleanup, per-client view.   *)
(* --------------------------------------------------------------------- *)
Module RateLimitMoreFacts.
Import Py RateLimit RateLimitMore.

Lemma history_insert_other (rl : RateLimiter) (ip ip' : string) (l : list Q) :
  ip' <> ip -> history (with_requests rl (<[ip := l]> (requests rl))) ip' = history rl ip'.
Proof. intros H. unfold history. cbn. rewrite lookup_insert_ne by congruence. reflexivity. Qed.

Lemma fold_min_in (r : list Q) (x : Q) : In (fold_left Qmin r x) (x :: r).
Proof.
  revert x. induction r as [|y r IH]; intros x; cbn [fold_left]; [left; reflexivity|].
  destruct (IH (Qmin x y)) as [E|H].
  - rewrite <- E. unfold Qmin, GenericMinMax.gmin.
    destruct (x ?= y)%Q; [left|left|right; left]; reflexivity.
  - right. right. exact H.
Qed.

(** [is_rate_limited] as seen from one IP: its answer and the IP's new
    timestamps depend only on the limits and the timestamps of that IP
    still in the window. *)
Lemma is_rate_limited_local (rl rl' : RateLimiter) (ip : string) (t : Q) :
  rate_limit rl = rate_limit rl' -> time_window rl = time_window rl' ->
  List.filter (recent rl t) (history rl ip) = List.filter (recent rl' t) (history rl' ip) ->
  fst (is_rate_limited rl ip t) = fst (is_rate_limited rl' ip t)
  /\ history (snd (is_rate_limited rl ip t)) ip = history (snd (is_rate_limited rl' ip t)) ip
  /\ rate_limit (snd (is_rate_limited rl ip t)) = rate_limit rl
  /\ time_window (snd (is_rate_limited rl ip t)) = time_window rl.
Proof.
  intros Hl Hw Hk. unfold is_rate_limited. cbv zeta. rewrite Hk, Hl, Hw.
  destruct (rate_limit rl' <=? Z.of_nat (length (List.filter (recent rl' t) (history rl' ip)))).
  - destruct (List.filter (recent rl' t) (history rl' ip)) as [|x r];
      cbn [fst snd]; rewrite !RateLimitFacts.history_insert;
      (split; [reflexivity|split; [reflexivity|split; cbn; congruence]]).
  - cbn [fst snd]. rewrite !RateLimitFacts.history_insert.
    split; [reflexivity|split; [reflexivity|split; cbn; congruence]].
Qed.

Lemma is_rate_limited_other (rl : RateLimiter) (ip ip' : string) (t : Q) :
  ip' <> ip ->
  history (snd (is_rate_limited rl ip t)) ip' = history rl ip'
  /\ rate_limit (snd (is_rate_limited rl ip t)) = rate_limit rl
  /\ time_window (snd (is_rate_limited rl ip t)) = time_window rl.
Proof.
  intros H. unfold is_rate_limited. cbv zeta.
  destruct (_ <=? _); [destruct (List.filter _ _)|]; cbn [fst snd];
    rewrite history_insert_other by exact H; split; try split; reflexivity.
Qed.

(** [is_rate_limited(ip)]: when a client is refused, the Retry-After
    value is at least 1 and at most [time_window] seconds, provided the
    window is at least one second and no recorded request of the client
    is later than the current time. *)
Theorem retry_after_bounds (rl : RateLimiter) (ip : string) (t : Q) (retry : option Z) :
  1 <= time_window rl ->
  (forall ts, In ts (history rl ip) -> (ts <= t)%Q) ->
  fst (is_rate_limited rl ip t) = Ok (true, retry) ->
  exists r, retry = Some r /\ 1 <= r <= time_window rl.
Proof.
  intros Hw Hts H. unfold is_rate_limited in H. cbv zeta in H.
  destruct (rate_limit rl <=? _); [|discriminate].
  destruct (List.filter (recent rl t) (history rl ip)) as [|x r] eqn:K; cbn [fst] in H;
    [discriminate|].
  injection H as <-. eexists. split; [reflexivity|].
  set (oldest := fold_left Qmin r x).
  assert (Hin : In oldest (List.filter (recent rl t) (history rl ip)))
    by (rewrite K; apply fold_min_in).
  apply List.filter_In in Hin as [Hh Hr].
  specialize (Hts _ Hh).
  unfold recent in Hr. apply negb_true_iff in Hr.
  assert (Hlt : ~ (inject_Z (time_window rl) <= t - oldest)%Q)
    by (intros Hq; apply Qle_bool_iff in Hq; congruence).
  apply Qnot_le_lt in Hlt.
  set (q := (inject_Z (time_window rl) - (t - oldest))%Q).
  assert (Hq0 : (0 <= q)%Q) by (unfold q; lra).
  assert (Hqw : (q <= inject_Z (time_window rl))%Q) by (unfold q; lra).
  unfold py_int. replace (Qle_bool 0 q) with true by (symmetry; apply Qle_bool_iff; exact Hq0).
  pose proof (Qfloor_le q) as Hf.
  assert (Hfz : Qfloor q <= time_window rl) by (rewrite Zle_Qle; eapply Qle_trans; eassumption).
  lia.
Qed.

Definition refusing_limiter : RateLimiter :=
  {| rate_limit := 1; time_window := 60; requests := <["a" := [10%Q]]> ∅ |}%string.

Lemma retry_after_bounds_witness :
  fst (is_rate_limited refusing_limiter "a" 20) = Ok (true, Some 50)
  /\ exists r, Some 50 = Some r /\ 1 <= r <= time_window refusing_limiter.
Proof.
  assert (H : fst (is_rate_limited refusing_limiter "a" 20) = Ok (true, Some 50))
    by (vm_compute; reflexivity).
  split; [exact H|].
  apply (retry_after_bounds refusing_limiter "a" 20 (Some 50) ltac:(vm_compute; discriminate)).
  - intros ts Hts. vm_compute in Hts. destruct Hts as [<-|[]]. vm_compute. discriminate.
  - exact H.
Defined.

(** Every client's list of timestamps holds at most [rate_limit] entries. *)
Definition bounded (rl : RateLimiter) : Prop :=
  forall ip, (length (history rl ip) <= Z.to_nat (rate_limit rl))%nat.

Lemma length_filter_le {A : Type} (f : A -> bool) (l : list A) :
  (length (List.filter f l) <= length l)%nat.
Proof. pose proof (SimilarityFacts.length_filter_split f l). lia. Qed.

Lemma bounded_is_rate_limited (rl : RateLimiter) (ip : string) (t : Q) :
  bounded rl -> bounded (snd (is_rate_limited rl ip t))
  /\ rate_limit (snd (is_rate_limited rl ip t)) = rate_limit rl.
Proof.
  intros Hb. unfold is_rate_limited. cbv zeta.
  pose proof (length_filter_le (recent rl t) (history rl ip)) as Hle.
  pose proof (Hb ip) as Hip.
  destruct (rate_limit rl <=? Z.of_nat (length (List.filter (recent rl t) (history rl ip)))) eqn:C;
    [destruct (List.filter (recent rl t) (history rl ip)) as [|x r] eqn:K|];
    cbn [snd]; (split; [|reflexivity]); intros ip'; cbn [rate_limit with_requests];
    (destruct (String.eqb_spec ip' ip) as [->|Hne];
     [rewrite RateLimitFacts.history_insert|rewrite history_insert_other by exact Hne; apply Hb]).
  - apply Nat.le_0_l.
  - lia.
  - apply Z.leb_gt in C. rewrite length_app. cbn [length].
    apply Nat2Z.inj_le. rewrite Z2Nat.id by lia. lia.
Qed.

Lemma history_cleanup (rl : RateLimiter) (c : Q) (ip : string) :
  history (cleanup_pass rl c) ip = List.filter (recent rl c) (history rl ip).
Proof.
  unfold history, cleanup_pass. cbn [requests with_requests]. rewrite lookup_omap.
  destruct (requests rl !! ip) as [h|]; cbn; [|reflexivity].
  destruct (List.filter (recent rl c) h); reflexivity.
Qed.

Lemma serve_bounded (reqs : list (Request * Q)) :
  forall m, bounded (rate_limiter m) ->
  bounded (rate_limiter (snd (serve m reqs)))
  /\ rate_limit (rate_limiter (snd (serve m reqs))) = rate_limit (rate_limiter m).
Proof.
  induction reqs as [|[req t] rest IH]; intros m Hb; cbn [serve]; [split; [exact Hb|reflexivity]|].
  unfold call. destruct (excluded m req).
  - destruct (serve m rest) as [resps m2] eqn:S. cbn [snd].
    pose proof (IH m Hb) as H. rewrite S in H. exact H.
  - destruct (is_rate_limited (rate_limiter m) (client_ip req) t) as [r rl'] eqn:E.
    pose proof (bounded_is_rate_limited (rate_limiter m) (client_ip req) t Hb) as [Hb' Hl'].
    rewrite E in Hb', Hl'. cbn [snd] in Hb', Hl'.
    destruct (serve {| rate_limiter := rl'; exclude_paths := exclude_paths m |} rest)
      as [resps m2] eqn:S. cbn [snd].
    destruct (IH {| rate_limiter := rl'; exclude_paths := exclude_paths m |} Hb') as [H1 H2].
    rewrite S in H1, H2. cbn [snd rate_limiter] in H1, H2. split; [exact H1|congruence].
Qed.

(** The memory of the limiter stays bounded: a new limiter records
    nothing, and [is_rate_limited], [_cleanup_old_requests] and the
    middleware serving any sequence of requests keep at most
    [rate_limit] timestamps per client. *)
Theorem timestamps_bounded (limit window : Z) (rl : RateLimiter) (ip : string) (t c : Q)
  (m : RateLimitMiddleware) (reqs : list (Request * Q)) :
  bounded (new_limiter limit window)
  /\ (bounded rl -> bounded (snd (is_rate_limited rl ip t)) /\ bounded (cleanup_pass rl c))
  /\ (bounded (rate_limiter m) -> bounded (rate_limiter (snd (serve m reqs)))).
Proof.
  split; [|split].
  - intros ip'. unfold history. cbn. rewrite lookup_empty. cbn. lia.
  - intros Hb. split; [apply bounded_is_rate_limited, Hb|].
    intros ip'. rewrite history_cleanup. cbn [rate_limit cleanup_pass with_requests].
    pose proof (length_filter_le (recent rl c) (history rl ip')). pose proof (Hb ip'). lia.
  - intros Hb. apply serve_bounded, Hb.
Qed.

Lemma timestamps_bounded_witness :
  bounded (rate_limiter (snd (serve (new_middleware 2 60 None)
             [({| req_path := "/news"; req_client := Some "a" |}, 1%Q);
              ({| req_path := "/news"; req_client := Some "a" |}, 2%Q);
              ({| req_path := "/news"; req_client := Some "a" |}, 3%Q)]%string))).
Proof.
  apply (proj2 (proj2 (timestamps_bounded 2 60 (new_limiter 2 60) "a" 0 0
                         (new_middleware 2 60 None)
                         [({| req_path := "/news"; req_client := Some "a" |}, 1%Q);
                          ({| req_path := "/news"; req_client := Some "a" |}, 2%Q);
                          ({| req_path := "/news"; req_client := Some "a" |}, 3%Q)]%string))).
  intros ip. unfold history. cbn. rewrite lookup_empty. cbn. lia.
Defined.

Lemma filter_recent_later (rl : RateLimiter) (c t : Q) (h : list Q) :
  (c <= t)%Q ->
  List.filter (recent rl t) (List.filter (recent rl c) h) = List.filter (recent rl t) h.
Proof.
  intros Hct. induction h as [|x r IH]; [reflexivity|]. cbn [List.filter].
  destruct (recent rl c x) eqn:Ec, (recent rl t x) eqn:Et; cbn [List.filter];
    rewrite ?Et, ?IH; try reflexivity.
  exfalso. unfold recent in Ec, Et.
  apply negb_false_iff, Qle_bool_iff in Ec. apply negb_true_iff in Et.
  assert (Hq : (inject_Z (time_window rl) <= t - x)%Q) by lra.
  apply Qle_bool_iff in Hq. congruence.
Qed.

(** [_cleanup_old_requests] is invisible to clients: after a cleanup at
    time [c], a call at any time [t >= c] answers as it would have
    without the cleanup and leaves the client with the same timestamps. *)
Theorem cleanup_invisible (rl : RateLimiter) (c t : Q) (ip : string) :
  (c <= t)%Q ->
  fst (is_rate_limited (cleanup_pass rl c) ip t) = fst (is_rate_limited rl ip t)
  /\ history (snd (is_rate_limited (cleanup_pass rl c) ip t)) ip
     = history (snd (is_rate_limited rl ip t)) ip.
Proof.
  intros Hct.
  destruct (is_rate_limited_local (cleanup_pass rl c) rl ip t eq_refl eq_refl) as [H1 [H2 _]].
  - rewrite history_cleanup. unfold recent. cbn [time_window cleanup_pass with_requests].
    apply filter_recent_later, Hct.
  - split; assumption.
Qed.

Lemma cleanup_invisible_witness :
  fst (is_rate_limited (cleanup_pass refusing_limiter 70) "a" 80)
  = fst (is_rate_limited refusing_limiter "a" 80).
Proof.
  apply (proj1 (cleanup_invisible refusing_limiter 70 80 "a" ltac:(vm_compute; discriminate))).
Defined.

Definition same_view (ip : string) (rl rl' : RateLimiter) : Prop :=
  rate_limit rl = rate_limit rl' /\ time_window rl = time_window rl'
  /\ history rl ip = history rl' ip.

Definition mine (ex : list string) (ip : string) (rt : Request * Q) : bool :=
  negb (existsb (String.eqb (req_path (fst rt))) ex) && String.eqb (client_ip (fst rt)) ip.

Lemma serve_view (ip : string) (ex : list string) (reqs : list (Request * Q)) :
  forall m rl0, exclude_paths m = ex -> same_view ip (rate_limiter m) rl0 ->
  length (fst (serve m reqs)) = length reqs
  /\ (forall req t resp, In ((req, t), resp) (combine reqs (fst (serve m reqs))) ->
        excluded m req = true -> resp = Forwarded)
  /\ map snd (List.filter (fun p => mine ex ip (fst p)) (combine reqs (fst (serve m reqs))))
     = map to_response (fst (run_calls rl0 ip (map snd (List.filter (mine ex ip) reqs))))
  /\ same_view ip (rate_limiter (snd (serve m reqs)))
       (snd (run_calls rl0 ip (map snd (List.filter (mine ex ip) reqs)))).
Proof.
  induction reqs as [|[req t] rest IH]; intros m rl0 Hex Hv.
  { cbn. split; [reflexivity|split; [intros ? ? ? []|split; [reflexivity|exact Hv]]]. }
  cbn [serve]. unfold call.
  destruct (excluded m req) eqn:Ex.
  - destruct (serve m rest) as [resps m2] eqn:S.
    destruct (IH m rl0 Hex Hv) as [L [F [R V]]]. rewrite S in L, F, R, V. cbn [fst snd] in *.
    assert (Hm : mine ex ip (req, t) = false)
      by (unfold mine, excluded in *; cbn [fst]; rewrite <- Hex, Ex; reflexivity).
    cbn [combine List.filter fst]. rewrite !Hm.
    split; [cbn; f_equal; exact L|]. split; [|split; [exact R|exact V]].
    intros req' t' resp [E|Hin] Hx; [injection E as <- <- <-; reflexivity|].
    apply (F req' t' resp Hin Hx).
  - destruct (is_rate_limited (rate_limiter m) (client_ip req) t) as [r rl'] eqn:E.
    set (m1 := {| rate_limiter := rl'; exclude_paths := exclude_paths m |}).
    destruct (serve m1 rest) as [resps m2] eqn:S.
    assert (Hex1 : exclude_paths m1 = ex) by exact Hex.
    assert (Hexcl : forall q, excluded m1 q = excluded m q) by reflexivity.
    destruct (String.eqb_spec (client_ip req) ip) as [Hip|Hip].
    + assert (Hm : mine ex ip (req, t) = true)
        by (unfold mine, excluded in *; cbn [fst]; rewrite <- Hex, Ex, Hip, String.eqb_refl;
            reflexivity).
      cbn [combine List.filter fst]. rewrite !Hm. cbn [map].
      cbn [map run_calls].
      destruct Hv as [Hl [Hw Hh]].
      destruct (is_rate_limited_local (rate_limiter m) rl0 ip t Hl Hw)
        as [Hr [Hh' [Hl' Hw']]].
      { unfold recent. rewrite Hw, Hh. reflexivity. }
      rewrite Hip in E. rewrite E in Hr, Hh', Hl', Hw'. cbn [fst snd] in Hr, Hh', Hl', Hw'.
      destruct (is_rate_limited rl0 ip t) as [r0 rl0'] eqn:E0. cbn [fst snd] in Hr, Hh'.
      pose proof (is_rate_limited_local rl0 rl0 ip t eq_refl eq_refl eq_refl) as [_ [_ [Hl0 Hw0]]].
      rewrite E0 in Hl0, Hw0. cbn [snd] in Hl0, Hw0.
      destruct (IH m1 rl0' Hex1) as [L [F [R V]]].
      { split; [cbn; congruence|split; [cbn; congruence|exact Hh']]. }
      rewrite S in L, F, R, V. cbn [fst snd] in *.
      cbn [run_calls]. rewrite E0.
      destruct (run_calls rl0' ip (map snd (List.filter (mine ex ip) rest))) as [rs rl2].
      cbn [fst snd map] in *.
      split; [cbn [length]; f_equal; exact L|]. split.
      * intros req' t' resp [E'|Hin] Hx; [injection E' as <- <- <-; congruence|].
        apply (F req' t' resp Hin). rewrite Hexcl. exact Hx.
      * split; [rewrite Hr, R; reflexivity|exact V].
    + assert (Hm : mine ex ip (req, t) = false)
        by (unfold mine, excluded in *; cbn [fst]; rewrite <- Hex, Ex;
            destruct (String.eqb_spec (client_ip req) ip); [contradiction|reflexivity]).
      cbn [combine List.filter fst]. rewrite !Hm.
      destruct (is_rate_limited_other (rate_limiter m) (client_ip req) ip t
                  (fun H => Hip (eq_sym H))) as [Hh' [Hl' Hw']].
      rewrite E in Hh', Hl', Hw'. cbn [snd] in Hh', Hl', Hw'.
      destruct Hv as [Hl [Hw Hh]].
      destruct (IH m1 rl0 Hex1) as [L [F [R V]]].
      { split; [cbn; congruence|split; [cbn; congruence|cbn; congruence]]. }
      rewrite S in L, F, R, V. cbn [fst snd] in *.
      split; [cbn [length]; f_equal; exact L|]. split; [|split; [exact R|exact V]].
      intros req' t' resp [E'|Hin] Hx; [congruence|].
      apply (F req' t' resp Hin). rewrite Hexcl. exact Hx.
Qed.

(** [RateLimitMiddleware.__call__] over a sequence of requests: requests
    to an excluded path are forwarded without touching the limiter, and
    the answers to one client's other requests, as well as the
    timestamps kept for it, are those of [is_rate_limited] called on
    that client alone: other clients never affect them.  Requests
    without a client address are all counted under "unknown". *)
Theorem serve_per_client (m : RateLimitMiddleware) (reqs : list (Request * Q)) (ip : string) :
  let resps := fst (serve m reqs) in
  let own := List.filter (mine (exclude_paths m) ip) reqs in
  length resps = length reqs
  /\ (forall req t resp, In ((req, t), resp) (combine reqs resps) ->
        excluded m req = true -> resp = Forwarded)
  /\ map snd (List.filter (fun p => mine (exclude_paths m) ip (fst p)) (combine reqs resps))
     = map to_response (fst (run_calls (rate_limiter m) ip (map snd own)))
  /\ history (rate_limiter (snd (serve m reqs))) ip
     = history (snd (run_calls (rate_limiter m) ip (map snd own))) ip.
Proof.
  cbv zeta.
  destruct (serve_view ip (exclude_paths m) reqs m (rate_limiter m) eq_refl)
    as [L [F [R [_ [_ V]]]]].
  - split; [reflexivity|split; reflexivity].
  - split; [exact L|split; [exact F|split; [exact R|exact V]]].
Qed.

End RateLimitMoreFacts.

(* --------------------------------------------------------------------- *)
(* scheduler.py: adding, removing, updating and picking sources.         *)
(* --------------------------------------------------------------------- *)
Module SchedulerMoreFacts.
Import Py Scheduler SchedulerMore.


Lemma save_sources_falsy (m : Manager) :
  truthy (m_sources_file m) = false -> save_sources m = Ok tt.
Proof. intros H. unfold save_sources. rewrite H. reflexivity. Qed.

Lemma save_sources_truthy (m : Manager) :
  truthy (m_sources_file m) = true -> save_sources m = Raise TypeError.
Proof. intros H. unfold save_sources. rewrite H. reflexivity. Qed.


Definition demo_manager_with_file : Manager :=
  {| m_state := empty_state; m_sources := []; m_running := ∅;
     m_sources_file := PStr "sources.json" |}.



Lemma add_source_file (m : Manager) (cfg : SourceConfig) (dt_min now : Z) (c : outcome unit) :
  m_sources_file (snd (add_source m cfg dt_min now c)) = m_sources_file m
  /\ (truthy (m_sources_file m) = true -> fst (add_source m cfg dt_min now c) = false).
Proof.
  unfold add_source.
  destruct (source_instances (m_state m) !! sc_id cfg); [split; reflexivity|].
  destruct (negb (known_type cfg)); [split; reflexivity|].
  destruct c; [|split; reflexivity].
  destruct (save_sources _) eqn:E; cbn [fst snd]; (split; [reflexivity|]); intros H;
    [rewrite save_sources_truthy in E by exact H; discriminate|reflexivity].
Qed.

Lemma remove_source_file (m : Manager) (i : option Z) :
  m_sources_file (snd (remove_source m i)) = m_sources_file m
  /\ (truthy (m_sources_file m) = true -> fst (remove_source m i) = false).
Proof.
  unfold remove_source.
  destruct (source_instances (m_state m) !! i); [|split; reflexivity].
  destruct (save_sources _) eqn:E; cbn [fst snd]; (split; [reflexivity|]); intros H;
    [rewrite save_sources_truthy in E by exact H; discriminate|reflexivity].
Qed.

(** [_load_sources] always ends with an empty source list, whatever the
    sources file holds.  With a sources file set, the save step calls
    [get_sources] with two positional arguments and raises TypeError, so
    [add_source], [remove_source] and [update_source] never return True;
    yet a new source is registered (or an existing one removed) in memory
    before the failed save. *)
Theorem sources_file_never_saved (m : Manager) (cfg : SourceConfig) (dt_min now : Z)
  (construct : outcome unit) (u : unit) (source_id : option Z) (from_file : list SourceConfig) :
  m_sources (load_sources m from_file) = []
  /\ (truthy (m_sources_file m) = true ->
      fst (add_source m cfg dt_min now construct) = false
      /\ fst (remove_source m source_id) = false
      /\ fst (update_source m cfg dt_min now construct) = false
      /\ (source_instances (m_state m) !! sc_id cfg = None -> known_type cfg = true ->
          source_instances (m_state (snd (add_source m cfg dt_min now (Ok u)))) !! sc_id cfg
          = Some cfg)
      /\ source_instances (m_state (snd (remove_source m source_id))) !! source_id = None).
Proof.
  split; [reflexivity|].
  intros Hf.
  split; [apply (proj2 (add_source_file m cfg dt_min now construct)), Hf|].
  split; [apply (proj2 (remove_source_file m source_id)), Hf|].
  split.
  { unfold update_source.
    destruct (source_instances (m_state m) !! sc_id cfg); [|reflexivity].
    destruct (remove_source m (sc_id cfg)) as [b m1] eqn:R.
    destruct (remove_source_file m (sc_id cfg)) as [F _]. rewrite R in F. cbn [snd] in F.
    apply (proj2 (add_source_file m1 cfg dt_min now construct)). rewrite F. exact Hf. }
  split.
  { intros Hfresh Hk. unfold add_source. rewrite Hfresh, Hk. cbn [negb].
    destruct (save_sources _); apply lookup_insert_eq. }
  unfold remove_source.
  destruct (source_instances (m_state m) !! source_id) eqn:E; [|exact E].
  destruct (save_sources _); apply lookup_delete_eq.
Qed.

Lemma sources_file_never_saved_witness :
  truthy (m_sources_file demo_manager_with_file) = true
  /\ fst (add_source demo_manager_with_file bbc_config 0 1000 (Ok tt)) = false.
Proof.
  split; [reflexivity|].
  apply (proj2 (sources_file_never_saved demo_manager_with_file bbc_config 0 1000 (Ok tt) tt
           (Some 1) [bbc_config]) eq_refl).
Defined.

(** [update_source] without a sources file: an unknown id is refused
    with the scheduler unchanged; for a registered id the old source is
    always removed first, so a replacement of unknown type, or whose
    constructor raises, leaves the id unregistered (False), while a
    valid replacement is registered in its place (True), due now. *)
Theorem update_source_replaces (m : Manager) (cfg : SourceConfig) (dt_min now : Z)
  (construct : outcome unit) :
  truthy (m_sources_file m) = false ->
  let r := update_source m cfg dt_min now construct in
  (source_instances (m_state m) !! sc_id cfg = None -> r = (false, m))
  /\ (source_instances (m_state m) !! sc_id cfg <> None ->
      (known_type cfg = false \/ (exists e, construct = Raise e)) ->
      fst r = false
      /\ source_instances (m_state (snd r)) = delete (sc_id cfg) (source_instances (m_state m)))
  /\ (source_instances (m_state m) !! sc_id cfg <> None ->
      known_type cfg = true -> (exists u, construct = Ok u) ->
      fst r = true
      /\ source_instances (m_state (snd r)) = <[sc_id cfg := cfg]> (source_instances (m_state m))
      /\ next_crawl_time (m_state (snd r)) !! sc_id cfg = Some now
      /\ last_crawl_time (m_state (snd r)) !! sc_id cfg = Some dt_min).
Proof.
  intros Hf. cbv zeta. unfold update_source.
  destruct (source_instances (m_state m) !! sc_id cfg) as [old|] eqn:E.
  2:{ split; [reflexivity|]. split; intros H; contradiction H; reflexivity. }
  split; [discriminate|].
  unfold remove_source. rewrite E. rewrite save_sources_falsy by exact Hf.
  unfold add_source. cbn [m_state source_instances last_crawl_time next_crawl_time
    m_sources m_running m_sources_file].
  rewrite lookup_delete_eq.
  split.
  - intros _ [Hk|[e ->]].
    + rewrite Hk. split; reflexivity.
    + destruct (negb (known_type cfg)); split; reflexivity.
  - intros _ Hk [u ->]. rewrite Hk. cbn [negb].
    rewrite save_sources_falsy by exact Hf. cbn [fst snd m_state source_instances
      last_crawl_time next_crawl_time].
    split; [reflexivity|]. split; [apply insert_delete_eq|].
    split; apply lookup_insert_eq.
Qed.

Definition demo_registered : Manager :=
  {| m_state := {| source_instances := <[Some 1 := bbc_config]> ∅;
                   last_crawl_time := <[Some 1 := 0]> ∅;
                   next_crawl_time := <[Some 1 := 1060]> ∅ |};
     m_sources := [bbc_config]; m_running := ∅; m_sources_file := PNone |}.

Definition bbc_as_html : SourceConfig :=
  {| sc_name := "BBC News"; sc_url := "http://feeds.bbci.co.uk/news/";
     sc_type := "xml"; sc_category := Some "general";
     sc_update_interval := 30; sc_active := true; sc_id := Some 1;
     sc_rss_settings := []; sc_html_settings := []; sc_api_settings := [] |}.

Lemma update_source_replaces_witness :
  fst (update_source demo_registered bbc_as_html 0 2000 (Ok tt)) = false
  /\ source_instances (m_state (snd (update_source demo_registered bbc_as_html 0 2000 (Ok tt))))
     = delete (Some 1) (source_instances (m_state demo_registered)).
Proof.
  apply (proj1 (proj2 (update_source_replaces demo_registered bbc_as_html 0 2000 (Ok tt)
                         eq_refl))).
  - discriminate.
  - left. reflexivity.
Defined.

(** The [sources_to_crawl] list of [_scheduling_loop] holds, without
    repetition, exactly the sources whose next crawl time has come and
    which have no task running. *)
Theorem sources_to_crawl_spec (st : SchedState) (running : gset (option Z)) (now : Z) :
  List.NoDup (sources_to_crawl st running now)
  /\ forall i, In i (sources_to_crawl st running now)
       <-> exists t, next_crawl_time st !! i = Some t /\ t <= now /\ i ∉ running.
Proof.
  unfold sources_to_crawl. split.
  - pose proof (NoDup_fst_map_to_list (next_crawl_time st)) as H.
    apply NoDup_ListNoDup in H.
    induction (map_to_list (next_crawl_time st)) as [|[k t] r IH]; [constructor|].
    cbn [map fst] in H. apply List.NoDup_cons_iff in H as [Hn Hr].
    cbn [List.filter]. destruct (_ && _); cbn [map]; [|apply IH, Hr].
    constructor; [|apply IH, Hr].
    intros Hin. apply Hn. apply in_map_iff in Hin as [[k' t'] [<- Hin]].
    apply List.filter_In in Hin as [Hin _]. apply in_map_iff. exists (k', t'). split; [reflexivity|exact Hin].
  - intros i. rewrite in_map_iff. split.
    + intros [[k t] [<- Hin]]. apply List.filter_In in Hin as [Hin Hc].
      apply andb_true_iff in Hc as [Hle Hr]. cbn [fst snd] in *.
      exists t. split; [apply elem_of_map_to_list, list_elem_of_In, Hin|].
      split; [apply Z.leb_le, Hle|].
      apply negb_true_iff in Hr. intros Hk. rewrite bool_decide_eq_true_2 in Hr by exact Hk.
      discriminate.
    + intros [t [Hl [Hle Hr]]]. exists (i, t). split; [reflexivity|].
      apply List.filter_In. split; [apply list_elem_of_In, elem_of_map_to_list, Hl|].
      cbn [fst snd]. apply andb_true_iff. split; [apply Z.leb_le, Hle|].
      apply negb_true_iff, bool_decide_eq_false_2, Hr.
Qed.

End SchedulerMoreFacts.

(* --------------------------------------------------------------------- *)
(* classifier.py: keyword scores and the categories kept.                *)
(* --------------------------------------------------------------------- *)
Module ClassifierMoreFacts.
Import Py PyStr ClassifierMore.

Definition nonneg (d : list (string * Q)) : Prop := forall p, In p d -> (0 <= snd p)%Q.

Lemma keyword_score_nonneg (text : string) (ks : list string) : (0 <= keyword_score text ks)%Q.
Proof.
  assert (F : forall l s, 0 <= s ->
            0 <= fold_left (fun s k => (s + Z.of_nat (count (lower k) text))%Z) l s).
  { induction l as [|k r IH]; intros s Hs; cbn [fold_left]; [exact Hs|]. apply IH. lia. }
  unfold keyword_score.
  pose proof (F ks 0 (Z.le_refl 0)) as H0.
  destruct ks as [|k r].
  - change 0%Q with (inject_Z 0). rewrite <- Zle_Qle. exact H0.
  - apply Qle_shift_div_l.
    + change 0%Q with (inject_Z 0). rewrite <- Zlt_Qlt. cbn [length]. lia.
    + rewrite Qmult_0_l. change 0%Q with (inject_Z 0). rewrite <- Zle_Qle. exact H0.
Qed.

Lemma in_keys_qassoc_set (k x : string) (v : Q) (d : list (string * Q)) :
  In x (map fst (qassoc_set k v d)) <-> x = k \/ In x (map fst d).
Proof.
  induction d as [|[k' v'] r IH]; cbn; [intuition congruence|].
  destruct (String.eqb_spec k k') as [->|Hne]; cbn; [intuition congruence|].
  rewrite IH. intuition congruence.
Qed.

Lemma qassoc_set_inv (k : string) (v : Q) (d : list (string * Q)) :
  List.NoDup (map fst d) -> nonneg d -> (0 <= v)%Q ->
  List.NoDup (map fst (qassoc_set k v d)) /\ nonneg (qassoc_set k v d).
Proof.
  induction d as [|[k' v'] r IH]; intros Hn Hp Hv.
  - cbn. split; [repeat constructor; intros []|]. intros p [<-|[]]. exact Hv.
  - cbn [qassoc_set]. cbn [map fst] in Hn. apply List.NoDup_cons_iff in Hn as [Hk' Hr].
    assert (Hp' : nonneg r) by (intros p Hp0; apply Hp; right; exact Hp0).
    destruct (String.eqb_spec k k') as [->|Hne].
    + split; [constructor; assumption|].
      intros p [<-|Hin]; [exact Hv|apply Hp; right; exact Hin].
    + destruct (IH Hr Hp' Hv) as [N P]. split.
      * cbn [map fst]. constructor; [|exact N].
        rewrite in_keys_qassoc_set. intros [E|E]; [congruence|contradiction].
      * intros p [<-|Hin]; [apply Hp; left; reflexivity|apply P, Hin].
Qed.

Lemma boost_inv (c : string) (d : list (string * Q)) :
  map fst (boost c d) = map fst d /\ (nonneg d -> nonneg (boost c d)).
Proof.
  induction d as [|[k v] r [IHk IHp]]; cbn [boost]; [split; [reflexivity|tauto]|].
  destruct (String.eqb c k); cbn [map fst]; split.
  - reflexivity.
  - intros Hp p [<-|Hin]; [|apply Hp; right; exact Hin].
    cbn [snd]. assert (0 <= v)%Q by (apply (Hp (k, v)); left; reflexivity). lra.
  - rewrite IHk. reflexivity.
  - intros Hp p [<-|Hin]; [apply Hp; left; reflexivity|].
    apply IHp; [intros q Hq; apply Hp; right; exact Hq|exact Hin].
Qed.

Lemma boost_all_inv (cats : list pyval) :
  forall d d', boost_all cats d = Ok d' ->
  map fst d' = map fst d /\ (nonneg d -> nonneg d').
Proof.
  induction cats as [|v r IH]; intros d d' H; cbn [boost_all] in H.
  - injection H as <-. split; [reflexivity|tauto].
  - destruct v; try discriminate H; try (apply (IH d d' H)).
    destruct (IH _ _ H) as [K P]. destruct (boost_inv s d) as [K' P'].
    split; [congruence|intros Hp; apply P, P', Hp].
Qed.

Lemma fold_scores_inv (text : string) (ck : list (string * list string)) :
  forall acc, List.NoDup (map fst acc) -> nonneg acc ->
  let d := fold_left (fun d ck0 => qassoc_set (fst ck0) (keyword_score text (snd ck0)) d) ck acc in
  List.NoDup (map fst d) /\ nonneg d.
Proof.
  induction ck as [|x r IH]; intros acc N P; cbn [fold_left]; [split; assumption|].
  destruct (qassoc_set_inv (fst x) (keyword_score text (snd x)) acc N P
              (keyword_score_nonneg _ _)) as [N' P'].
  apply IH; assumption.
Qed.

Lemma boosted_scores_inv (ck : list (string * list string)) (text : string)
  (a : list (string * pyval)) (scores : list (string * Q)) :
  boosted_scores ck text a = Ok scores ->
  List.NoDup (map fst scores) /\ nonneg scores.
Proof.
  unfold boosted_scores.
  destruct (fold_scores_inv text ck [] (List.NoDup_nil _) (fun p (H : In p []) => match H with end))
    as [N P].
  set (cs := fold_left _ ck []) in *.
  destruct (truthy (dict_get a "metadata" PNone)); [|intros H; injection H as <-; split; assumption].
  destruct (dict_get a "metadata" PNone); try discriminate.
  destruct (truthy (dict_get d "categories" PNone)); [|intros H; injection H as <-; split; assumption].
  destruct (iter_values (dict_get d "categories" PNone)) as [items|e]; cbn [bind]; [|discriminate].
  intros H. destruct (boost_all_inv items cs scores H) as [K Pn].
  split; [rewrite K; exact N|apply Pn, P].
Qed.

Lemma NoDup_map_filter {A B : Type} (f : A -> B) (g : A -> bool) (l : list A) :
  List.NoDup (map f l) -> List.NoDup (map f (List.filter g l)).
Proof.
  induction l as [|x r IH]; intros H; cbn; [constructor|].
  apply List.NoDup_cons_iff in H as [Hx Hr].
  destruct (g x); cbn; [|apply IH, Hr].
  constructor; [|apply IH, Hr].
  intros Hin. apply Hx. apply in_map_iff in Hin as [y [<- Hy]].
  apply List.filter_In in Hy as [Hy _]. apply in_map, Hy.
Qed.

Definition score_le (x y : string * Q) : Prop := (snd y <= snd x)%Q.

Lemma sorted_scores (scores : list (string * Q)) :
  StronglySorted score_le (TextUtils.sort_desc (fun x y => Qle_bool (snd x) (snd y)) scores).
Proof.
  apply TextUtilsFacts.sorted_sort_desc.
  - intros x y z H1 H2. unfold score_le in *. eapply Qle_trans; eassumption.
  - intros x y H. apply Qle_bool_iff, H.
  - intros x y H. unfold score_le. apply Qlt_le_weak, Qnot_le_lt.
    intros Hq. apply Qle_bool_iff in Hq. congruence.
Qed.

Lemma In_sorted_scores (scores : list (string * Q)) (p : string * Q) :
  In p (TextUtils.sort_desc (fun x y => Qle_bool (snd x) (snd y)) scores) <-> In p scores.
Proof.
  unfold TextUtils.sort_desc. rewrite TextUtilsFacts.In_sort_desc_aux. cbn. tauto.
Qed.

(** [_classify_with_keywords] once the scores are computed (and boosted
    by the metadata categories): the scores are non-negative, one per
    category.  If every score is 0 (or there is no category) the result
    is [([], 0.0)]; otherwise the best score [top] is the largest score,
    the categories returned are, without repetition, exactly those
    scoring at least [0.8 * top], and the confidence is [min(top, 1.0)],
    which lies in (0, 1]. *)
Theorem classify_with_keywords_top (ck : list (string * list string)) (text : string)
  (a : list (string * pyval)) (scores : list (string * Q)) :
  boosted_scores ck text a = Ok scores ->
  List.NoDup (map fst scores) /\ (forall p, In p scores -> (0 <= snd p)%Q)
  /\ ((forall p, In p scores -> snd p == 0)%Q ->
      classify_with_keywords ck text a = Ok ([], 0%Q))
  /\ (forall p0, In p0 scores -> ~ (snd p0 == 0)%Q ->
      exists cats top, classify_with_keywords ck text a = Ok (cats, Qmin top 1)
        /\ In top (map snd scores)
        /\ (forall p, In p scores -> (snd p <= top)%Q)
        /\ (0 < Qmin top 1 <= 1)%Q
        /\ List.NoDup cats
        /\ (forall c, In c cats <-> exists s, In (c, s) scores /\ (top * (8 # 10) <= s)%Q)).
Proof.
  intros H. destruct (boosted_scores_inv ck text a scores H) as [N P].
  split; [exact N|]. split; [exact P|].
  unfold classify_with_keywords. rewrite H. cbn [bind].
  pose proof (sorted_scores scores) as Ss. pose proof (In_sorted_scores scores) as Is.
  pose proof (TextUtilsFacts.length_sort_desc (fun x y => Qle_bool (snd x) (snd y)) scores) as Ls.
  set (sorted := TextUtils.sort_desc (fun x y => Qle_bool (snd x) (snd y)) scores) in *.
  assert (Nd : List.NoDup (map fst sorted)).
  { apply (List.NoDup_incl_NoDup (l := map fst scores)); [exact N|rewrite !length_map; lia|].
    intros c Hc. apply in_map_iff in Hc as [p [<- Hp]]. apply in_map, Is, Hp. }
  destruct sorted as [|[c0 top] rest] eqn:E.
  { split; [reflexivity|]. intros p0 Hp0. apply Is in Hp0. destruct Hp0. }
  assert (Htop : In (c0, top) scores) by (apply Is; left; reflexivity).
  assert (Hmax : forall p, In p scores -> (snd p <= top)%Q).
  { intros p Hp. apply Is in Hp as [<-|Hp]; [apply Qle_refl|].
    apply StronglySorted_inv in Ss as [_ Ss]. rewrite List.Forall_forall in Ss.
    apply (Ss p Hp). }
  split.
  - intros Z0. specialize (Z0 _ Htop). cbn [snd] in Z0.
    apply Qeq_bool_iff in Z0. rewrite Z0. reflexivity.
  - intros p0 Hp0 Hnz.
    assert (Hpos : (0 < top)%Q).
    { pose proof (P p0 Hp0). pose proof (Hmax p0 Hp0).
      apply Qnot_le_lt. intros Hle. apply Hnz. apply Qle_antisym; lra. }
    destruct (Qeq_bool top 0) eqn:Zt.
    { apply Qeq_bool_iff in Zt. lra. }
    eexists; exists top. split; [reflexivity|].
    split; [apply (in_map snd _ _ Htop)|].
    split; [exact Hmax|].
    split; [split; [apply Q.min_glb_lt; [exact Hpos|reflexivity]|apply Q.le_min_r]|].
    split; [apply NoDup_map_filter, Nd|].
    intros c. rewrite in_map_iff. split.
    + intros [[c' s'] [<- Hin]]. apply List.filter_In in Hin as [Hin Hq].
      exists s'. split; [apply Is, Hin|apply Qle_bool_iff, Hq].
    + intros [s' [Hin Hq]]. exists (c, s'). split; [reflexivity|].
      apply List.filter_In. split; [apply Is, Hin|apply Qle_bool_iff, Hq].
Qed.

Definition sport_keywords : list (string * list string) :=
  [("sports", ["match"; "goal"]); ("politics", ["vote"]); ("science", ["atom"])]%string.

Lemma classify_with_keywords_top_witness :
  exists cats top,
    classify_with_keywords sport_keywords "the match ended with a late goal before the vote" []
    = Ok (cats, Qmin top 1)
    /\ In top (map snd [("sports", 2 # 2); ("politics", 1%Q); ("science", 0%Q)]%string)
    /\ (forall p, In p [("sports", 2 # 2); ("politics", 1%Q); ("science", 0%Q)]%string ->
          (snd p <= top)%Q)
    /\ (0 < Qmin top 1 <= 1)%Q
    /\ List.NoDup cats
    /\ (forall c, In c cats <-> exists s,
          In (c, s) [("sports", 2 # 2); ("politics", 1%Q); ("science", 0%Q)]%string
          /\ (top * (8 # 10) <= s)%Q).
Proof.
  apply (proj2 (proj2 (proj2 (classify_with_keywords_top sport_keywords
    "the match ended with a late goal before the vote" []
    [("sports", 2 # 2); ("politics", 1%Q); ("science", 0%Q)]%string
    ltac:(vm_compute; reflexivity))))) with (p0 := ("sports", 2 # 2)%string).
  - left. reflexivity.
  - vm_compute. discriminate.
Defined.

(** The errors of [_classify_with_keywords]: a truthy [metadata] that is
    not a dict has no [.get] (AttributeError); a truthy
    [metadata["categories"]] that is a number or a bool is not iterable
    (TypeError); without a truthy [metadata] the method never raises. *)
Theorem classify_with_keywords_errors (ck : list (string * list string)) (text : string)
  (a : list (string * pyval)) :
  (truthy (dict_get a "metadata" PNone) = true ->
   (forall m, dict_get a "metadata" PNone <> PDict m) ->
   classify_with_keywords ck text a = Raise (AttributeError "get"))
  /\ (forall m, dict_get a "metadata" PNone = PDict m -> truthy (PDict m) = true ->
      truthy (dict_get m "categories" PNone) = true ->
      (exists z, dict_get m "categories" PNone = PInt z)
      \/ (exists q, dict_get m "categories" PNone = PFloat q)
      \/ (exists b, dict_get m "categories" PNone = PBool b) ->
      classify_with_keywords ck text a = Raise TypeError)
  /\ (truthy (dict_get a "metadata" PNone) = false ->
      exists r, classify_with_keywords ck text a = Ok r).
Proof.
  unfold classify_with_keywords, boosted_scores. split; [|split].
  - intros Ht Hnd. rewrite Ht.
    destruct (dict_get a "metadata" PNone) eqn:E; try reflexivity.
    exfalso. apply (Hnd d). reflexivity.
  - intros m Hm Ht Hc Hk. rewrite Hm, Ht. cbv beta iota. rewrite Hc.
    destruct Hk as [[z ->]|[[q ->]|[b ->]]]; reflexivity.
  - intros Hf. rewrite Hf. cbn [bind].
    destruct (TextUtils.sort_desc _ _) as [|[c0 top] rest]; [eexists; reflexivity|].
    destruct (Qeq_bool top 0); eexists; reflexivity.
Qed.

Lemma classify_with_keywords_errors_witness :
  classify_with_keywords sport_keywords "a goal" [("metadata", PStr "sports")]%string
  = Raise (AttributeError "get").
Proof.
  apply (proj1 (classify_with_keywords_errors sport_keywords "a goal"
                  [("metadata", PStr "sports")]%string)).
  - reflexivity.
  - intros m. discriminate.
Defined.

End ClassifierMoreFacts.

(* --------------------------------------------------------------------- *)
(* api_source.py: the page loop, dotted paths and the parsed articles.   *)
(* --------------------------------------------------------------------- *)
Module ApiSourceMoreFacts.
Import Py ApiSource ApiSourceMore.

(** The pages [cur], [cur + 1], ..., [cur + k - 1]. *)
Definition zseq (cur : Z) (k : nat) : list Z := map (fun i => cur + Z.of_nat i) (seq 0 k).

Lemma zseq_S (cur : Z) (k : nat) : zseq cur (S k) = cur :: zseq (cur + 1) k.
Proof.
  unfold zseq. cbn [seq map]. f_equal; [lia|].
  rewrite <- seq_shift, map_map. apply map_ext. intros i. lia.
Qed.

Lemma fetch_loop_spec (src : APISource) (max_pages : Z) (fp : Z -> list pyval * bool)
  (fuel : nat) :
  forall cur arts pages,
  let r := fetch_loop fuel src max_pages fp cur arts pages in
  exists k,
    snd r = pages ++ zseq cur k
    /\ fst r = arts ++ flat_map (fun p => fst (fp p)) (zseq cur k)
    /\ (k <= fuel)%nat
    /\ ((0 < k)%nat -> cur + Z.of_nat k - 1 <= max_pages)
    /\ (forall i, (S i < k)%nat ->
          snd (fp (cur + Z.of_nat i)) = true /\ truthy (page_param src) = true)
    /\ ((k < fuel)%nat -> max_pages < cur + Z.of_nat k
          \/ ((0 < k)%nat /\ (snd (fp (cur + Z.of_nat k - 1)) = false
                              \/ truthy (page_param src) = false))).
Proof.
  induction fuel as [|f IH]; intros cur arts pages; cbv zeta; cbn [fetch_loop].
  { exists O. cbn. rewrite !app_nil_r. repeat split; intros; lia. }
  destruct (cur <=? max_pages) eqn:C.
  2:{ apply Z.leb_gt in C. exists O. cbn. rewrite !app_nil_r. repeat split; intros; lia. }
  apply Z.leb_le in C.
  destruct (fp cur) as [pa hm] eqn:F.
  destruct (negb hm || negb (truthy (page_param src))) eqn:B.
  { exists 1%nat. replace (zseq cur 1) with [cur] by (unfold zseq; cbn; f_equal; lia).
    cbn [fst snd flat_map]. rewrite F. cbn [fst]. rewrite !app_nil_r. split; [reflexivity|]. split; [reflexivity|].
    split; [lia|]. split; [intros; lia|]. split; [intros; lia|].
    intros _. right. split; [lia|]. replace (cur + Z.of_nat 1 - 1) with cur by lia. rewrite F. cbn.
    apply orb_true_iff in B as [B|B]; apply negb_true_iff in B; [left|right]; exact B. }
  apply orb_false_iff in B as [B1 B2]. apply negb_false_iff in B1, B2.
  destruct (IH (cur + 1) (arts ++ pa) (pages ++ [cur])) as [k [Hp [Ha [Hk [Hm [Hh Hs]]]]]].
  exists (S k). rewrite zseq_S.
  split; [rewrite Hp, <- app_assoc; reflexivity|].
  split; [rewrite Ha, <- app_assoc; cbn [flat_map]; rewrite F; reflexivity|].
  split; [lia|]. split; [intros _; destruct k; [lia|]; specialize (Hm ltac:(lia)); lia|].
  split.
  - intros [|i] Hi.
    + rewrite Z.add_0_r, F. split; assumption.
    + replace (cur + Z.of_nat (S i)) with (cur + 1 + Z.of_nat i) by lia. apply Hh. lia.
  - intros Hlt. destruct (Hs ltac:(lia)) as [L|[Hk0 R]]; [left; lia|right].
    split; [lia|].
    replace (cur + Z.of_nat (S k) - 1) with (cur + 1 + Z.of_nat k - 1) by lia. exact R.
Qed.

(** [APISource.fetch()]: the pages requested are [1, 2, ..., k] with
    [k <= max_pages] (only page 1 without a [page_param]); the articles
    are those of these pages, concatenated in order; every page before
    the last one reported more pages; and when fewer than [max_pages]
    pages were requested, the last one reported no more pages or there
    is no [page_param]. *)
Theorem fetch_pages (src : APISource) (max_pages : Z) (fp : Z -> list pyval * bool) :
  let r := fetch src max_pages fp in
  exists k,
    snd r = map Z.of_nat (seq 1 k)
    /\ fst r = flat_map (fun p => fst (fp p)) (snd r)
    /\ (k <= Z.to_nat max_pages)%nat
    /\ (truthy (page_param src) = false -> (k <= 1)%nat)
    /\ (forall p, In p (snd r) -> p < Z.of_nat k -> snd (fp p) = true)
    /\ ((k < Z.to_nat max_pages)%nat ->
        (1 <= k)%nat /\ (snd (fp (Z.of_nat k)) = false \/ truthy (page_param src) = false)).
Proof.
  cbv zeta. unfold fetch.
  destruct (fetch_loop_spec src max_pages fp (Z.to_nat max_pages) 1 [] [])
    as [k [Hp [Ha [Hk [Hm [Hh Hs]]]]]].
  assert (Z1 : zseq 1 k = map Z.of_nat (seq 1 k)).
  { unfold zseq. rewrite <- seq_shift, map_map. apply map_ext. intros i. lia. }
  rewrite Z1 in Hp, Ha. cbn [app] in Hp, Ha.
  exists k. split; [exact Hp|]. split; [rewrite Ha, Hp; reflexivity|].
  split; [exact Hk|]. split.
  { intros Hf. destruct k as [|[|k]]; [lia|lia|].
    destruct (Hh O ltac:(lia)) as [_ T]. congruence. }
  split.
  { intros p Hin Hlt. rewrite Hp in Hin. apply in_map_iff in Hin as [j [<- Hj]].
    apply in_seq in Hj. destruct j as [|i]; [lia|].
    destruct (Hh i ltac:(lia)) as [T _]. replace (Z.of_nat (S i)) with (1 + Z.of_nat i) by lia.
    exact T. }
  intros Hlt. destruct (Hs Hlt) as [L|[Hk0 R]]; [lia|].
  split; [lia|]. replace (Z.of_nat k) with (1 + Z.of_nat k - 1) by lia. exact R.
Qed.

Lemma split_on_aux_sep (sep : ascii) (l1 l2 cur : list ascii) :
  PyStr.split_on_aux sep (l1 ++ sep :: l2) cur = PyStr.split_on_aux sep l1 cur ++ PyStr.split_on_aux sep l2 [].
Proof.
  revert cur. induction l1 as [|c r IH]; intros cur; cbn [app PyStr.split_on_aux].
  - rewrite Ascii.eqb_refl. reflexivity.
  - destruct (Ascii.eqb c sep); [rewrite IH; reflexivity|apply IH].
Qed.

Lemma split_on_nonempty (sep : ascii) (l cur : list ascii) : PyStr.split_on_aux sep l cur <> [].
Proof.
  revert cur. induction l as [|c r IH]; intros cur; cbn [PyStr.split_on_aux]; [discriminate|].
  destruct (Ascii.eqb c sep); [discriminate|apply IH].
Qed.

Lemma walk_app (v : pyval) (l1 l2 : list string) :
  walk v (l1 ++ l2) = match walk v l1 with Found w => walk w l2 | r => r end.
Proof.
  revert v. induction l1 as [|k r IH]; intros v; cbn [app walk]; [reflexivity|].
  destruct (to_key k); [|reflexivity]. destruct (step v p); [apply IH|reflexivity].
Qed.

Lemma walk_none (keys : list string) :
  keys <> [] -> exists r, walk PNone keys = r /\ r <> Found PNone /\ (forall v, r <> Found v).
Proof.
  destruct keys as [|k r]; [contradiction|]. intros _. cbn [walk].
  destruct (to_key k) as [key|]; [destruct key|];
    cbn [step]; eexists; (split; [reflexivity|split; discriminate]).
Qed.

(** [_extract_field] on a dotted path: looking up ["a.b"] is looking up
    ["b"] in what ["a"] gives (a missing or failing first part giving
    [None], from which nothing more is found), for non-empty parts. *)
Theorem extract_field_compose (item : pyval) (p1 p2 : string) :
  p1 <> EmptyString -> p2 <> EmptyString ->
  extract_field item (PStr (String.append p1 (String.append "." p2)))
  = extract_field (extract_field item (PStr p1)) (PStr p2).
Proof.
  intros H1 H2.
  assert (T : forall p, p <> EmptyString -> truthy (PStr p) = true).
  { intros [|c p] Hp; [contradiction|reflexivity]. }
  unfold extract_field. rewrite (T _ H1), (T _ H2).
  assert (Hne : String.append p1 (String.append "." p2) <> EmptyString) by (destruct p1; [contradiction|discriminate]).
  rewrite (T _ Hne). cbn [negb].
  unfold PyStr.split_on. rewrite !WhitespaceFacts.chars_append. cbn [PyStr.chars].
  change (PyStr.chars "."%string ++ PyStr.chars p2) with ("."%char :: PyStr.chars p2).
  rewrite split_on_aux_sep, walk_app.
  destruct (walk item (PyStr.split_on_aux "." (PyStr.chars p1) [])) as [w| |]; [reflexivity| |];
    (destruct (walk_none (PyStr.split_on_aux "." (PyStr.chars p2) []) (split_on_nonempty _ _ _))
       as [r [-> [_ Hr]]];
     destruct r; [exfalso; eapply Hr; reflexivity|reflexivity|reflexivity]).
Qed.

Lemma extract_field_compose_witness :
  extract_field (PDict [("data", PDict [("title", PStr "Rain")])])%string (PStr "data.title")
  = extract_field (extract_field (PDict [("data", PDict [("title", PStr "Rain")])])%string
                     (PStr "data")) (PStr "title").
Proof.
  apply (extract_field_compose _ "data" "title"); discriminate.
Defined.

Definition article_keys : list string :=
  ["title"; "url"; "content"; "summary"; "published_at"; "author"; "image_url";
   "categories"; "source"]%string.

Lemma map_article_fields_shape (parse_date : pyval -> outcome string) (py_str : pyval -> string)
  (p : APIParser) (item : pyval) (a : list (string * pyval)) :
  map_article_fields parse_date py_str p item = Some a ->
  truthy (dict_get a "title" PNone) = true
  /\ truthy (dict_get a "url" PNone) = true
  /\ dict_get a "source" PNone = PStr (api_name p)
  /\ (exists l, dict_get a "categories" PNone = PList l)
  /\ map fst a = article_keys ++ match api_language p with Some _ => ["language"%string] | None => [] end
  /\ (forall l, api_language p = Some l -> dict_get a "language" PNone = l).
Proof.
  unfold map_article_fields. cbv zeta.
  set (m := if truthy (mapping p) then mapping p else PDict default_mapping).
  destruct (mapping_get m "title" "title") as [tp|]; cbn [bind]; [|discriminate].
  destruct (truthy (extract_field item tp)) eqn:Ht; cbn [negb]; [|discriminate].
  destruct (mapping_get m "url" "url") as [up|]; cbn [bind]; [|discriminate].
  destruct (truthy (extract_field item up)) eqn:Hu; cbn [negb]; [|discriminate].
  destruct (mapping_get m "content" "content"); cbn [bind]; [|discriminate].
  destruct (mapping_get m "summary" "summary"); cbn [bind]; [|discriminate].
  destruct (mapping_get m "published_at" "publishedAt"); cbn [bind]; [|discriminate].
  destruct (mapping_get m "author" "author"); cbn [bind]; [|discriminate].
  destruct (mapping_get m "image_url" "imageUrl"); cbn [bind]; [|discriminate].
  destruct (mapping_get m "categories" "categories") as [cp|]; cbn [bind]; [|discriminate].
  intros H. injection H as <-.
  destruct (api_language p) as [lang|];
    (destruct (truthy (extract_field item cp)); [destruct (extract_field item cp)|]); cbn;
    (split; [exact Ht|split; [exact Hu|split; [reflexivity|split; [eexists; reflexivity|
      split; [reflexivity|]]]]]); intros l0 E; try (injection E as <-; reflexivity); discriminate.
Qed.

(** [_parse_json_response]: every article returned has a truthy title and
    url, the API's name as [source], a list of categories, and the keys
    title, url, content, summary, published_at, author, image_url,
    categories, source, in this order, followed by language when the API
    settings have one.  Without an [articles_path], a dict response is
    one item and gives at most one article. *)
Theorem parse_json_response_articles (parse_date : pyval -> outcome string)
  (py_str : pyval -> string) (p : APIParser) (response_data : pyval) :
  (forall a, In a (parse_json_response parse_date py_str p response_data) ->
     truthy (dict_get a "title" PNone) = true
     /\ truthy (dict_get a "url" PNone) = true
     /\ dict_get a "source" PNone = PStr (api_name p)
     /\ (exists l, dict_get a "categories" PNone = PList l)
     /\ map fst a = article_keys ++ match api_language p with Some _ => ["language"%string] | None => [] end)
  /\ (truthy (articles_path p) = false -> forall d, response_data = PDict d ->
      (length (parse_json_response parse_date py_str p response_data) <= 1)%nat).
Proof.
  assert (Fm : forall items a, In a (flat_map (fun item =>
              match map_article_fields parse_date py_str p item with
              | Some a => [a] | None => [] end) items) ->
            exists item, map_article_fields parse_date py_str p item = Some a).
  { intros items a Hin. apply in_flat_map in Hin as [item [_ Hin]]. exists item.
    destruct (map_article_fields parse_date py_str p item); [|destruct Hin].
    destruct Hin as [<-|[]]. reflexivity. }
  split.
  - intros a Hin. unfold parse_json_response in Hin.
    destruct (if truthy (articles_path p) then _ else _) as [ad|]; [|destruct Hin].
    destruct ad; try destruct Hin; apply Fm in Hin as [item Hm];
      destruct (map_article_fields_shape parse_date py_str p item a Hm) as [A [B [C [D [E _]]]]];
      repeat split; assumption.
  - intros Hf d ->. unfold parse_json_response. rewrite Hf. cbn [flat_map].
    destruct (map_article_fields parse_date py_str p (PDict d)); cbn; lia.
Qed.

Definition news_api : APIParser :=
  {| api_name := "NewsAPI"; articles_path := PStr "articles"; mapping := PNone;
     api_language := Some (PStr "en") |}%string.

Lemma parse_json_response_articles_witness :
  (truthy (dict_get [("title", PStr "Rain"); ("url", PStr "http://x"); ("content", PNone);
       ("summary", PNone); ("published_at", PNone); ("author", PNone); ("image_url", PNone);
       ("categories", PList []); ("source", PStr "NewsAPI"); ("language", PStr "en")]%string
     "title" PNone) = true)
  /\ parse_json_response (fun _ => Raise ValueError) (fun _ => EmptyString) news_api
       (PDict [("articles", PList [PDict [("title", PStr "Rain"); ("url", PStr "http://x")];
                                   PDict [("title", PStr "")]])]%string)
     = [[("title", PStr "Rain"); ("url", PStr "http://x"); ("content", PNone);
         ("summary", PNone); ("published_at", PNone); ("author", PNone); ("image_url", PNone);
         ("categories", PList []); ("source", PStr "NewsAPI"); ("language", PStr "en")]]%string.
Proof.
  split; [|vm_compute; reflexivity].
  apply (proj1 (parse_json_response_articles (fun _ => Raise ValueError) (fun _ => EmptyString)
    news_api (PDict [("articles", PList [PDict [("title", PStr "Rain"); ("url", PStr "http://x")];
                                   PDict [("title", PStr "")]])]%string))).
  vm_compute. left. reflexivity.
Defined.
End ApiSourceMoreFacts.
